(** * sqlite-multi-db-rest-api: query cache and execution coordinator

    A shallow embedding of [src/services/cache_service.py] (the [QueryCache]
    class and [generate_cache_key]) and of [src/main.py]: the query path
    ([execute_query], [run_query], [get_query_status]) and the registry of
    connections and extensions ([get_db_connection], [load_extension],
    [load_all_extensions], [discover_extensions], [init_db],
    [create_database], [get_db_extensions]), with the properties of the
    specification stated and settled against it.

    Conventions of the embedding:
    - a Python [str] is a [string]; the text is taken to be ASCII, so
      [str.lower], [str.upper], [str.isspace] and [str.isalnum] act on the
      ASCII letters, digits and white space only, and [str.encode()] is the
      byte sequence of the characters;
    - a Python [float] time stamp (the value of [time.time()]) is an integer
      number of clock units [Z]; [+], [-], [<] and [>] on time stamps are the
      exact ones;
    - a Python [dict] used as a map is a [gmap]; a Python [list] is a [list];
    - [time.time()] reads an oracle: the n-th call of a run returns
      [clock n]; the number of calls made so far is part of the state;
    - the SQL engine ([sqlean]) is a record of functions, each of which may
      raise. *)

From Stdlib Require Import ZArith List String Ascii Lia Bool.
From stdpp Require Import base option list gmap strings sorting.

Local Open Scope string_scope.
Local Open Scope Z_scope.
Set Warnings "-register-all".

(** ** Python primitives used by the program *)

Module Py.

(** [c.isspace()] for an ASCII character: TAB, LF, VT, FF, CR, the four
    separators FS GS RS US, and the space. *)
Definition isspace (c : ascii) : bool :=
  let n := N_of_ascii c in
  (((9 <=? n) && (n <=? 13)) || ((28 <=? n) && (n <=? 32)))%N.

Definition lower_char (c : ascii) : ascii :=
  let n := N_of_ascii c in
  if ((65 <=? n) && (n <=? 90))%N then ascii_of_N (n + 32) else c.

Definition upper_char (c : ascii) : ascii :=
  let n := N_of_ascii c in
  if ((97 <=? n) && (n <=? 122))%N then ascii_of_N (n - 32) else c.

(** [s.lower()] and [s.upper()] *)
Fixpoint lower (s : string) : string :=
  match s with
  | EmptyString => EmptyString
  | String c r => String (lower_char c) (lower r)
  end.

Fixpoint upper (s : string) : string :=
  match s with
  | EmptyString => EmptyString
  | String c r => String (upper_char c) (upper r)
  end.

(** The words found so far are emitted when a white-space character or the
    end of the text closes them; [cur] is the word being read. *)
Definition emit (cur : string) (ws : list string) : list string :=
  match cur with
  | EmptyString => ws
  | _ => cur :: ws
  end.

Fixpoint split_from (cur : string) (s : string) : list string :=
  match s with
  | EmptyString => emit cur []
  | String c r =>
      if isspace c then emit cur (split_from EmptyString r)
      else split_from (cur +:+ String c EmptyString) r
  end.

(** [s.split()]: the maximal runs of characters that are not white space *)
Definition split (s : string) : list string := split_from EmptyString s.

(** [sep.join(l)] *)
Fixpoint join (sep : string) (l : list string) : string :=
  match l with
  | [] => EmptyString
  | [w] => w
  | w :: r => w +:+ sep +:+ join sep r
  end.

Fixpoint lstrip (s : string) : string :=
  match s with
  | EmptyString => EmptyString
  | String c r => if isspace c then lstrip r else s
  end.

Fixpoint rstrip (s : string) : string :=
  match s with
  | EmptyString => EmptyString
  | String c r =>
      match rstrip r with
      | EmptyString => if isspace c then EmptyString else String c EmptyString
      | r' => String c r'
      end
  end.

(** [s.strip()] *)
Definition strip (s : string) : string := rstrip (lstrip s).

(** [s.startswith(p)] *)
Fixpoint startswith (s p : string) : bool :=
  match p, s with
  | EmptyString, _ => true
  | String _ _, EmptyString => false
  | String a p', String b s' => if Ascii.eqb a b then startswith s' p' else false
  end.

(** [x in l] and [l.remove(x)] (the first occurrence; the program guards
    every call with [x in l], so the [ValueError] of an absent [x] is not
    reached and the model leaves the list as it is there). *)
Definition contains (x : string) (l : list string) : bool :=
  existsb (String.eqb x) l.

Fixpoint remove (x : string) (l : list string) : list string :=
  match l with
  | [] => []
  | y :: r => if String.eqb x y then r else y :: remove x r
  end.

End Py.

(** ** [hashlib.md5(data).hexdigest()]

    The digest of RFC 1321 on 32-bit words held in [Z], the wrap-around
    written out with [mod 2^32]. *)

Module MD5.

Definition wrap (x : Z) : Z := x mod 2 ^ 32.

Definition rotl (x : Z) (s : Z) : Z :=
  Z.lor (wrap (Z.shiftl x s)) (Z.shiftr x (32 - s)).

Definition not32 (x : Z) : Z := Z.lxor x 0xffffffff.

Definition K : list Z :=
  [ 0xd76aa478; 0xe8c7b756; 0x242070db; 0xc1bdceee;
    0xf57c0faf; 0x4787c62a; 0xa8304613; 0xfd469501;
    0x698098d8; 0x8b44f7af; 0xffff5bb1; 0x895cd7be;
    0x6b901122; 0xfd987193; 0xa679438e; 0x49b40821;
    0xf61e2562; 0xc040b340; 0x265e5a51; 0xe9b6c7aa;
    0xd62f105d; 0x02441453; 0xd8a1e681; 0xe7d3fbc8;
    0x21e1cde6; 0xc33707d6; 0xf4d50d87; 0x455a14ed;
    0xa9e3e905; 0xfcefa3f8; 0x676f02d9; 0x8d2a4c8a;
    0xfffa3942; 0x8771f681; 0x6d9d6122; 0xfde5380c;
    0xa4beea44; 0x4bdecfa9; 0xf6bb4b60; 0xbebfbc70;
    0x289b7ec6; 0xeaa127fa; 0xd4ef3085; 0x04881d05;
    0xd9d4d039; 0xe6db99e5; 0x1fa27cf8; 0xc4ac5665;
    0xf4292244; 0x432aff97; 0xab9423a7; 0xfc93a039;
    0x655b59c3; 0x8f0ccc92; 0xffeff47d; 0x85845dd1;
    0x6fa87e4f; 0xfe2ce6e0; 0xa3014314; 0x4e0811a1;
    0xf7537e82; 0xbd3af235; 0x2ad7d2bb; 0xeb86d391 ].

Definition shifts : list Z :=
  [ 7; 12; 17; 22; 7; 12; 17; 22; 7; 12; 17; 22; 7; 12; 17; 22;
    5; 9; 14; 20; 5; 9; 14; 20; 5; 9; 14; 20; 5; 9; 14; 20;
    4; 11; 16; 23; 4; 11; 16; 23; 4; 11; 16; 23; 4; 11; 16; 23;
    6; 10; 15; 21; 6; 10; 15; 21; 6; 10; 15; 21; 6; 10; 15; 21 ].

Definition nthZ (l : list Z) (i : Z) : Z := nth (Z.to_nat i) l 0.

(** The message bytes, the bit 1, zeros up to 56 modulo 64, and the length
    in bits as eight little-endian bytes. *)
Definition le_bytes (n : nat) (x : Z) : list Z :=
  map (fun i => Z.shiftr x (8 * Z.of_nat i) mod 256) (seq 0 n).

Definition pad (msg : list Z) : list Z :=
  let len := Z.of_nat (length msg) in
  let zeros := Z.to_nat ((55 - len) mod 64) in
  msg ++ [0x80] ++ repeat 0 zeros ++ le_bytes 8 ((8 * len) mod 2 ^ 64).

Fixpoint le_words (fuel : nat) (bs : list Z) : list Z :=
  match fuel, bs with
  | S f, b0 :: b1 :: b2 :: b3 :: r =>
      (b0 + Z.shiftl b1 8 + Z.shiftl b2 16 + Z.shiftl b3 24) :: le_words f r
  | _, _ => []
  end.

Fixpoint blocks (fuel : nat) (ws : list Z) : list (list Z) :=
  match fuel, ws with
  | S f, _ :: _ => firstn 16 ws :: blocks f (skipn 16 ws)
  | _, _ => []
  end.

Definition state : Type := Z * Z * Z * Z.

Definition round (M : list Z) (st : state) (i : Z) : state :=
  let '(a, b, c, d) := st in
  let '(f, g) :=
    if i <? 16 then (Z.lor (Z.land b c) (Z.land (not32 b) d), i)
    else if i <? 32 then (Z.lor (Z.land d b) (Z.land (not32 d) c), (5 * i + 1) mod 16)
    else if i <? 48 then (Z.lxor (Z.lxor b c) d, (3 * i + 5) mod 16)
    else (Z.lxor c (Z.lor b (not32 d)), (7 * i) mod 16) in
  let f' := wrap (f + a + nthZ K i + nthZ M g) in
  (d, wrap (b + rotl f' (nthZ shifts i)), b, c).

Definition process (st : state) (M : list Z) : state :=
  let '(a, b, c, d) := st in
  let '(a', b', c', d') := fold_left (round M) (map Z.of_nat (seq 0 64)) st in
  (wrap (a + a'), wrap (b + b'), wrap (c + c'), wrap (d + d')).

Definition init : state := (0x67452301, 0xefcdab89, 0x98badcfe, 0x10325476).

Definition digest (msg : list Z) : list Z :=
  let bs := pad msg in
  let ws := le_words (length bs) bs in
  let '(a, b, c, d) := fold_left process (blocks (length ws) ws) init in
  le_bytes 4 a ++ le_bytes 4 b ++ le_bytes 4 c ++ le_bytes 4 d.

Definition hex_digit (x : Z) : ascii :=
  ascii_of_N (Z.to_N (if x <? 10 then 48 + x else 87 + x)).

Fixpoint hex (bs : list Z) : string :=
  match bs with
  | [] => EmptyString
  | b :: r => String (hex_digit (b / 16)) (String (hex_digit (b mod 16)) (hex r))
  end.

(** [s.encode()] on ASCII text *)
Fixpoint encode (s : string) : list Z :=
  match s with
  | EmptyString => []
  | String c r => Z.of_N (N_of_ascii c) :: encode r
  end.

(** [hashlib.md5(s.encode()).hexdigest()] *)
Definition hexdigest (s : string) : string := hex (digest (encode s)).

End MD5.

(** ** Effects: mutable state, the clock and exceptions

    A computation reads the clock oracle, threads the state it mutates and
    the number of [time.time()] calls made so far, and either returns or
    raises; what it wrote before raising stays written, as in Python. *)

Module Eff.

Inductive outcome (A : Type) : Type :=
| Ok (a : A)
| Raise (e : string).
Arguments Ok {A} a.
Arguments Raise {A} e.

Definition M (St A : Type) : Type := nat -> St -> outcome A * St * nat.

Definition ret {St A} (a : A) : M St A := fun n s => (Ok a, s, n).

Definition bind {St A B} (m : M St A) (k : A -> M St B) : M St B :=
  fun n s =>
    match m n s with
    | (Ok a, s', n') => k a n' s'
    | (Raise e, s', n') => (Raise e, s', n')
    end.

Definition raise {St A} (e : string) : M St A := fun n s => (Raise e, s, n).

(** [try: body  except Exception as e: handler(e)] *)
Definition try_except {St A} (body : M St A) (handler : string -> M St A) : M St A :=
  fun n s =>
    match body n s with
    | (Ok a, s', n') => (Ok a, s', n')
    | (Raise e, s', n') => handler e n' s'
    end.

Definition gets {St A} (f : St -> A) : M St A := fun n s => (Ok (f s), s, n).

Definition modify {St} (f : St -> St) : M St unit := fun n s => (Ok tt, f s, n).

(** What a computation returned, if it did not raise. *)
Definition returned {St A} (r : outcome A * St * nat) : option A :=
  match r with
  | (Ok a, _, _) => Some a
  | (Raise _, _, _) => None
  end.

(** Run a computation on a component of the state. *)
Definition zoom {St T A} (proj : St -> T) (upd : T -> St -> St) (m : M T A) : M St A :=
  fun n s => let '(r, t, n') := m n (proj s) in (r, upd t s, n').

(** [for x in l: body(x)] *)
Fixpoint for_each {St A} (l : list A) (body : A -> M St unit) : M St unit :=
  match l with
  | [] => ret tt
  | x :: r => bind (body x) (fun _ => for_each r body)
  end.

Section Clock.
Variable clock : nat -> Z.

(** [time.time()] *)
Definition time_time {St} : M St Z := fun n s => (Ok (clock n), s, S n).
End Clock.

End Eff.

Notation "'let*' x ':=' c 'in' k" := (Eff.bind c (fun x => k))
  (at level 10, x pattern, c at level 100, k at level 200).
Notation "c '>>' k" := (Eff.bind c (fun _ => k))
  (at level 100, k at level 200, right associativity).

(** ** [src/config.py] *)

Module Config.

Record Settings := {
  MAX_WORKERS : Z;
  CACHE_EXPIRY : Z;
  MAX_CACHE_SIZE : Z
}.

(** The values used when the environment sets none. *)
Definition defaults : Settings :=
  {| MAX_WORKERS := 30; CACHE_EXPIRY := 300; MAX_CACHE_SIZE := 1000 |}.

End Config.

(** ** JSON values and [json.dumps(v, sort_keys=True)]

    The values a request body carries and a row holds; floats are left out. *)

Module Json.

Inductive json : Type :=
| JNull
| JBool (b : bool)
| JInt (n : Z)
| JStr (s : string)
| JList (l : list json)
| JDict (m : list (string * json)).

Definition hex4 (n : N) : string :=
  let z := Z.of_N n in
  String (MD5.hex_digit (z / 4096 mod 16)) (String (MD5.hex_digit (z / 256 mod 16))
    (String (MD5.hex_digit (z / 16 mod 16)) (String (MD5.hex_digit (z mod 16)) EmptyString))).

(** One character of a string literal, as the encoder with [ensure_ascii]
    writes it. *)
Definition escape_char (c : ascii) : string :=
  let n := N_of_ascii c in
  if (n =? 34)%N then "\" +:+ String c EmptyString
  else if (n =? 92)%N then "\\"
  else if (n =? 8)%N then "\b"
  else if (n =? 9)%N then "\t"
  else if (n =? 10)%N then "\n"
  else if (n =? 12)%N then "\f"
  else if (n =? 13)%N then "\r"
  else if ((32 <=? n) && (n <=? 126))%N then String c EmptyString
  else "\u" +:+ hex4 n.

Fixpoint escape (s : string) : string :=
  match s with
  | EmptyString => EmptyString
  | String c r => escape_char c +:+ escape r
  end.

Definition quote (s : string) : string :=
  String (ascii_of_N 34) (escape s) +:+ String (ascii_of_N 34) EmptyString.

Fixpoint digits (fuel : nat) (n : Z) (acc : string) : string :=
  match fuel with
  | O => acc
  | S f =>
      let acc' := String (ascii_of_N (Z.to_N (48 + n mod 10))) acc in
      if n <? 10 then acc' else digits f (n / 10) acc'
  end.

(** [str(n)] for an [int] *)
Definition str_int (n : Z) : string :=
  if n <? 0 then "-" +:+ digits (S (Z.to_nat (Z.log2 (- n)))) (- n) EmptyString
  else digits (S (Z.to_nat (Z.log2 n))) n EmptyString.

(** The members of an object sorted by key. *)
Fixpoint insert_sorted (kv : string * string) (l : list (string * string)) :=
  match l with
  | [] => [kv]
  | kv' :: r =>
      if String.leb (fst kv) (fst kv') then kv :: l else kv' :: insert_sorted kv r
  end.

Definition sort_keys (l : list (string * string)) : list (string * string) :=
  fold_right insert_sorted [] l.

Fixpoint dumps (v : json) : string :=
  match v with
  | JNull => "null"
  | JBool true => "true"
  | JBool false => "false"
  | JInt n => str_int n
  | JStr s => quote s
  | JList l =>
      "[" +:+ Py.join ", "
        ((fix each (l : list json) : list string :=
            match l with
            | [] => []
            | x :: r => dumps x :: each r
            end) l) +:+ "]"
  | JDict m =>
      "{" +:+ Py.join ", "
        (map (fun kv => quote (fst kv) +:+ ": " +:+ snd kv)
           (sort_keys
              ((fix each (m : list (string * json)) : list (string * string) :=
                  match m with
                  | [] => []
                  | (k, x) :: r => (k, dumps x) :: each r
                  end) m))) +:+ "}"
  end.

End Json.

(** ** [src/services/cache_service.py] *)

Module CacheService.

Import Eff.

Section QueryCache.
(** The cached data ([result: Any]). *)
Variable V : Type.
Variable clock : nat -> Z.

(** [{"result": ..., "timestamp": ..., "hits": ..., "last_hit_time": ...}] *)
Record CacheItem := {
  result : V;
  timestamp : Z;
  hits : Z;
  last_hit_time : Z
}.

Record QueryCache := {
  cache : gmap string CacheItem;
  expiration_times : gmap string Z;
  lru_keys : list string;
  max_cache_size : Z;
  default_ttl : Z
}.

Definition with_cache (f : gmap string CacheItem -> gmap string CacheItem)
    (self : QueryCache) : QueryCache :=
  {| cache := f (cache self);
     expiration_times := expiration_times self;
     lru_keys := lru_keys self;
     max_cache_size := max_cache_size self;
     default_ttl := default_ttl self |}.

Definition with_expiration_times (f : gmap string Z -> gmap string Z)
    (self : QueryCache) : QueryCache :=
  {| cache := cache self;
     expiration_times := f (expiration_times self);
     lru_keys := lru_keys self;
     max_cache_size := max_cache_size self;
     default_ttl := default_ttl self |}.

Definition with_lru_keys (f : list string -> list string)
    (self : QueryCache) : QueryCache :=
  {| cache := cache self;
     expiration_times := expiration_times self;
     lru_keys := f (lru_keys self);
     max_cache_size := max_cache_size self;
     default_ttl := default_ttl self |}.

(** [QueryCache.__init__] *)
Definition init (settings : Config.Settings) : QueryCache :=
  {| cache := ∅;
     expiration_times := ∅;
     lru_keys := [];
     max_cache_size := Config.MAX_CACHE_SIZE settings;
     default_ttl := Config.CACHE_EXPIRY settings |}.

(** [if k in d: del d[k]] *)
Definition del_if_in {A} (k : string) (d : gmap string A) : gmap string A :=
  match d !! k with
  | Some _ => delete k d
  | None => d
  end.

(** [if cache_key in self.lru_keys: self.lru_keys.remove(cache_key)] *)
Definition remove_if_in (k : string) (l : list string) : list string :=
  if Py.contains k l then Py.remove k l else l.

(** [QueryCache._remove_item] *)
Definition _remove_item (cache_key : string) : M QueryCache unit :=
  modify (with_cache (del_if_in cache_key)) >>
  modify (with_expiration_times (del_if_in cache_key)) >>
  modify (with_lru_keys (remove_if_in cache_key)).

(** [QueryCache._remove_lru_item] *)
Definition _remove_lru_item : M QueryCache unit :=
  let* keys := gets lru_keys in
  match keys with
  | lru_key :: rest =>
      modify (with_lru_keys (fun _ => rest)) >>
      _remove_item lru_key
  | [] => ret tt
  end.

(** [QueryCache.get] *)
Definition get (cache_key : string) : M QueryCache (option V * bool) :=
  let* self := gets id in
  match cache self !! cache_key with
  | Some cache_item =>
      let* t_default := time_time clock in
      let expiry :=
        default (t_default + default_ttl self) (expiration_times self !! cache_key) in
      let* t_check := time_time clock in
      if t_check <? expiry then
        let* t_hit := time_time clock in
        modify (with_cache
          <[cache_key := {| result := result cache_item;
                            timestamp := timestamp cache_item;
                            hits := hits cache_item + 1;
                            last_hit_time := t_hit |}]>) >>
        modify (with_lru_keys (remove_if_in cache_key)) >>
        modify (with_lru_keys (fun l => (l ++ [cache_key])%list)) >>
        ret (Some (result cache_item), true)
      else
        _remove_item cache_key >>
        ret (None, false)
  | None => ret (None, false)
  end.

(** [QueryCache.set] *)
Definition set (cache_key : string) (res : V) (ttl : option Z) : M QueryCache unit :=
  let* self := gets id in
  (if Z.of_nat (size (cache self)) >=? max_cache_size self
   then _remove_lru_item else ret tt) >>
  let* t_expiry := time_time clock in
  let expiry_time :=
    t_expiry + (match ttl with Some t => t | None => default_ttl self end) in
  let* t_stamp := time_time clock in
  let* t_hit := time_time clock in
  modify (with_cache
    <[cache_key := {| result := res;
                      timestamp := t_stamp;
                      hits := 1;
                      last_hit_time := t_hit |}]>) >>
  modify (with_expiration_times <[cache_key := expiry_time]>) >>
  modify (with_lru_keys (remove_if_in cache_key)) >>
  modify (with_lru_keys (fun l => (l ++ [cache_key])%list)).

(** [QueryCache.clear] *)
Definition clear : M QueryCache unit :=
  modify (with_cache (fun _ => ∅)) >>
  modify (with_expiration_times (fun _ => ∅)) >>
  modify (with_lru_keys (fun _ => [])).

(** The keys [k] of [expiration_times] with [current_time > v], in the order
    of the map; the loop of [cleanup_expired] removes each of them, and the
    state it leaves does not depend on that order. *)
Definition expired_keys (current_time : Z) (self : QueryCache) : list string :=
  (map_to_list (filter (fun kv => current_time > snd kv) (expiration_times self))).*1.

(** [QueryCache.cleanup_expired] *)
Definition cleanup_expired : M QueryCache Z :=
  let* current_time := time_time clock in
  let* keys := gets (expired_keys current_time) in
  for_each keys _remove_item >>
  ret (Z.of_nat (length keys)).

End QueryCache.

Arguments result {V}.
Arguments timestamp {V}.
Arguments hits {V}.
Arguments last_hit_time {V}.
Arguments cache {V}.
Arguments expiration_times {V}.
Arguments lru_keys {V}.
Arguments max_cache_size {V}.
Arguments default_ttl {V}.
Arguments init {V}.
Arguments get {V}.
Arguments set {V}.
Arguments clear {V}.
Arguments cleanup_expired {V}.
Arguments expired_keys {V}.
Arguments _remove_item {V}.
Arguments _remove_lru_item {V}.
Arguments with_cache {V}.
Arguments with_expiration_times {V}.
Arguments with_lru_keys {V}.

(** [generate_cache_key] of the cache service. *)
Definition generate_cache_key (query : string)
    (params : option (list (string * Json.json))) (db_name : string) : string :=
  let query_normalized := Py.lower (Py.join " " (Py.split query)) in
  let params_str :=
    match params with
    | Some (kv :: m) => Json.dumps (Json.JDict (kv :: m))
    | _ => ""
    end in
  let key_data := db_name +:+ ":" +:+ query_normalized +:+ ":" +:+ params_str in
  MD5.hexdigest key_data.

End CacheService.

(** ** [src/main.py]: the query path *)

Module Main.

Import Eff Json.

(** [dict(row)] and the list of them a query returns. *)
Definition Row : Type := list (string * json).
Definition Rows : Type := list Row.

(** [Optional[Dict[str, Any]]] *)
Definition Params : Type := option (list (string * json)).

(** The SQL engine behind [sqlean]. [connect] stands for the creation of a
    connection in [get_db_connection] (enabling and loading the extensions,
    [sqlean.connect], the WAL pragma); [execute] for [conn.cursor()] followed
    by [cursor.execute(query, params)] or [cursor.execute(query)]. Each call
    acts on the store of the engine and may raise. *)
Record Engine := {
  Handle : Type;
  Cursor : Type;
  Store : Type;
  connect : string -> Store -> outcome Handle * Store;
  execute : Handle -> string -> Params -> Store -> outcome Cursor * Store;
  fetchall : Cursor -> Store -> outcome Rows * Store;
  commit : Handle -> Store -> outcome unit * Store;
  rowcount : Cursor -> Z
}.

(** An entry of [query_results]: one of the three dictionaries the program
    writes. *)
Inductive Task : Type :=
| pending
| completed (result : option Rows) (cached : bool) (execution_time : Z)
| error (message : string) (execution_time : Z).

(** [QueryRequest] and [QueryResponse] of [src/api/types.py] *)
Record QueryRequest := {
  query : string;
  params : Params;
  db_name : string;
  cache_ttl : option Z;
  force_refresh : bool
}.

Record QueryResponse := {
  resp_id : string;
  resp_status : string;
  resp_result : option Rows;
  resp_error : option string;
  resp_cached : bool;
  resp_execution_time : option Z
}.

(** [result_data["status"]] *)
Definition status_of (t : Task) : string :=
  match t with
  | pending => "pending"
  | completed _ _ _ => "completed"
  | error _ _ => "error"
  end.

(** The response both endpoints build from an entry of [query_results]. *)
Definition response_of (query_id : string) (result_data : Task) : QueryResponse :=
  {| resp_id := query_id;
     resp_status := status_of result_data;
     resp_cached :=
       match result_data with completed _ c _ => c | _ => false end;
     resp_execution_time :=
       match result_data with
       | completed _ _ t => Some t
       | error _ t => Some t
       | pending => None
       end;
     resp_result :=
       match result_data with completed r _ _ => r | _ => None end;
     resp_error :=
       match result_data with error e _ => Some e | _ => None end |}.

(** [generate_cache_key] of [main.py] *)
Definition generate_cache_key (query : string) (params : Params) (db_name : string)
    : string :=
  let query_normalized := Py.lower (Py.join " " (Py.split query)) in
  let params_str :=
    match params with
    | Some (kv :: m) => dumps (JDict (kv :: m))
    | _ => ""
    end in
  let key_data := db_name +:+ ":" +:+ query_normalized +:+ ":" +:+ params_str in
  MD5.hexdigest key_data.

(** [query.strip().upper().startswith("SELECT")] and the test for the
    metadata queries, which are not cached. *)
Definition is_select (query : string) : bool :=
  Py.startswith (Py.upper (Py.strip query)) "SELECT".

Definition is_metadata (query : string) : bool :=
  Py.startswith (Py.upper (Py.strip query)) "SELECT SQLITE_".

(** [params] where the program tests [if params]. *)
Definition truthy (params : Params) : Params :=
  match params with
  | Some (kv :: m) => Some (kv :: m)
  | _ => None
  end.

Section Server.
Variable E : Engine.
Variable clock : nat -> Z.

(** The module-level state: [query_cache], [query_results],
    [db_connections] and what the engine holds. *)
Record World := {
  query_cache : CacheService.QueryCache Rows;
  query_results : gmap string Task;
  db_connections : gmap string (Handle E);
  store : Store E
}.

Definition with_query_cache (c : CacheService.QueryCache Rows) (w : World) : World :=
  {| query_cache := c;
     query_results := query_results w;
     db_connections := db_connections w;
     store := store w |}.

Definition with_query_results (f : gmap string Task -> gmap string Task)
    (w : World) : World :=
  {| query_cache := query_cache w;
     query_results := f (query_results w);
     db_connections := db_connections w;
     store := store w |}.

Definition with_db_connections
    (f : gmap string (Handle E) -> gmap string (Handle E)) (w : World) : World :=
  {| query_cache := query_cache w;
     query_results := query_results w;
     db_connections := f (db_connections w);
     store := store w |}.

Definition with_store (s : Store E) (w : World) : World :=
  {| query_cache := query_cache w;
     query_results := query_results w;
     db_connections := db_connections w;
     store := s |}.

(** A method call on the global [query_cache]. *)
Definition on_cache {A} (m : M (CacheService.QueryCache Rows) A) : M World A :=
  zoom query_cache with_query_cache m.

(** A call into the engine. *)
Definition engine {A} (f : Store E -> outcome A * Store E) : M World A :=
  fun n w => let '(r, s) := f (store w) in (r, with_store s w, n).

(** [query_results[query_id] = task] *)
Definition set_task (query_id : string) (task : Task) : M World unit :=
  modify (with_query_results <[query_id := task]>).

(** [get_db_connection] *)
Definition get_db_connection (db_name : string) : M World (Handle E) :=
  let* conns := gets db_connections in
  (match conns !! db_name with
   | None =>
       let* conn := engine (connect E db_name) in
       modify (with_db_connections <[db_name := conn]>)
   | Some _ => ret tt
   end) >>
  let* conns := gets db_connections in
  match conns !! db_name with
  | Some conn => ret conn
  | None => raise ("'" +:+ db_name +:+ "'")
  end.

(** The [try] block of [execute_query]; it returns at the cache hit. *)
Definition execute_query_try (start_time : Z) (query_id query : string)
    (params : Params) (db_name : string) (cache_ttl : option Z)
    (force_refresh : bool) : M World unit :=
  let cache_key := generate_cache_key query params db_name in
  let* returned :=
    (if negb force_refresh then
       let* looked := on_cache (CacheService.get clock cache_key) in
       let '(cached_result, hit) := looked in
       if hit : bool then
         set_task query_id (completed cached_result true 0) >>
         ret true
       else ret false
     else ret false) in
  if returned : bool then ret tt
  else
    let* conn := get_db_connection db_name in
    let* cursor := engine (execute E conn query (truthy params)) in
    if is_select query then
      let* results := engine (fetchall E cursor) in
      (if negb (is_metadata query)
       then on_cache (CacheService.set clock cache_key results cache_ttl)
       else ret tt) >>
      let* t_end := time_time clock in
      set_task query_id (completed (Some results) false (t_end - start_time))
    else
      engine (commit E conn) >>
      let rows_affected := [("rows_affected", JInt (rowcount E cursor))] in
      let* t_end := time_time clock in
      set_task query_id (completed (Some [rows_affected]) false (t_end - start_time)).

(** [execute_query]; what it prints is left out. *)
Definition execute_query (query_id query : string) (params : Params)
    (db_name : string) (cache_ttl : option Z) (force_refresh : bool)
    : M World unit :=
  let* start_time := time_time clock in
  try_except
    (execute_query_try start_time query_id query params db_name cache_ttl
       force_refresh)
    (fun e =>
       let* t_end := time_time clock in
       set_task query_id (error e (t_end - start_time))).

(** The task [cleanup] that [run_query] hands to [background_tasks]; it
    runs 300 seconds after the response was sent. *)
Definition cleanup (query_id : string) : M World unit :=
  modify (with_query_results (CacheService.del_if_in query_id)).

(** [run_query], for the identifier [uuid.uuid4()] gave. The [await] on
    the executor resumes the handler when [execute_query] has returned. *)
Definition run_query (query_id : string) (query_req : QueryRequest)
    : M World QueryResponse :=
  set_task query_id pending >>
  execute_query query_id (query query_req) (params query_req)
    (db_name query_req) (cache_ttl query_req) (force_refresh query_req) >>
  let* results := gets query_results in
  match results !! query_id with
  | Some result_data => ret (response_of query_id result_data)
  | None => raise ("'" +:+ query_id +:+ "'")
  end.

(** [get_query_status]; the [HTTPException] of an unknown identifier is
    raised with its detail. *)
Definition get_query_status (query_id : string) : M World QueryResponse :=
  let* results := gets query_results in
  match results !! query_id with
  | None => raise "Query not found"
  | Some result_data => ret (response_of query_id result_data)
  end.

End Server.

Arguments query_cache {E}.
Arguments query_results {E}.
Arguments db_connections {E}.
Arguments store {E}.

End Main.


(** * Derived forms

    The state a cache method leaves, as a function of the state it found;
    the lemmas below show that the methods compute them. *)

Section CacheForms.
Variable V : Type.
Implicit Type c : CacheService.QueryCache V.

(** The cache after [_remove_item(k)]. *)
Definition without_key (k : string) c : CacheService.QueryCache V :=
  CacheService.with_lru_keys (CacheService.remove_if_in k)
    (CacheService.with_expiration_times (CacheService.del_if_in k)
       (CacheService.with_cache (CacheService.del_if_in k) c)).

(** The cache after [_remove_lru_item()]. *)
Definition without_lru c : CacheService.QueryCache V :=
  match CacheService.lru_keys c with
  | lru_key :: rest =>
      without_key lru_key (CacheService.with_lru_keys (fun _ => rest) c)
  | [] => c
  end.

(** The entry of [k] replaced and [k] moved to the tail of the LRU order. *)
Definition refreshed (k : string) (it : CacheService.CacheItem V) c
    : CacheService.QueryCache V :=
  CacheService.with_lru_keys (fun l => (l ++ [k])%list)
    (CacheService.with_lru_keys (CacheService.remove_if_in k)
       (CacheService.with_cache <[k := it]> c)).

Definition stored (k : string) (it : CacheService.CacheItem V) (expiry : Z) c
    : CacheService.QueryCache V :=
  refreshed k it (CacheService.with_expiration_times <[k := expiry]> c).

(** [len(self.cache) >= self.max_cache_size] *)
Definition is_full c : bool :=
  Z.of_nat (size (CacheService.cache c)) >=? CacheService.max_cache_size c.

(** The three structures of a cache hold the same keys, and the LRU order
    holds each once. *)
Definition consistent c : Prop :=
  NoDup (CacheService.lru_keys c) /\
  (forall k, k ∈ CacheService.lru_keys c <-> is_Some (CacheService.cache c !! k)) /\
  (forall k, is_Some (CacheService.expiration_times c !! k) <->
             is_Some (CacheService.cache c !! k)).

Definition within_capacity c : Prop :=
  Z.of_nat (size (CacheService.cache c)) <= Z.max 1 (CacheService.max_cache_size c).

Definition cache_inv (m : Z) c : Prop :=
  consistent c /\ within_capacity c /\ CacheService.max_cache_size c = m.

(** [k] is in [expiration_times] with an expiry strictly before [now]. *)
Definition expired_at (now : Z) c (k : string) : bool :=
  match CacheService.expiration_times c !! k with
  | Some e => bool_decide (e < now)
  | None => false
  end.

(** The head of the LRU order had an entry in [c] and has none in [c']. *)
Definition evicts_head c (c' : CacheService.QueryCache V) : Prop :=
  exists h, head (CacheService.lru_keys c) = Some h /\
            is_Some (CacheService.cache c !! h) /\
            CacheService.cache c' !! h = None.

(** The eviction rule of [set] in the words of the specification: the head
    goes exactly when the cache holds [MaxCacheSize] entries and the key is
    not among them. *)
Definition spec_eviction_rule c (c' : CacheService.QueryCache V) (k : string) : Prop :=
  evicts_head c c' <->
  (Z.of_nat (size (CacheService.cache c)) = CacheService.max_cache_size c /\
   CacheService.cache c !! k = None).

(** The calls a client of the cache can make. *)
Inductive cache_op : Type :=
| OpGet (cache_key : string)
| OpSet (cache_key : string) (res : V) (ttl : option Z)
| OpClear
| OpCleanupExpired.

Definition apply_op (clock : nat -> Z) (o : cache_op)
    : Eff.M (CacheService.QueryCache V) unit :=
  match o with
  | OpGet k => CacheService.get clock k >> Eff.ret tt
  | OpSet k v ttl => CacheService.set clock k v ttl
  | OpClear => CacheService.clear
  | OpCleanupExpired => CacheService.cleanup_expired clock >> Eff.ret tt
  end.

Definition run_ops (clock : nat -> Z) (ops : list cache_op)
    : Eff.M (CacheService.QueryCache V) unit :=
  Eff.for_each ops (apply_op clock).

(** The cache a fresh [QueryCache()] has become after the calls [ops]. *)
Definition cache_after (clock : nat -> Z) (settings : Config.Settings)
    (ops : list cache_op) : CacheService.QueryCache V :=
  (run_ops clock ops 0%nat (CacheService.init settings)).1.2.

End CacheForms.

Arguments without_key {V}.
Arguments without_lru {V}.
Arguments refreshed {V}.
Arguments stored {V}.
Arguments is_full {V}.
Arguments consistent {V}.
Arguments within_capacity {V}.
Arguments cache_inv {V}.
Arguments expired_at {V}.
Arguments evicts_head {V}.
Arguments spec_eviction_rule {V}.
Arguments OpGet {V}.
Arguments OpSet {V}.
Arguments OpClear {V}.
Arguments OpCleanupExpired {V}.
Arguments apply_op {V}.
Arguments run_ops {V}.
Arguments cache_after {V}.

(** Every maximal run of white space replaced by one space. *)
Fixpoint collapse_from (in_run : bool) (s : string) : string :=
  match s with
  | EmptyString => EmptyString
  | String c r =>
      if Py.isspace c then
        if in_run then collapse_from true r else String " " (collapse_from true r)
      else String c (collapse_from false r)
  end.

Definition collapse_spaces (s : string) : string := collapse_from false s.

Section ServerForms.
Variable E : Main.Engine.
Variable clock : nat -> Z.

(** The first part of the [try] block of [execute_query]: the cache is
    consulted unless [force_refresh]; [true] is the early [return]. *)
Definition cache_lookup (query_id cache_key : string) (force_refresh : bool)
    : Eff.M (Main.World E) bool :=
  if negb force_refresh then
    let* looked := Main.on_cache E (CacheService.get clock cache_key) in
    let '(cached_result, hit) := looked in
    if hit : bool then
      Main.set_task E query_id (Main.completed cached_result true 0) >> Eff.ret true
    else Eff.ret false
  else Eff.ret false.

(** The rest of the [try] block: the statement goes to the engine. *)
Definition run_statement (start_time : Z) (query_id query : string)
    (params : Main.Params) (db_name : string) (cache_ttl : option Z)
    : Eff.M (Main.World E) unit :=
  let cache_key := Main.generate_cache_key query params db_name in
  let* conn := Main.get_db_connection E db_name in
  let* cursor := Main.engine E (Main.execute E conn query (Main.truthy params)) in
  if Main.is_select query then
    let* results := Main.engine E (Main.fetchall E cursor) in
    (if negb (Main.is_metadata query)
     then Main.on_cache E (CacheService.set clock cache_key results cache_ttl)
     else Eff.ret tt) >>
    let* t_end := Eff.time_time clock in
    Main.set_task E query_id (Main.completed (Some results) false (t_end - start_time))
  else
    Main.engine E (Main.commit E conn) >>
    let rows_affected := [("rows_affected", Json.JInt (Main.rowcount E cursor))] in
    let* t_end := Eff.time_time clock in
    Main.set_task E query_id
      (Main.completed (Some [rows_affected]) false (t_end - start_time)).

(** The [try] block of the [execute_query] that [run_query] starts for a
    submission, the clock having been read [n] times: the outcome, the state
    it leaves and the readings made. *)
Definition attempt (query_id : string) (query_req : Main.QueryRequest)
    (n : nat) (w : Main.World E) : Eff.outcome unit * Main.World E * nat :=
  Main.execute_query_try E clock (clock n) query_id (Main.query query_req)
    (Main.params query_req) (Main.db_name query_req) (Main.cache_ttl query_req)
    (Main.force_refresh query_req) (S n)
    (Main.with_query_results E <[query_id := Main.pending]> w).

(** The contract of submission in the words of the specification: the call
    returns with the task pending. *)
Definition spec_submit_pending (query_id : string) (query_req : Main.QueryRequest)
    (n : nat) (w : Main.World E) : Prop :=
  exists resp w' n',
    Main.run_query E clock query_id query_req n w = (Eff.Ok resp, w', n') /\
    Main.resp_status resp = "pending" /\
    Main.query_results w' !! query_id = Some Main.pending.

(** The write bypass in the words of the specification: a statement that is
    not a read leaves the cache as it was and its task reports the number of
    affected rows. *)
Definition spec_write_bypass (query_id : string) (query_req : Main.QueryRequest)
    (n : nat) (w : Main.World E) : Prop :=
  Main.is_select (Main.query query_req) = false ->
  exists w' n' k t,
    Main.execute_query E clock query_id (Main.query query_req)
      (Main.params query_req) (Main.db_name query_req) (Main.cache_ttl query_req)
      (Main.force_refresh query_req) n w = (Eff.Ok tt, w', n') /\
    Main.query_cache w' = Main.query_cache w /\
    Main.query_results w' !! query_id =
      Some (Main.completed (Some [[("rows_affected", Json.JInt k)]]) false t).

End ServerForms.

(** * Instances to run the program on *)

(** A clock that advances by one unit at each reading. *)
Definition seconds (n : nat) : Z := 1000 + Z.of_nat n.

(** A clock that stands at 100 for three readings and at 150 afterwards. *)
Definition boundary_clock (n : nat) : Z := if (n <? 3)%nat then 100 else 150.

Definition settings_of_capacity (m : Z) : Config.Settings :=
  {| Config.MAX_WORKERS := 30; Config.CACHE_EXPIRY := 300; Config.MAX_CACHE_SIZE := m |}.

(** The two statements on a table that does not exist. *)
Definition mentions_missing (q : string) : bool :=
  String.eqb q "SELECT * FROM missing" || String.eqb q "DELETE FROM missing".

(** An engine that keeps a journal of the calls it served, newest first. It
    rejects the statements on the table [missing]; a query returns one row,
    a write affects one. *)
Definition journal_engine : Main.Engine :=
  {| Main.Handle := string;
     Main.Cursor := string;
     Main.Store := list string;
     Main.connect := fun db st => (Eff.Ok db, ("connect " +:+ db) :: st);
     Main.execute := fun conn q p st =>
       if mentions_missing q
       then (Eff.Raise "no such table: missing", st)
       else (Eff.Ok q, (conn +:+ ": " +:+ q) :: st);
     Main.fetchall := fun cur st => (Eff.Ok [[("1", Json.JInt 1)]], st);
     Main.commit := fun conn st => (Eff.Ok tt, (conn +:+ ": COMMIT") :: st);
     Main.rowcount := fun cur => if Main.is_select cur then -1 else 1 |}.

(** The server as it starts: nothing cached, no task, no connection. *)
Definition fresh_world (settings : Config.Settings) : Main.World journal_engine :=
  Main.Build_World journal_engine (CacheService.init settings) ∅ ∅ [].

Definition request (db_name query : string) : Main.QueryRequest :=
  {| Main.query := query;
     Main.params := None;
     Main.db_name := db_name;
     Main.cache_ttl := None;
     Main.force_refresh := false |}.

(** The server after it answered a [SELECT] that ends in a comment. *)
Definition world_after_select : Main.World journal_engine * nat :=
  let '(_, w, n) :=
    Main.run_query journal_engine seconds "q1"
      (request "x" "select 1 --:delete from t") 0%nat
      (fresh_world Config.defaults) in
  (w, n).

(** A write sent to a database whose name ends where that query starts. *)
Definition colliding_delete : Main.QueryRequest :=
  request "x:select 1 --" "delete from t".

(** A cache of capacity 2 after [set("a", 1); set("b", 2)], and after the
    [set("b", 3)] that follows. *)
Definition full_cache : CacheService.QueryCache Z :=
  cache_after seconds (settings_of_capacity 2) [OpSet "a" 1 None; OpSet "b" 2 None].

Definition overwritten_cache : CacheService.QueryCache Z :=
  (CacheService.set seconds "b" 3 None 6%nat full_cache).1.2.

(** A cache of capacity 0 after [set("a", 1)]. *)
Definition zero_capacity_cache : CacheService.QueryCache Z :=
  cache_after seconds (settings_of_capacity 0) [OpSet "a" 1 None].

(** A cache with one entry, written at time 100 with a time to live of 50. *)
Definition boundary_cache : CacheService.QueryCache Z :=
  cache_after boundary_clock (settings_of_capacity 2) [OpSet "a" 7 (Some 50)].


(** * More of the program: derived forms *)

Section CacheSequences.
Variable V : Type.

(** The calls [set(k, v, ttl)] for the triples of a list, in its order. *)
Definition set_ops (entries : list (string * V * option Z)) : list (cache_op V) :=
  map (fun e => OpSet e.1.1 e.1.2 e.2) entries.

(** Every entry was counted as used at least once. *)
Definition hits_counted (c : CacheService.QueryCache V) : Prop :=
  forall k it, CacheService.cache c !! k = Some it -> 1 <= CacheService.hits it.

End CacheSequences.

Arguments set_ops {V}.
Arguments hits_counted {V}.

(** Every character of [s] is white space. *)
Fixpoint blank (s : string) : bool :=
  match s with
  | EmptyString => true
  | String c r => Py.isspace c && blank r
  end.

(** The order [sort_keys] puts the members of an object in. *)
Definition key_le (a b : string * string) : Prop := String.leb a.1 b.1 = true.

Section ServerFootprint.
Variable E : Main.Engine.

(** What a step of [execute_query] for the submission [qid] on the database
    [db] may change besides the cache and the store: the task of [qid], and
    the connection of [db] if there was none. *)
Definition touches_only (qid db : string) (w w' : Main.World E) : Prop :=
  (forall qid', qid' <> qid ->
     Main.query_results w' !! qid' = Main.query_results w !! qid') /\
  (forall db', db' <> db ->
     Main.db_connections w' !! db' = Main.db_connections w !! db') /\
  (forall h, Main.db_connections w !! db = Some h ->
     Main.db_connections w' !! db = Some h).

End ServerFootprint.

Arguments touches_only {E}.

(** * [src/main.py]: connections, extensions and databases *)

Module Registry.

Import Eff.

(** [settings.DB_DIR] and [settings.EXTENSIONS_DIR] of [src/config.py] *)
Record Dirs := {
  DB_DIR : string;
  EXTENSIONS_DIR : string
}.

(** The values used when the environment sets none. *)
Definition default_dirs : Dirs :=
  {| DB_DIR := "databases"; EXTENSIONS_DIR := "extensions" |}.

(** [s.endswith(suffix)] *)
Fixpoint endswith (s suffix : string) : bool :=
  String.eqb s suffix ||
  match s with
  | EmptyString => false
  | String _ r => endswith r suffix
  end.

(** [c.isalnum()] for an ASCII character: a digit or a letter. *)
Definition isalnum_char (c : ascii) : bool :=
  let n := N_of_ascii c in
  (((48 <=? n) && (n <=? 57)) || ((65 <=? n) && (n <=? 90)) ||
   ((97 <=? n) && (n <=? 122)))%N.

Fixpoint all_alnum (s : string) : bool :=
  match s with
  | EmptyString => true
  | String c r => isalnum_char c && all_alnum r
  end.

(** [s.isalnum()]: every character is alphanumeric and there is at least
    one. *)
Definition isalnum (s : string) : bool :=
  match s with
  | EmptyString => false
  | String _ _ => all_alnum s
  end.

(** [sep in p] *)
Fixpoint has_sep (p : string) : bool :=
  match p with
  | EmptyString => false
  | String c r => Ascii.eqb c "/" || has_sep r
  end.

(** [os.path.join(a, b)] of POSIX *)
Definition path_join (a b : string) : string :=
  if Py.startswith b "/" then b
  else if String.eqb a EmptyString || endswith a "/" then a +:+ b
  else a +:+ "/" +:+ b.

(** [os.path.basename(p)]: what follows the last separator. *)
Fixpoint basename (p : string) : string :=
  match p with
  | EmptyString => EmptyString
  | String c r => if has_sep p then basename r else p
  end.

(** [s.rfind(c)]: the index of the last occurrence of [c], or -1. *)
Fixpoint rfind_from (c : ascii) (s : string) (i found : Z) : Z :=
  match s with
  | EmptyString => found
  | String x r => rfind_from c r (i + 1) (if Ascii.eqb x c then i else found)
  end.

Definition rfind (c : ascii) (s : string) : Z := rfind_from c s 0 (-1).

(** [s[i:j]] for [0 <= i] *)
Definition slice (s : string) (i j : Z) : string :=
  String.substring (Z.to_nat i) (Z.to_nat (j - i)) s.

Fixpoint all_dots (s : string) : bool :=
  match s with
  | EmptyString => true
  | String c r => Ascii.eqb c "." && all_dots r
  end.

(** [os.path.splitext(p)[0]]: [p] up to its last dot, when that dot comes
    after the last separator and after a character of the file name that is
    not a dot; [p] otherwise. *)
Definition splitext_root (p : string) : string :=
  let sepIndex := rfind "/" p in
  let dotIndex := rfind "." p in
  if sepIndex <? dotIndex then
    if all_dots (slice p (sepIndex + 1) dotIndex) then p else slice p 0 dotIndex
  else p.

(** What the program asks of the machine it runs on: [platform.system()],
    [glob.glob(pattern)] and [os.listdir(path)]. *)
Record Host := {
  platform_system : string;
  glob : string -> list string;
  listdir : string -> list string
}.

(** The calls into [sqlean]: [sqlean.extensions.enable_all()],
    [sqlean.connect(path)], [conn.enable_load_extension(flag)],
    [conn.load_extension(path)] and [conn.load_extension(path, entry_point)],
    [conn.execute(sql)] and [conn.cursor().execute(sql)], [conn.commit()]
    and [conn.close()]. Each acts on the store of the engine and may raise
    a [sqlean.Error] with the message given. *)
Record Sqlean := {
  Conn : Type;
  Store : Type;
  enable_all : Store -> outcome unit * Store;
  connect : string -> Store -> outcome Conn * Store;
  enable_load_extension : Conn -> bool -> Store -> outcome unit * Store;
  conn_load_extension : Conn -> string -> option string -> Store -> outcome unit * Store;
  execute : Conn -> string -> Store -> outcome unit * Store;
  commit : Conn -> Store -> outcome unit * Store;
  close : Conn -> Store -> outcome unit * Store
}.

(** An entry of the list [discover_extensions] returns. *)
Record Extension := {
  name : string;
  path : string
}.

(** The statement [init_db] creates the example table with. *)
Definition example_table : string :=
  "
    CREATE TABLE IF NOT EXISTS example (
        id INTEGER PRIMARY KEY,
        name TEXT,
        value REAL,
        created_at TIMESTAMP DEFAULT CURRENT_TIMESTAMP
    )
    ".

(** [entry_point] where the program tests [if entry_point]. *)
Definition truthy (entry_point : option string) : option string :=
  match entry_point with
  | Some (String c r) => Some (String c r)
  | _ => None
  end.

Section Server.
Variable E : Sqlean.
Variable H : Host.
Variable dirs : Dirs.

(** The module-level state: [db_connections], [db_extensions] and what the
    engine holds. *)
Record World := {
  db_connections : gmap string (Conn E);
  db_extensions : gmap string (list string);
  store : Store E
}.

Definition with_db_connections
    (f : gmap string (Conn E) -> gmap string (Conn E)) (w : World) : World :=
  {| db_connections := f (db_connections w);
     db_extensions := db_extensions w;
     store := store w |}.

Definition with_db_extensions
    (f : gmap string (list string) -> gmap string (list string)) (w : World) : World :=
  {| db_connections := db_connections w;
     db_extensions := f (db_extensions w);
     store := store w |}.

Definition with_store (s : Store E) (w : World) : World :=
  {| db_connections := db_connections w;
     db_extensions := db_extensions w;
     store := s |}.

(** A call into the engine. *)
Definition engine {A} (f : Store E -> outcome A * Store E) : M World A :=
  fun n w => let '(r, s) := f (store w) in (r, with_store s w, n).

(** [get_extension_file_pattern] *)
Definition get_extension_file_pattern : string :=
  let system := Py.lower (platform_system H) in
  if String.eqb system "linux" then "*.so"
  else if String.eqb system "darwin" then "*.dylib"
  else if String.eqb system "windows" then "*.dll"
  else "*".

(** [discover_extensions] *)
Definition discover_extensions : list Extension :=
  let pattern := get_extension_file_pattern in
  let extension_files := glob H (path_join (EXTENSIONS_DIR dirs) pattern) in
  map (fun file_path => {| name := basename file_path; path := file_path |})
    extension_files.

(** The list [get_db_connection] stores in [db_extensions]: the names of the
    extensions directory that end with the text of the pattern. *)
Definition listed_extensions : list string :=
  filter (fun ext => endswith ext get_extension_file_pattern = true)
    (listdir H (EXTENSIONS_DIR dirs)).

(** [get_db_connection], with the [load_all_extensions] it calls as a
    parameter: [load_extension] below calls it with [load_extensions=False],
    where that call is not reached. What [row_factory] is set to is left
    out. *)
Definition get_db_connection_with (load_all : string -> M World unit)
    (db_name : string) (load_extensions : bool) : M World (Conn E) :=
  let* conns := gets db_connections in
  (match conns !! db_name with
   | None =>
       let db_path := path_join (DB_DIR dirs) (db_name +:+ ".db") in
       engine (enable_all E) >>
       let* conn := engine (connect E db_path) in
       engine (enable_load_extension E conn true) >>
       (if load_extensions then load_all db_name else ret tt) >>
       engine (execute E conn "PRAGMA journal_mode=WAL") >>
       modify (with_db_connections <[db_name := conn]>) >>
       modify (with_db_extensions <[db_name := listed_extensions]>)
   | Some _ => ret tt
   end) >>
  let* conns := gets db_connections in
  match conns !! db_name with
  | Some conn => ret conn
  | None => raise ("'" +:+ db_name +:+ "'")
  end.

(** [load_extension]; the [sqlean.Error] of the engine is raised again with
    the name of the extension. *)
Definition load_extension (db_name extension_name : string)
    (entry_point : option string) : M World bool :=
  let* conn := get_db_connection_with (fun _ => ret tt) db_name false in
  let extension_path := path_join (EXTENSIONS_DIR dirs) extension_name in
  try_except
    (engine (conn_load_extension E conn extension_path (truthy entry_point)) >>
     let* exts := gets db_extensions in
     (if negb (Py.contains extension_name (default [] (exts !! db_name))) then
        (match exts !! db_name with
         | None => modify (with_db_extensions <[db_name := []]>)
         | Some _ => ret tt
         end) >>
        modify (with_db_extensions
                  (fun exts =>
                     <[db_name := (default [] (exts !! db_name) ++ [extension_name])%list]>
                       exts))
      else ret tt) >>
     ret true)
    (fun e =>
       raise ("Error loading extension '" +:+ extension_name +:+ "': " +:+ e)).

(** [load_all_extensions]; what it prints is left out. *)
Definition load_all_extensions (db_name : string) : M World unit :=
  let extensions := discover_extensions in
  for_each extensions
    (fun ext =>
       try_except
         (load_extension db_name (splitext_root (name ext)) None >> ret tt)
         (fun e => ret tt)).

(** [get_db_connection] *)
Definition get_db_connection (db_name : string) (load_extensions : bool)
    : M World (Conn E) :=
  get_db_connection_with load_all_extensions db_name load_extensions.

(** [init_db]; what it prints is left out. *)
Definition init_db (db_name : string) : M World unit :=
  let db_path := path_join (DB_DIR dirs) (db_name +:+ ".db") in
  engine (enable_all E) >>
  let* conn := engine (connect E db_path) in
  engine (enable_load_extension E conn true) >>
  engine (execute E conn example_table) >>
  engine (commit E conn) >>
  engine (close E conn).

(** [create_database]: the message of the response, or the detail of the
    [HTTPException] raised (status 400 for the name, 500 for a failure of
    [init_db]). *)
Definition create_database (db_name : string) : M World string :=
  if negb (isalnum db_name) then
    raise "Database name must contain only letters and numbers"
  else
    try_except
      (init_db db_name >>
       ret ("Database '" +:+ db_name +:+ "' created successfully"))
      (fun e => raise ("Error creating database: " +:+ e)).

(** [get_db_extensions]: the name and the list of the response, or the
    detail of the [HTTPException] raised (status 404). *)
Definition get_db_extensions (db_name : string) : M World (string * list string) :=
  let* exts := gets db_extensions in
  match exts !! db_name with
  | None =>
      raise ("Database '" +:+ db_name +:+ "' not found or has no extensions")
  | Some extensions => ret (db_name, extensions)
  end.

End Server.

Arguments db_connections {E}.
Arguments db_extensions {E}.
Arguments store {E}.

End Registry.

(** ** Derived forms of the registry *)

Section RegistryForms.
Variable E : Registry.Sqlean.
Variable H : Registry.Host.
Variable dirs : Registry.Dirs.

(** [db_extensions] after [load_extension] has noted [extension_name] for
    [db_name]: appended to the list of [db_name] unless it is there. *)
Definition note_loaded (db_name extension_name : string)
    (exts : gmap string (list string)) : gmap string (list string) :=
  if Py.contains extension_name (default [] (exts !! db_name)) then exts
  else <[db_name := (default [] (exts !! db_name) ++ [extension_name])%list]> exts.

(** The state after [load_extension(db_name, extension_name)] when [conn]
    is the connection registered for [db_name]: the engine was asked to load
    the extension into [conn], and the name is noted if it did. *)
Definition load_step (db_name : string) (conn : Registry.Conn E)
    (w : Registry.World E) (extension_name : string) : Registry.World E :=
  match Registry.conn_load_extension E conn
          (Registry.path_join (Registry.EXTENSIONS_DIR dirs) extension_name) None
          (Registry.store w) with
  | (Eff.Ok _, s) =>
      Registry.with_db_extensions E (note_loaded db_name extension_name)
        (Registry.with_store E s w)
  | (Eff.Raise _, s) => Registry.with_store E s w
  end.

(** The store after [conn.load_extension] was called on [conn] for each of
    the names, a failure not stopping the calls that follow. *)
Definition loads (conn : Registry.Conn E) (extension_names : list string)
    (s : Registry.Store E) : Registry.Store E :=
  fold_left
    (fun s extension_name =>
       (Registry.conn_load_extension E conn
          (Registry.path_join (Registry.EXTENSIONS_DIR dirs) extension_name) None s).2)
    extension_names s.

(** The names [load_all_extensions] passes to [load_extension]: the file
    names discovered, without their suffix. *)
Definition extension_roots : list string :=
  map (fun ext => Registry.splitext_root (Registry.name ext))
    (Registry.discover_extensions H dirs).

(** Two states agree on the connections and on the extension lists of every
    database but [db_name]. *)
Definition same_elsewhere (db_name : string) (w w' : Registry.World E) : Prop :=
  forall db', db' <> db_name ->
    Registry.db_connections w' !! db' = Registry.db_connections w !! db' /\
    Registry.db_extensions w' !! db' = Registry.db_extensions w !! db'.

(** A computation that leaves the connections and the extension lists as
    they are. *)
Definition keeps_registry {A} (m : Eff.M (Registry.World E) A) : Prop :=
  forall n w,
    Registry.db_connections (m n w).1.2 = Registry.db_connections w /\
    Registry.db_extensions (m n w).1.2 = Registry.db_extensions w.

End RegistryForms.

Arguments same_elsewhere {E}.
Arguments keeps_registry {E A}.

(** ** An engine and a host to run the registry on *)

(** The calls an engine served. *)
Inductive sqlean_call : Type :=
| CallEnableAll
| CallConnect (path : string)
| CallEnableLoadExtension (conn : nat) (flag : bool)
| CallLoadExtension (conn : nat) (path : string) (entry_point : option string)
| CallExecute (conn : nat) (sql : string)
| CallCommit (conn : nat)
| CallClose (conn : nat).

(** An engine that keeps a journal of the calls it served, newest first, and
    numbers its connections by the calls served before; it cannot load the
    extension [extensions/broken]. *)
Definition journal_sqlean : Registry.Sqlean :=
  {| Registry.Conn := nat;
     Registry.Store := list sqlean_call;
     Registry.enable_all := fun st => (Eff.Ok tt, CallEnableAll :: st);
     Registry.connect := fun path st => (Eff.Ok (length st), CallConnect path :: st);
     Registry.enable_load_extension := fun conn flag st =>
       (Eff.Ok tt, CallEnableLoadExtension conn flag :: st);
     Registry.conn_load_extension := fun conn path entry st =>
       if String.eqb path "extensions/broken"
       then (Eff.Raise "not authorized", CallLoadExtension conn path entry :: st)
       else (Eff.Ok tt, CallLoadExtension conn path entry :: st);
     Registry.execute := fun conn sql st => (Eff.Ok tt, CallExecute conn sql :: st);
     Registry.commit := fun conn st => (Eff.Ok tt, CallCommit conn :: st);
     Registry.close := fun conn st => (Eff.Ok tt, CallClose conn :: st) |}.

(** A Linux host whose extensions directory holds [stats.so] and
    [text.so]. *)
Definition linux_host : Registry.Host :=
  {| Registry.platform_system := "Linux";
     Registry.glob := fun pattern =>
       if String.eqb pattern "extensions/*.so"
       then ["extensions/stats.so"; "extensions/text.so"] else [];
     Registry.listdir := fun dir =>
       if String.eqb dir "extensions" then ["stats.so"; "text.so"] else [] |}.

(** The registry as the module is loaded: no connection, no list. *)
Definition fresh_registry : Registry.World journal_sqlean :=
  Registry.Build_World journal_sqlean ∅ ∅ [].

(** The server after it answered a [SELECT 1] on the default database. *)
Definition world_after_query : Main.World journal_engine :=
  (Main.run_query journal_engine seconds "q1" (request "default" "SELECT 1") 0%nat
     (fresh_world Config.defaults)).1.2.

(** The registry after the connection of the default database was opened
    without loading extensions. *)
Definition registry_with_default : Registry.World journal_sqlean :=
  (Registry.get_db_connection journal_sqlean linux_host Registry.default_dirs
     "default" false 0%nat fresh_registry).1.2.

(** A cache of capacity 2 after [set("a", 1, 1); set("b", 2)]: at the sixth
    reading of the clock the entry of ["a"] has expired. *)
Definition aging_cache : CacheService.QueryCache Z :=
  cache_after seconds (settings_of_capacity 2) [OpSet "a" 1 (Some 1); OpSet "b" 2 None].

(** A digit of lower-case hexadecimal notation, and a text made of them. *)
Definition is_hex_char (c : ascii) : bool :=
  let n := N_of_ascii c in
  (((48 <=? n) && (n <=? 57)) || ((97 <=? n) && (n <=? 102)))%N.

Fixpoint all_hex (s : string) : bool :=
  match s with
  | EmptyString => true
  | String c r => is_hex_char c && all_hex r
  end.

(** [c in s] for a character. *)
Fixpoint has_char (c : ascii) (s : string) : bool :=
  match s with
  | EmptyString => false
  | String x r => Ascii.eqb x c || has_char c r
  end.

(** A Linux host whose extensions directory holds [stats.so] and a file
    named [odd*.so]. *)
Definition star_host : Registry.Host :=
  {| Registry.platform_system := "Linux";
     Registry.glob := fun pattern =>
       if String.eqb pattern "extensions/*.so"
       then ["extensions/stats.so"; "extensions/odd*.so"] else [];
     Registry.listdir := fun dir =>
       if String.eqb dir "extensions" then ["stats.so"; "odd*.so"] else [] |}.

Section Recency.
Variable V : Type.

(** The entry of [k1], if both keys have one, was last used no later than
    that of [k2]. *)
Definition used_before (c : CacheService.QueryCache V) (k1 k2 : string) : Prop :=
  forall it1 it2,
    CacheService.cache c !! k1 = Some it1 -> CacheService.cache c !! k2 = Some it2 ->
    CacheService.last_hit_time it1 <= CacheService.last_hit_time it2.

(** [lru_keys] lists the keys from the least to the most recently used. *)
Definition recency_ordered (c : CacheService.QueryCache V) : Prop :=
  StronglySorted (used_before c) (CacheService.lru_keys c).

(** No entry was used after the clock reading [now]. *)
Definition used_by (now : Z) (c : CacheService.QueryCache V) : Prop :=
  forall k it, CacheService.cache c !! k = Some it -> CacheService.last_hit_time it <= now.

End Recency.

Arguments used_before {V}.
Arguments recency_ordered {V}.
Arguments used_by {V}.

(** A clock that does not run backwards. *)
Definition monotone (clock : nat -> Z) : Prop :=
  forall i j, (i <= j)%nat -> clock i <= clock j.


(** * Facts *)

Import Eff CacheService.

(** ** The normal form of a query text *)

Section StringFacts.

Lemma isspace_lower_char c : Py.isspace (Py.lower_char c) = Py.isspace c.
Proof. destruct c as [[] [] [] [] [] [] [] []]; reflexivity. Qed.

Lemma lower_char_space c : Py.isspace c = true -> Py.lower_char c = c.
Proof. destruct c as [[] [] [] [] [] [] [] []]; intros H; try reflexivity; discriminate H. Qed.

Lemma lower_app s t : Py.lower (s +:+ t) = Py.lower s +:+ Py.lower t.
Proof. induction s as [|c s IH]; simpl; [reflexivity|]. by rewrite IH. Qed.

Lemma emit_lower cur ws :
  map Py.lower (Py.emit cur ws) = Py.emit (Py.lower cur) (map Py.lower ws).
Proof. destruct cur; reflexivity. Qed.

Lemma split_from_lower s : forall cur,
  map Py.lower (Py.split_from cur s) = Py.split_from (Py.lower cur) (Py.lower s).
Proof.
  induction s as [|c s IH]; intros cur; simpl.
  - apply emit_lower.
  - rewrite isspace_lower_char. destruct (Py.isspace c) eqn:Hc.
    + rewrite emit_lower. f_equal. apply (IH EmptyString).
    + rewrite IH, lower_app. reflexivity.
Qed.

Lemma join_lower l : Py.lower (Py.join " " l) = Py.join " " (map Py.lower l).
Proof.
  induction l as [|w l IH]; [reflexivity|].
  destruct l as [|w' l]; [reflexivity|].
  change (Py.join " " (w :: w' :: l)) with (w +:+ " " +:+ Py.join " " (w' :: l)).
  rewrite !lower_app, IH. reflexivity.
Qed.

Lemma normalize_lower q :
  Py.lower (Py.join " " (Py.split q)) = Py.join " " (Py.split (Py.lower q)).
Proof. unfold Py.split. rewrite join_lower. f_equal. apply split_from_lower. Qed.

Lemma split_from_collapse s :
  (forall cur, Py.split_from cur (collapse_from false s) = Py.split_from cur s) /\
  Py.split_from EmptyString (collapse_from true s) = Py.split_from EmptyString s.
Proof.
  induction s as [|c s [IHf IHt]]; [split; reflexivity|].
  simpl. destruct (Py.isspace c) eqn:Hc; split; intros; simpl; rewrite ?Hc.
  - change (Py.isspace " ") with true. cbv iota. by rewrite IHt.
  - exact IHt.
  - apply IHf.
  - apply IHf.
Qed.

Lemma split_collapse q : Py.split (collapse_spaces q) = Py.split q.
Proof. apply split_from_collapse. Qed.

Lemma collapse_from_lower b s :
  collapse_from b (Py.lower s) = Py.lower (collapse_from b s).
Proof.
  revert b. induction s as [|c s IH]; intros b; [reflexivity|].
  simpl. rewrite isspace_lower_char. destruct (Py.isspace c); [destruct b|]; simpl; by rewrite IH.
Qed.

Lemma normalize_canonical q :
  Py.lower (Py.join " " (Py.split q)) =
  Py.join " " (Py.split (Py.lower (collapse_spaces q))).
Proof.
  rewrite normalize_lower. unfold collapse_spaces.
  rewrite <- collapse_from_lower. fold (collapse_spaces (Py.lower q)).
  by rewrite split_collapse.
Qed.

End StringFacts.

(** ** The fingerprint *)

Section Fingerprint.

Lemma lower_char_upper_char c : Py.lower_char (Py.upper_char c) = Py.lower_char c.
Proof. destruct c as [[] [] [] [] [] [] [] []]; reflexivity. Qed.

Lemma lower_char_idem c : Py.lower_char (Py.lower_char c) = Py.lower_char c.
Proof. destruct c as [[] [] [] [] [] [] [] []]; reflexivity. Qed.

Lemma lower_upper q : Py.lower (Py.upper q) = Py.lower q.
Proof. induction q as [|c q IH]; simpl; [reflexivity|]. by rewrite lower_char_upper_char, IH. Qed.

Lemma lower_lower q : Py.lower (Py.lower q) = Py.lower q.
Proof. induction q as [|c q IH]; simpl; [reflexivity|]. by rewrite lower_char_idem, IH. Qed.

(** The two definitions of the fingerprint are the same function. *)
Lemma generate_cache_key_same q p db :
  Main.generate_cache_key q p db = CacheService.generate_cache_key q p db.
Proof. reflexivity. Qed.

(** The fingerprint depends on the query through its normal form only. *)
Lemma generate_cache_key_normal q q' p db :
  Py.lower (Py.join " " (Py.split q)) = Py.lower (Py.join " " (Py.split q')) ->
  Main.generate_cache_key q p db = Main.generate_cache_key q' p db.
Proof. intros Heq. unfold Main.generate_cache_key. by rewrite Heq. Qed.


(** C10. An empty parameter map and absent parameters give the same
    fingerprint, under either definition, and the same call of the engine:
    the two submissions share one cache entry, and [execute_query] does the
    same on both. *)
Theorem generate_cache_key_empty_params (db q : string) :
  Main.generate_cache_key q (Some []) db = Main.generate_cache_key q None db /\
  CacheService.generate_cache_key q (Some []) db =
    CacheService.generate_cache_key q None db /\
  Main.truthy (Some []) = Main.truthy None /\
  (forall E clock query_id cache_ttl force_refresh n w,
     Main.execute_query E clock query_id q (Some []) db cache_ttl force_refresh n w =
     Main.execute_query E clock query_id q None db cache_ttl force_refresh n w).
Proof. repeat split. Qed.

End Fingerprint.


(** ** Lists and dictionaries *)

Section ListFacts.

Lemma contains_elem_of k l : Py.contains k l = true <-> k ∈ l.
Proof.
  unfold Py.contains. rewrite existsb_exists. split.
  - intros (x & Hin & Heq). apply String.eqb_eq in Heq as ->. by apply list_elem_of_In.
  - intros Hin. exists k. split; [by apply list_elem_of_In | apply String.eqb_refl].
Qed.

Lemma remove_notin k l : k ∉ l -> Py.remove k l = l.
Proof.
  induction l as [|y l IH]; intros Hk; [reflexivity|]. simpl.
  destruct (String.eqb_spec k y) as [->|Hne].
  - exfalso. apply Hk. left.
  - f_equal. apply IH. intros Hin. apply Hk. by right.
Qed.

Lemma elem_of_remove k l x : NoDup l -> x ∈ Py.remove k l <-> x ∈ l /\ x ≠ k.
Proof.
  induction 1 as [|y l Hy Hnd IH]; simpl.
  - split; [intros H; inversion H | intros [H _]; inversion H].
  - destruct (String.eqb_spec k y) as [->|Hne].
    + rewrite elem_of_cons. split.
      * intros Hx. split; [by right|]. intros ->. contradiction.
      * intros [[->|Hx] Hne]; [contradiction|done].
    + rewrite !elem_of_cons, IH. split.
      * intros [->|[Hx Hk]]; [split; [by left | by apply not_eq_sym] | split; [by right | done]].
      * intros [[->|Hx] Hk]; [by left | by right].
Qed.

Lemma NoDup_remove k l : NoDup l -> NoDup (Py.remove k l).
Proof.
  induction 1 as [|y l Hy Hnd IH]; simpl; [constructor|].
  destruct (String.eqb_spec k y) as [->|Hne]; [done|].
  constructor; [|done]. rewrite elem_of_remove by done. tauto.
Qed.

Lemma elem_of_remove_if_in k l x :
  NoDup l -> x ∈ remove_if_in k l <-> x ∈ l /\ x ≠ k.
Proof.
  intros Hnd. unfold remove_if_in. destruct (Py.contains k l) eqn:Hc.
  - by apply elem_of_remove.
  - assert (k ∉ l) by (rewrite <- contains_elem_of, Hc; discriminate).
    split; [|tauto]. intros Hx. split; [done|]. by intros ->.
Qed.

Lemma NoDup_remove_if_in k l : NoDup l -> NoDup (remove_if_in k l).
Proof.
  intros Hnd. unfold remove_if_in. destruct (Py.contains k l); [|done].
  by apply NoDup_remove.
Qed.

Lemma remove_if_in_notin k l : k ∉ l -> remove_if_in k l = l.
Proof.
  intros Hk. unfold remove_if_in. destruct (Py.contains k l); [|done].
  by apply remove_notin.
Qed.

Lemma remove_if_in_head k l : remove_if_in k (k :: l) = l.
Proof. unfold remove_if_in, Py.contains. simpl. by rewrite String.eqb_refl. Qed.

Lemma remove_if_in_cons_ne k y l :
  k ≠ y -> remove_if_in k (y :: l) = y :: remove_if_in k l.
Proof.
  intros Hne. unfold remove_if_in, Py.contains. simpl.
  destruct (String.eqb_spec k y) as [->|_]; [done|]. simpl.
  by destruct (existsb (String.eqb k) l).
Qed.

Lemma del_if_in_delete {A} k (m : gmap string A) : del_if_in k m = delete k m.
Proof.
  unfold del_if_in. destruct (m !! k) eqn:Hk; [done|]. by rewrite delete_id.
Qed.

End ListFacts.


(** ** What the cache methods compute *)

Section CacheFacts.
Context {V : Type}.
Variable clock : nat -> Z.
Implicit Type c : QueryCache V.

Lemma _remove_item_run k n c : _remove_item k n c = (Ok tt, without_key k c, n).
Proof. reflexivity. Qed.

Lemma _remove_lru_item_run n c : _remove_lru_item n c = (Ok tt, without_lru c, n).
Proof.
  unfold _remove_lru_item, without_lru, bind, gets.
  destruct (lru_keys c); reflexivity.
Qed.

Lemma set_run k v ttl n c :
  set clock k v ttl n c =
  (Ok tt,
   stored k {| result := v; timestamp := clock (S n); hits := 1;
               last_hit_time := clock (S (S n)) |}
     (clock n + match ttl with Some t => t | None => default_ttl c end)
     (if is_full c then without_lru c else c),
   S (S (S n))).
Proof.
  unfold set, is_full. unfold bind at 1. unfold gets at 1. cbv beta iota.
  unfold id. unfold bind at 1.
  destruct (Z.of_nat (size (cache c)) >=? max_cache_size c).
  - rewrite _remove_lru_item_run. reflexivity.
  - reflexivity.
Qed.

Lemma get_run k n c :
  get clock k n c =
  match cache c !! k with
  | Some it =>
      if clock (S n) <?
         default (clock n + default_ttl c) (expiration_times c !! k)
      then (Ok (Some (result it), true),
            refreshed k {| result := result it; timestamp := timestamp it;
                         hits := hits it + 1;
                         last_hit_time := clock (S (S n)) |} c,
            S (S (S n)))
      else (Ok (None, false), without_key k c, S (S n))
  | None => (Ok (None, false), c, n)
  end.
Proof.
  unfold get. unfold bind at 1. unfold gets at 1. cbv beta iota. unfold id.
  destruct (cache c !! k) as [it|]; [|reflexivity].
  unfold bind at 1. unfold time_time at 1. cbv beta iota zeta.
  unfold bind at 1. unfold time_time at 1. cbv beta iota.
  destruct (clock (S n) <? _); reflexivity.
Qed.

Lemma for_each_remove_run keys : forall n c,
  for_each keys _remove_item n c =
  (Ok tt, fold_left (fun c k => without_key k c) keys c, n).
Proof.
  induction keys as [|k keys IH]; intros n c; [reflexivity|].
  simpl. unfold bind. rewrite _remove_item_run. apply IH.
Qed.

Lemma cleanup_expired_run n c :
  cleanup_expired clock n c =
  (Ok (Z.of_nat (length (expired_keys (clock n) c))),
   fold_left (fun c k => without_key k c) (expired_keys (clock n) c) c,
   S n).
Proof.
  unfold cleanup_expired. unfold bind at 1. unfold time_time. cbv beta iota.
  unfold bind at 1. unfold gets. cbv beta iota.
  unfold bind. rewrite for_each_remove_run. reflexivity.
Qed.

Lemma clear_run n c :
  clear n c =
  (Ok tt, {| cache := ∅; expiration_times := ∅; lru_keys := [];
             max_cache_size := max_cache_size c; default_ttl := default_ttl c |}, n).
Proof. reflexivity. Qed.

Lemma stored_fields k it e c :
  stored k it e c =
  {| cache := <[k := it]> (cache c);
     expiration_times := <[k := e]> (expiration_times c);
     lru_keys := (remove_if_in k (lru_keys c) ++ [k])%list;
     max_cache_size := max_cache_size c;
     default_ttl := default_ttl c |}.
Proof. reflexivity. Qed.

Lemma refreshed_fields k it c :
  refreshed k it c =
  {| cache := <[k := it]> (cache c);
     expiration_times := expiration_times c;
     lru_keys := (remove_if_in k (lru_keys c) ++ [k])%list;
     max_cache_size := max_cache_size c;
     default_ttl := default_ttl c |}.
Proof. reflexivity. Qed.

Lemma without_lru_fields c :
  without_lru c =
  match lru_keys c with
  | h :: t =>
      {| cache := delete h (cache c);
         expiration_times := delete h (expiration_times c);
         lru_keys := remove_if_in h t;
         max_cache_size := max_cache_size c;
         default_ttl := default_ttl c |}
  | [] => c
  end.
Proof.
  unfold without_lru. destruct (lru_keys c) as [|h t]; [done|].
  unfold without_key, with_lru_keys, with_expiration_times, with_cache.
  cbn [cache expiration_times lru_keys max_cache_size default_ttl].
  by rewrite !del_if_in_delete.
Qed.

Lemma run_ops_cons o ops n c :
  run_ops clock (o :: ops) n c =
  match apply_op clock o n c with
  | (Ok _, c', n') => run_ops clock ops n' c'
  | (Raise e, c', n') => (Raise e, c', n')
  end.
Proof. reflexivity. Qed.

Lemma run_ops_nil n c : run_ops clock [] n c = (Ok tt, c, n).
Proof. reflexivity. Qed.

Lemma apply_op_set k v ttl n c : apply_op clock (OpSet k v ttl) n c = set clock k v ttl n c.
Proof. reflexivity. Qed.

Lemma apply_op_get k n c :
  apply_op clock (OpGet k) n c =
  match get clock k n c with
  | (Ok _, c', n') => (Ok tt, c', n')
  | (Raise e, c', n') => (Raise e, c', n')
  end.
Proof. reflexivity. Qed.

End CacheFacts.


(** ** The invariant of the cache *)

Section Invariant.
Context {V : Type}.
Variable clock : nat -> Z.
Implicit Type c : QueryCache V.

Lemma consistent_init settings : consistent (@init V settings).
Proof.
  split; [constructor|]. split; intros k; simpl; rewrite ?lookup_empty.
  - split; [intros H; inversion H | intros [? ?]; done].
  - done.
Qed.

Lemma consistent_without_key k c : consistent c -> consistent (without_key k c).
Proof.
  intros (Hnd & Hlru & Hexp). split; [|split]; simpl.
  - by apply NoDup_remove_if_in.
  - intros x. rewrite elem_of_remove_if_in by done. rewrite del_if_in_delete.
    rewrite Hlru. destruct (decide (x = k)) as [->|Hne].
    + rewrite lookup_delete_eq. split; [tauto | intros [? ?]; done].
    + rewrite lookup_delete_ne by done. tauto.
  - intros x. rewrite !del_if_in_delete. destruct (decide (x = k)) as [->|Hne].
    + by rewrite !lookup_delete_eq.
    + rewrite !lookup_delete_ne by done. apply Hexp.
Qed.

Lemma without_lru_cons c h t :
  consistent c -> lru_keys c = h :: t ->
  without_lru c =
  {| cache := delete h (cache c); expiration_times := delete h (expiration_times c);
     lru_keys := t; max_cache_size := max_cache_size c; default_ttl := default_ttl c |}.
Proof.
  intros (Hnd & _) Heq. unfold without_lru. rewrite Heq.
  unfold without_key, with_lru_keys, with_expiration_times, with_cache.
  cbn [cache expiration_times lru_keys max_cache_size default_ttl].
  rewrite !del_if_in_delete. rewrite Heq in Hnd. apply NoDup_cons in Hnd as [Hh _].
  by rewrite remove_if_in_notin.
Qed.

Lemma consistent_without_lru c : consistent c -> consistent (without_lru c).
Proof.
  intros Hwf. destruct (lru_keys c) as [|h t] eqn:Heq.
  - unfold without_lru. by rewrite Heq.
  - rewrite (without_lru_cons c h t) by done.
    destruct Hwf as (Hnd & Hlru & Hexp). rewrite Heq in Hnd.
    apply NoDup_cons in Hnd as [Hh Hnd]. split; [|split]; simpl; [done| |].
    + intros x. destruct (decide (x = h)) as [->|Hne].
      * rewrite lookup_delete_eq. split; [done | intros [? ?]; done].
      * rewrite lookup_delete_ne by done. rewrite <- Hlru, Heq, elem_of_cons. tauto.
    + intros x. destruct (decide (x = h)) as [->|Hne].
      * by rewrite !lookup_delete_eq.
      * rewrite !lookup_delete_ne by done. apply Hexp.
Qed.

Lemma consistent_refreshed k it c :
  consistent c -> is_Some (expiration_times c !! k) -> consistent (refreshed k it c).
Proof.
  intros (Hnd & Hlru & Hexp) Hk. split; [|split]; simpl.
  - apply NoDup_app. split; [by apply NoDup_remove_if_in|]. split; [|apply NoDup_singleton].
    intros x Hx. rewrite elem_of_remove_if_in in Hx by done.
    rewrite list_elem_of_singleton. tauto.
  - intros x. rewrite elem_of_app, elem_of_remove_if_in, list_elem_of_singleton by done.
    destruct (decide (x = k)) as [->|Hne].
    + rewrite lookup_insert_eq. split; [eauto | tauto].
    + rewrite lookup_insert_ne by done. rewrite Hlru. tauto.
  - intros x. destruct (decide (x = k)) as [->|Hne].
    + rewrite lookup_insert_eq. split; [eauto | done].
    + rewrite lookup_insert_ne by done. apply Hexp.
Qed.

Lemma consistent_stored k it e c : consistent c -> consistent (stored k it e c).
Proof.
  intros (Hnd & Hlru & Hexp). split; [|split]; simpl.
  - apply NoDup_app. split; [by apply NoDup_remove_if_in|]. split; [|apply NoDup_singleton].
    intros x Hx. rewrite elem_of_remove_if_in in Hx by done.
    rewrite list_elem_of_singleton. tauto.
  - intros x. rewrite elem_of_app, elem_of_remove_if_in, list_elem_of_singleton by done.
    destruct (decide (x = k)) as [->|Hne].
    + rewrite lookup_insert_eq. split; [eauto | tauto].
    + rewrite lookup_insert_ne by done. rewrite Hlru. tauto.
  - intros x. destruct (decide (x = k)) as [->|Hne].
    + rewrite !lookup_insert_eq. split; eauto.
    + rewrite !lookup_insert_ne by done. apply Hexp.
Qed.

Lemma consistent_fold_without_key keys : forall c,
  consistent c -> consistent (fold_left (fun c k => without_key k c) keys c).
Proof.
  induction keys as [|k keys IH]; intros c Hwf; [done|].
  simpl. apply IH. by apply consistent_without_key.
Qed.
Lemma size_without_key k c : (size (cache (without_key k c)) <= size (cache c))%nat.
Proof.
  simpl. rewrite del_if_in_delete, map_size_delete.
  destruct (cache c !! k); simpl; lia.
Qed.

Lemma size_fold_without_key keys : forall c,
  (size (cache (fold_left (fun c k => without_key k c) keys c)) <= size (cache c))%nat.
Proof.
  induction keys as [|k keys IH]; intros c; [done|]. simpl.
  etrans; [apply IH | apply size_without_key].
Qed.

Lemma size_stored k it e c : (size (cache (stored k it e c)) <= S (size (cache c)))%nat.
Proof. simpl. rewrite map_size_insert. destruct (cache c !! k); simpl; lia. Qed.

Lemma size_refreshed k it c :
  is_Some (cache c !! k) -> size (cache (refreshed k it c)) = size (cache c).
Proof. intros Hk. simpl. by apply map_size_insert_Some. Qed.

Lemma consistent_lru_nonempty c :
  consistent c -> size (cache c) ≠ 0%nat -> lru_keys c ≠ [].
Proof.
  intros (_ & Hlru & _) Hsz Hnil.
  apply map_size_ne_0_lookup_1 in Hsz as [k Hk].
  apply (proj2 (Hlru k)) in Hk. rewrite Hnil in Hk. inversion Hk.
Qed.

Lemma size_without_lru c :
  consistent c -> size (cache c) ≠ 0%nat -> size (cache (without_lru c)) = pred (size (cache c)).
Proof.
  intros Hwf Hsz. destruct (lru_keys c) as [|h t] eqn:Heq.
  - by destruct (consistent_lru_nonempty c Hwf Hsz).
  - rewrite (without_lru_cons c h t) by done. simpl. apply map_size_delete_Some.
    destruct Hwf as (_ & Hlru & _). apply Hlru. rewrite Heq. left.
Qed.

Lemma max_cache_size_fold_without_key keys : forall c,
  max_cache_size (fold_left (fun c k => without_key k c) keys c) = max_cache_size c.
Proof. induction keys as [|k keys IH]; intros c; [done|]. simpl. by rewrite IH. Qed.

Lemma max_cache_size_without_lru c : max_cache_size (without_lru c) = max_cache_size c.
Proof. unfold without_lru. by destruct (lru_keys c). Qed.

Lemma within_capacity_set k it e c :
  consistent c -> within_capacity c ->
  within_capacity (stored k it e (if is_full c then without_lru c else c)).
Proof.
  unfold within_capacity. intros Hwf Hb.
  pose proof (size_stored k it e (if is_full c then without_lru c else c)) as Hs.
  change (max_cache_size (stored k it e (if is_full c then without_lru c else c)))
    with (max_cache_size (if is_full c then without_lru c else c)).
  revert Hs. unfold is_full.
  destruct (Z.geb_spec (Z.of_nat (size (cache c))) (max_cache_size c))
    as [Hfull|Hfree]; intros Hs; [|lia].
  rewrite max_cache_size_without_lru.
  destruct (decide (size (cache c) = 0%nat)) as [Hz|Hnz].
  - assert (lru_keys c = []) as Hnil.
    { destruct Hwf as (_ & Hlru & _). apply map_size_empty_inv in Hz.
      destruct (lru_keys c) as [|h t] eqn:Heq; [done|].
      assert (is_Some (cache c !! h)) as [x Hx] by (apply Hlru; rewrite ?Heq; left).
      rewrite Hz, lookup_empty in Hx. done. }
    assert (without_lru c = c) as Hev by (unfold without_lru; by rewrite Hnil).
    rewrite Hev in *. lia.
  - rewrite size_without_lru in Hs by done. lia.
Qed.


Lemma apply_op_inv m o n c :
  cache_inv m c -> exists c' n', apply_op clock o n c = (Ok tt, c', n') /\ cache_inv m c'.
Proof.
  intros (Hwf & Hb & Hm). destruct o as [k|k v ttl| |]; simpl.
  - unfold bind. rewrite get_run. destruct (cache c !! k) as [it|] eqn:Hk.
    + destruct (_ <? _).
      * eexists _, _. split; [reflexivity|]. split; [|split]; [| |done].
        -- apply consistent_refreshed; [done|]. destruct Hwf as (_ & _ & Hexp). apply Hexp. eauto.
        -- unfold within_capacity. rewrite size_refreshed by eauto. exact Hb.
      * eexists _, _. split; [reflexivity|]. split; [|split]; [| |done].
        -- by apply consistent_without_key.
        -- unfold within_capacity in *. pose proof (size_without_key k c).
           change (max_cache_size (without_key k c)) with (max_cache_size c). lia.
    + eexists _, _. split; [reflexivity|]. done.
  - rewrite set_run. eexists _, _. split; [reflexivity|]. split; [|split].
    + apply consistent_stored. destruct (is_full c); [by apply consistent_without_lru | done].
    + by apply within_capacity_set.
    + simpl. destruct (is_full c); [by rewrite max_cache_size_without_lru | done].
  - eexists _, _. split; [reflexivity|]. split; [|split]; [| |done].
    + split; [constructor|]. split; intros k; simpl; rewrite ?lookup_empty; [|done].
      split; [intros H; inversion H | intros [? ?]; done].
    + unfold within_capacity. simpl. rewrite map_size_empty. lia.
  - unfold bind. rewrite cleanup_expired_run. eexists _, _. split; [reflexivity|].
    split; [|split].
    + by apply consistent_fold_without_key.
    + unfold within_capacity in *. rewrite max_cache_size_fold_without_key.
      pose proof (size_fold_without_key (expired_keys (clock n) c) c). lia.
    + by rewrite max_cache_size_fold_without_key.
Qed.

Lemma run_ops_inv m ops : forall n c,
  cache_inv m c -> exists c' n', run_ops clock ops n c = (Ok tt, c', n') /\ cache_inv m c'.
Proof.
  induction ops as [|o ops IH]; intros n c HI.
  - eexists _, _. split; [reflexivity | done].
  - destruct (apply_op_inv m o n c HI) as (c1 & n1 & Hrun & HI1).
    destruct (IH n1 c1 HI1) as (c2 & n2 & Hrun2 & HI2).
    exists c2, n2. split; [|done].
    unfold run_ops in *. simpl. unfold bind. rewrite Hrun. exact Hrun2.
Qed.

Lemma cache_inv_init settings : cache_inv (Config.MAX_CACHE_SIZE settings) (@init V settings).
Proof.
  split; [apply consistent_init|]. split; [|done].
  unfold within_capacity. simpl. rewrite map_size_empty. lia.
Qed.

Lemma consistent_after settings (ops : list (cache_op V)) :
  consistent (cache_after clock settings ops).
Proof.
  unfold cache_after.
  destruct (run_ops_inv _ ops 0%nat _ (cache_inv_init settings)) as (c & n & -> & (Hc & _)).
  exact Hc.
Qed.

(** C3 (as amended). For a configured capacity [MaxCacheSize] of at least
    one, the cache a fresh [QueryCache] has become after any sequence of
    [get], [set], [clear] and [cleanup_expired] calls holds at most
    [MaxCacheSize] entries; in particular this is so whenever a [set] has
    returned. *)
Theorem capacity_bound settings (ops : list (cache_op V)) :
  1 <= Config.MAX_CACHE_SIZE settings ->
  Z.of_nat (size (cache (cache_after clock settings ops))) <= Config.MAX_CACHE_SIZE settings.
Proof.
  intros Hpos. unfold cache_after.
  destruct (run_ops_inv _ ops 0%nat _ (cache_inv_init settings)) as (c & n & -> & (_ & Hb & Hm)).
  simpl. unfold within_capacity in Hb. rewrite Hm in Hb. lia.
Qed.
End Invariant.


(** ** The LRU order *)

Section LruOrder.
Context {V : Type}.
Variable clock : nat -> Z.
Implicit Type c : QueryCache V.

(** The state after [set(a); set(b)] on an empty cache of capacity 2. *)
Lemma two_sets settings a b (va vb : V) ta tb :
  Config.MAX_CACHE_SIZE settings = 2 -> a ≠ b ->
  run_ops clock [OpSet a va ta; OpSet b vb tb] 0%nat (init settings) =
  (Ok tt,
   {| cache :=
        <[b := {| result := vb; timestamp := clock 4%nat; hits := 1;
                  last_hit_time := clock 5%nat |}]>
          (<[a := {| result := va; timestamp := clock 1%nat; hits := 1;
                     last_hit_time := clock 2%nat |}]> ∅);
      expiration_times :=
        <[b := clock 3%nat + default (Config.CACHE_EXPIRY settings) tb]>
          (<[a := clock 0%nat + default (Config.CACHE_EXPIRY settings) ta]> ∅);
      lru_keys := [a; b];
      max_cache_size := 2;
      default_ttl := Config.CACHE_EXPIRY settings |},
   6%nat).
Proof.
  intros Hcap Hab.
  rewrite run_ops_cons, apply_op_set, set_run.
  assert (is_full (@init V settings) = false) as ->.
  { unfold is_full. simpl. rewrite map_size_empty, Hcap. reflexivity. }
  rewrite stored_fields. cbn [cache expiration_times lru_keys max_cache_size default_ttl init].
  rewrite run_ops_cons, apply_op_set, set_run.
  match goal with |- context [is_full ?c] => assert (is_full c = false) as -> end.
  { unfold is_full. cbn [cache max_cache_size].
    rewrite map_size_insert_None by apply lookup_empty.
    rewrite map_size_empty, Hcap. reflexivity. }
  rewrite stored_fields. cbn [cache expiration_times lru_keys max_cache_size default_ttl].
  rewrite run_ops_nil. rewrite Hcap.
  change (remove_if_in a []) with (@nil string). cbn [app].
  rewrite remove_if_in_cons_ne by done.
  destruct ta, tb; reflexivity.
Qed.
Lemma run_ops_app ops1 ops2 : forall n c,
  run_ops clock (ops1 ++ ops2)%list n c =
  match run_ops clock ops1 n c with
  | (Ok _, c', n') => run_ops clock ops2 n' c'
  | (Raise e, c', n') => (Raise e, c', n')
  end.
Proof.
  induction ops1 as [|o ops1 IH]; intros n c; [reflexivity|].
  rewrite <- app_comm_cons, !run_ops_cons.
  destruct (apply_op clock o n c) as [[[u|e] c'] n']; [apply IH | reflexivity].
Qed.

Lemma size_two_inserts {A} (a b : string) (x y : A) :
  a ≠ b -> size (<[b := y]> (<[a := x]> (∅ : gmap string A))) = 2%nat.
Proof.
  intros Hab. rewrite map_size_insert_None.
  - by rewrite map_size_insert_None, map_size_empty by apply lookup_empty.
  - rewrite lookup_insert_ne by done. apply lookup_empty.
Qed.

Lemma get_hit_moves_to_tail k n c v c' n' :
  get clock k n c = (Ok (Some v, true), c', n') ->
  lru_keys c' = (remove_if_in k (lru_keys c) ++ [k])%list.
Proof.
  rewrite get_run. destruct (cache c !! k) as [it|]; [|intros [=]].
  destruct (_ <? _); intros [= <- <- <-]. reflexivity.
Qed.

Lemma set_full_drops_head k v ttl n c h t :
  is_full c = true -> lru_keys c = h :: t -> h ≠ k ->
  cache (set clock k v ttl n c).1.2 !! h = None.
Proof.
  intros Hfull Hlru Hne. rewrite set_run, Hfull. cbn [fst snd].
  rewrite stored_fields. cbn [cache]. rewrite lookup_insert_ne by done.
  rewrite without_lru_fields, Hlru. cbn [cache]. apply lookup_delete_eq.
Qed.

(** C4. On a cache of capacity 2 and for distinct keys [a], [b], [c], the
    entry of [a] being unexpired when [get(a)] compares the clock (its
    eighth reading) with the expiry [set(a)] computed (from the first):
    after [set(a); set(b); set(c)] the entry of [a] is gone and those of [b]
    and [c] remain; after [set(a); set(b); get(a); set(c)] the entry of [b]
    is gone and those of [a] and [c] remain. A [get] that hits moves its key
    to the tail of the LRU order, and a [set] on a full cache removes the
    entry at the head. *)
Theorem lru_order settings (a b c : string) (va vb vc : V) ta tb tc :
  Config.MAX_CACHE_SIZE settings = 2 -> a ≠ b -> a ≠ c -> b ≠ c ->
  clock 7%nat < clock 0%nat + default (Config.CACHE_EXPIRY settings) ta ->
  let s1 := cache_after clock settings
              [OpSet a va ta; OpSet b vb tb; OpSet c vc tc] in
  let s2 := cache_after clock settings
              [OpSet a va ta; OpSet b vb tb; OpGet a; OpSet c vc tc] in
  (cache s1 !! a = None /\ result <$> cache s1 !! b = Some vb /\
   result <$> cache s1 !! c = Some vc /\ lru_keys s1 = [b; c]) /\
  (cache s2 !! b = None /\ result <$> cache s2 !! a = Some va /\
   result <$> cache s2 !! c = Some vc /\ lru_keys s2 = [a; c]) /\
  (forall k n c0 v c1 n1,
     get clock k n c0 = (Ok (Some v, true), c1, n1) ->
     lru_keys c1 = (remove_if_in k (lru_keys c0) ++ [k])%list /\
     last (lru_keys c1) = Some k) /\
  (forall k (v : V) ttl n c0 h t,
     is_full c0 = true -> lru_keys c0 = h :: t -> h ≠ k ->
     cache (set clock k v ttl n c0).1.2 !! h = None).
Proof.
  intros Hcap Hab Hac Hbc Hlive s1 s2.
  split; [|split; [|split;
    [intros k n c0 v c1 n1 Hget;
     rewrite (get_hit_moves_to_tail k n c0 v c1 n1 Hget);
     split; [reflexivity | apply last_snoc]
    | intros k v ttl n c0 h t; apply set_full_drops_head]]].
  - subst s1 s2. unfold cache_after.
    change [OpSet a va ta; OpSet b vb tb; OpSet c vc tc]
      with ([OpSet a va ta; OpSet b vb tb] ++ [OpSet c vc tc])%list.
    rewrite run_ops_app, (two_sets settings a b va vb ta tb Hcap Hab).
    rewrite run_ops_cons, apply_op_set, set_run, run_ops_nil. cbn [fst snd].
    match goal with |- context [is_full ?c] => assert (is_full c = true) as -> end.
    { unfold is_full. cbn [cache max_cache_size]. by rewrite size_two_inserts. }
    rewrite stored_fields, without_lru_fields.
    cbn [cache expiration_times lru_keys max_cache_size default_ttl].
    rewrite (remove_if_in_notin a [b]) by (rewrite list_elem_of_singleton; done).
    rewrite (remove_if_in_notin c [b]) by (rewrite list_elem_of_singleton; done).
    repeat split.
    + rewrite lookup_insert_ne by done. apply lookup_delete_eq.
    + rewrite lookup_insert_ne, lookup_delete_ne, lookup_insert_eq by done. reflexivity.
    + by rewrite lookup_insert_eq.
  - subst s1 s2. unfold cache_after.
    change [OpSet a va ta; OpSet b vb tb; OpGet a; OpSet c vc tc]
      with ([OpSet a va ta; OpSet b vb tb] ++ [OpGet a; OpSet c vc tc])%list.
    rewrite run_ops_app, (two_sets settings a b va vb ta tb Hcap Hab).
    rewrite run_ops_cons, apply_op_get, get_run.
    cbn [cache expiration_times lru_keys max_cache_size default_ttl].
    rewrite !(lookup_insert_ne _ b a), !lookup_insert_eq by done.
    cbn [default from_option id].
    apply Z.ltb_lt in Hlive. cbn [default from_option id] in Hlive. rewrite Hlive.
    rewrite run_ops_cons, apply_op_set, set_run, run_ops_nil. cbn [fst snd].
    rewrite refreshed_fields.
    cbn [cache expiration_times lru_keys max_cache_size default_ttl result timestamp hits].
    rewrite remove_if_in_head. cbn [app].
    match goal with |- context [is_full ?c] => assert (is_full c = true) as -> end.
    { unfold is_full. cbn [cache max_cache_size].
      rewrite map_size_insert_Some.
      - by rewrite size_two_inserts.
      - rewrite lookup_insert_ne, lookup_insert_eq by done. eauto. }
    rewrite stored_fields, without_lru_fields.
    cbn [cache expiration_times lru_keys max_cache_size default_ttl].
    rewrite (remove_if_in_notin b [a]) by (rewrite list_elem_of_singleton; done).
    rewrite (remove_if_in_notin c [a]) by (rewrite list_elem_of_singleton; done).
    repeat split.
    + rewrite lookup_insert_ne by done. apply lookup_delete_eq.
    + rewrite lookup_insert_ne, lookup_delete_ne, lookup_insert_eq by done. reflexivity.
    + by rewrite lookup_insert_eq.
Qed.
End LruOrder.


(** ** Expiry *)

Section Cleanup.
Context {V : Type}.
Variable clock : nat -> Z.
Implicit Type c : QueryCache V.

Lemma elem_of_expired_keys now c k :
  k ∈ expired_keys now c <-> expired_at now c k = true.
Proof.
  unfold expired_keys, expired_at. rewrite list_elem_of_fmap. split.
  - intros ([k' e] & -> & Hin). apply elem_of_map_to_list in Hin.
    apply map_lookup_filter_Some in Hin as [Hl Hgt]. simpl in *. rewrite Hl.
    apply bool_decide_eq_true. lia.
  - destruct (expiration_times c !! k) as [e|] eqn:Hk; [|discriminate].
    intros Hlt%bool_decide_eq_true. exists (k, e). split; [done|].
    apply elem_of_map_to_list, map_lookup_filter_Some. split; [done|]. simpl. lia.
Qed.

Lemma NoDup_expired_keys now c : NoDup (expired_keys now c).
Proof. apply NoDup_fst_map_to_list. Qed.

Lemma cache_fold_without_key keys : forall c k,
  cache (fold_left (fun c k => without_key k c) keys c) !! k =
  if decide (k ∈ keys) then None else cache c !! k.
Proof.
  induction keys as [|x keys IH]; intros c k; simpl.
  - destruct (decide (k ∈ [])) as [H|_]; [inversion H | done].
  - rewrite IH. cbn [cache without_key with_cache with_lru_keys with_expiration_times].
    rewrite del_if_in_delete.
    destruct (decide (k ∈ keys)) as [Hin|Hnin].
    + rewrite decide_True; [done | by right].
    + destruct (decide (k = x)) as [->|Hne].
      * rewrite decide_True by left. apply lookup_delete_eq.
      * rewrite decide_False, lookup_delete_ne; [done.. |].
        rewrite elem_of_cons. tauto.
Qed.

Lemma expiration_fold_without_key keys : forall c k,
  expiration_times (fold_left (fun c k => without_key k c) keys c) !! k =
  if decide (k ∈ keys) then None else expiration_times c !! k.
Proof.
  induction keys as [|x keys IH]; intros c k; simpl.
  - destruct (decide (k ∈ [])) as [H|_]; [inversion H | done].
  - rewrite IH. cbn [expiration_times without_key with_cache with_lru_keys with_expiration_times].
    rewrite del_if_in_delete.
    destruct (decide (k ∈ keys)) as [Hin|Hnin].
    + rewrite decide_True; [done | by right].
    + destruct (decide (k = x)) as [->|Hne].
      * rewrite decide_True by left. apply lookup_delete_eq.
      * rewrite decide_False, lookup_delete_ne; [done.. |].
        rewrite elem_of_cons. tauto.
Qed.

Lemma lru_fold_without_key keys : forall c k,
  NoDup (lru_keys c) ->
  k ∈ lru_keys (fold_left (fun c k => without_key k c) keys c) <->
  k ∈ lru_keys c /\ k ∉ keys.
Proof.
  induction keys as [|x keys IH]; intros c k Hnd; simpl.
  - split; [intros H; split; [done | intros H'; inversion H'] | tauto].
  - rewrite IH by (by apply NoDup_remove_if_in).
    cbn [lru_keys without_key with_cache with_lru_keys with_expiration_times].
    rewrite elem_of_remove_if_in by done. rewrite elem_of_cons. tauto.
Qed.

Lemma size_fold_without_key_exact keys : forall c,
  NoDup keys -> (forall k, k ∈ keys -> is_Some (cache c !! k)) ->
  (size (cache (fold_left (fun c k => without_key k c) keys c)) + length keys)%nat
  = size (cache c).
Proof.
  induction keys as [|x keys IH]; intros c Hnd Hin; simpl; [lia|].
  apply NoDup_cons in Hnd as [Hx Hnd].
  assert (forall k, k ∈ keys -> is_Some (cache (without_key x c) !! k)) as Hin'.
  { intros k Hk. cbn [cache without_key with_cache with_lru_keys with_expiration_times].
    rewrite del_if_in_delete, lookup_delete_ne; [apply Hin; by right|].
    intros ->. contradiction. }
  specialize (IH (without_key x c) Hnd Hin').
  assert (size (cache (without_key x c)) = pred (size (cache c))) as Hsz.
  { cbn [cache without_key with_cache with_lru_keys with_expiration_times].
    rewrite del_if_in_delete. apply map_size_delete_Some, Hin. left. }
  assert (size (cache c) ≠ 0%nat).
  { apply (map_size_ne_0_lookup_2 _ x), Hin. left. }
  lia.
Qed.

(** What [cleanup_expired] does: the entries whose expiry is strictly
    before the clock reading go, the others stay, and the count of the
    without_key ones is returned. *)
Lemma cleanup_expired_effect n c :
  consistent c ->
  exists c',
    cleanup_expired clock n c =
      (Ok (Z.of_nat (size (cache c)) - Z.of_nat (size (cache c'))), c', S n) /\
    (forall k, cache c' !! k =
               if expired_at (clock n) c k then None else cache c !! k) /\
    (forall k, expiration_times c' !! k =
               if expired_at (clock n) c k then None else expiration_times c !! k) /\
    (forall k, k ∈ lru_keys c' <->
               k ∈ lru_keys c /\ expired_at (clock n) c k = false).
Proof.
  intros Hwf. eexists. rewrite cleanup_expired_run. split; [|split; [|split]].
  - f_equal. f_equal. f_equal.
    rewrite <- (size_fold_without_key_exact (expired_keys (clock n) c) c).
    + lia.
    + apply NoDup_expired_keys.
    + intros k Hk. apply elem_of_expired_keys in Hk. unfold expired_at in Hk.
      destruct Hwf as (_ & _ & Hexp). apply Hexp.
      destruct (expiration_times c !! k); [eauto | discriminate].
  - intros k. rewrite cache_fold_without_key.
    destruct (decide (k ∈ expired_keys (clock n) c)) as [Hin|Hnin].
    + apply elem_of_expired_keys in Hin. by rewrite Hin.
    + rewrite elem_of_expired_keys in Hnin. by destruct (expired_at (clock n) c k).
  - intros k. rewrite expiration_fold_without_key.
    destruct (decide (k ∈ expired_keys (clock n) c)) as [Hin|Hnin].
    + apply elem_of_expired_keys in Hin. by rewrite Hin.
    + rewrite elem_of_expired_keys in Hnin. by destruct (expired_at (clock n) c k).
  - intros k. rewrite lru_fold_without_key by apply Hwf.
    rewrite elem_of_expired_keys.
    destruct (expired_at (clock n) c k); split; intros [? ?]; try done.
Qed.
End Cleanup.


(** ** Eviction by [set] *)

Section Eviction.
Context {V : Type}.
Variable clock : nat -> Z.
Implicit Type c : QueryCache V.

End Eviction.


(** ** The query path *)

Import Json Main.

Section MainFacts.
Variable E : Engine.
Variable clock : nat -> Z.
Implicit Type w : World E.

Lemma execute_query_run qid q p db ttl fr n w :
  execute_query E clock qid q p db ttl fr n w =
  match execute_query_try E clock (clock n) qid q p db ttl fr (S n) w with
  | (Ok a, w', n') => (Ok a, w', n')
  | (Raise e, w', n') =>
      (Ok tt, with_query_results E <[qid := error e (clock n' - clock n)]> w', S n')
  end.
Proof. reflexivity. Qed.

Lemma on_cache_run {A} (m : M (CacheService.QueryCache Rows) A) n w :
  on_cache E m n w =
  let '(r, c, n') := m n (query_cache w) in (r, with_query_cache E c w, n').
Proof. reflexivity. Qed.

Lemma execute_query_try_split start qid q p db ttl fr n w :
  execute_query_try E clock start qid q p db ttl fr n w =
  match cache_lookup E clock qid (generate_cache_key q p db) fr n w with
  | (Ok true, w', n') => (Ok tt, w', n')
  | (Ok false, w', n') => run_statement E clock start qid q p db ttl n' w'
  | (Raise e, w', n') => (Raise e, w', n')
  end.
Proof.
  unfold execute_query_try. unfold bind at 1.
  fold (cache_lookup E clock qid (generate_cache_key q p db) fr).
  destruct (cache_lookup E clock qid (generate_cache_key q p db) fr n w)
    as [[[[]|e] w'] n']; reflexivity.
Qed.

Lemma cache_lookup_run qid key fr n w :
  cache_lookup E clock qid key fr n w =
  if fr then (Ok false, w, n)
  else
    match CacheService.cache (query_cache w) !! key with
    | Some it =>
        if clock (S n) <?
           default (clock n + CacheService.default_ttl (query_cache w))
             (CacheService.expiration_times (query_cache w) !! key)
        then (Ok true,
              with_query_results E
                <[qid := completed (Some (CacheService.result it)) true 0]>
                (with_query_cache E
                   (refreshed key
                      {| CacheService.result := CacheService.result it;
                         CacheService.timestamp := CacheService.timestamp it;
                         CacheService.hits := CacheService.hits it + 1;
                         CacheService.last_hit_time := clock (S (S n)) |}
                      (query_cache w)) w),
              S (S (S n)))
        else (Ok false, with_query_cache E (without_key key (query_cache w)) w, S (S n))
    | None => (Ok false, with_query_cache E (query_cache w) w, n)
    end.
Proof.
  unfold cache_lookup. destruct fr; [reflexivity|]. cbn [negb].
  unfold bind at 1. rewrite on_cache_run, get_run.
  destruct (CacheService.cache (query_cache w) !! key) as [it|]; [|reflexivity].
  destruct (_ <? _); reflexivity.
Qed.

Lemma cache_lookup_hit qid key fr n w w' n' :
  cache_lookup E clock qid key fr n w = (Ok true, w', n') ->
  exists r, query_results w' !! qid = Some (completed r true 0).
Proof.
  rewrite cache_lookup_run. destruct fr; [intros [=]|].
  destruct (CacheService.cache (query_cache w) !! key) as [it|]; [|intros [=]].
  destruct (_ <? _); intros [= <- <-].
  eexists. cbn [query_results with_query_results]. apply lookup_insert_eq.
Qed.

Lemma cache_lookup_no_raise qid key fr n w e w' n' :
  cache_lookup E clock qid key fr n w <> (Raise e, w', n').
Proof.
  rewrite cache_lookup_run. destruct fr; [intros [=]|].
  destruct (CacheService.cache (query_cache w) !! key) as [it|]; [|intros [=]].
  destruct (_ <? _); intros [=].
Qed.

Lemma run_statement_ok start qid q p db ttl n w w' n' :
  run_statement E clock start qid q p db ttl n w = (Ok tt, w', n') ->
  exists r t, query_results w' !! qid = Some (completed (Some r) false t).
Proof.
  unfold run_statement. unfold bind at 1.
  destruct (get_db_connection E db n w) as [[[conn|e] w1] n1]; [|intros [=]].
  unfold bind at 1. unfold engine at 1.
  destruct (execute E conn q (truthy p) (store w1)) as [[cur|e] st1]; [|intros [=]].
  destruct (is_select q).
  - unfold bind at 1. unfold engine at 1.
    destruct (fetchall E cur _) as [[rows|e] st2]; [|intros [=]].
    unfold bind at 1.
    destruct (negb (is_metadata q)).
    + rewrite on_cache_run, set_run. intros [= <- <-].
      eexists _, _. cbn [query_results with_query_results]. apply lookup_insert_eq.
    + intros [= <- <-].
      eexists _, _. cbn [query_results with_query_results]. apply lookup_insert_eq.
  - unfold bind at 1. unfold engine at 1.
    destruct (commit E conn _) as [[[]|e] st2]; [|intros [=]].
    intros [= <- <-].
    eexists _, _. cbn [query_results with_query_results]. apply lookup_insert_eq.
Qed.

Lemma execute_query_try_ok start qid q p db ttl fr n w w' n' :
  execute_query_try E clock start qid q p db ttl fr n w = (Ok tt, w', n') ->
  exists r c t, query_results w' !! qid = Some (completed r c t).
Proof.
  rewrite execute_query_try_split.
  destruct (cache_lookup E clock qid (generate_cache_key q p db) fr n w)
    as [[[[]|e] w1] n1] eqn:Hlook.
  - intros [= <- <-]. apply cache_lookup_hit in Hlook as [r Hr]. eauto.
  - intros Hrun. apply run_statement_ok in Hrun as (r & t & Hr). eauto.
  - intros [=].
Qed.

(** [execute_query] returns, and the entry of the submission is then one of
    the two final ones. *)
Lemma execute_query_terminal qid q p db ttl fr n w :
  exists w' n' t,
    execute_query E clock qid q p db ttl fr n w = (Ok tt, w', n') /\
    query_results w' !! qid = Some t /\ t <> pending.
Proof.
  rewrite execute_query_run.
  destruct (execute_query_try E clock (clock n) qid q p db ttl fr (S n) w)
    as [[[[]|e] w1] n1] eqn:Htry.
  - apply execute_query_try_ok in Htry as (r & c & t & Hr).
    eexists _, _, _. split; [reflexivity|]. split; [exact Hr | discriminate].
  - eexists _, _, _. split; [reflexivity|]. split.
    + cbn [query_results with_query_results]. apply lookup_insert_eq.
    + discriminate.
Qed.

Lemma run_query_run qid req n w :
  run_query E clock qid req n w =
  match execute_query E clock qid (query req) (params req) (db_name req)
          (cache_ttl req) (force_refresh req) n
          (with_query_results E <[qid := pending]> w) with
  | (Ok _, w', n') =>
      match query_results w' !! qid with
      | Some result_data => (Ok (response_of qid result_data), w', n')
      | None => (Raise ("'" +:+ qid +:+ "'"), w', n')
      end
  | (Raise e, w', n') => (Raise e, w', n')
  end.
Proof.
  unfold run_query. unfold bind at 1. unfold set_task at 1, modify at 1.
  unfold bind at 1.
  destruct (execute_query E clock qid _ _ _ _ _ n _) as [[[[]|e] w'] n']; [|reflexivity].
  unfold bind, gets. destruct (query_results w' !! qid); reflexivity.
Qed.

Lemma get_query_status_run qid n w :
  get_query_status E qid n w =
  match query_results w !! qid with
  | None => (Raise "Query not found", w, n)
  | Some result_data => (Ok (response_of qid result_data), w, n)
  end.
Proof.
  unfold get_query_status, bind, gets. destruct (query_results w !! qid); reflexivity.
Qed.


(** C7. For every submission whose execution fails, that is, whose [try]
    block raises an exception with message [e]: [execute_query] returns
    without raising, the task of the submission is then
    [{"status": "error", "error": e, "execution_time": t}] with [t] the time
    elapsed between the start of the execution and the handling of the
    exception, and [run_query] returns that state to its caller as an
    ordinary response. *)
Theorem execute_query_records_failure qid req n w0 e :
  (attempt E clock qid req n w0).1.1 = Raise e ->
  execute_query E clock qid (query req) (params req) (db_name req)
    (cache_ttl req) (force_refresh req) n
    (with_query_results E <[qid := pending]> w0) =
    (Ok tt,
     with_query_results E
       <[qid := error e (clock (attempt E clock qid req n w0).2 - clock n)]>
       (attempt E clock qid req n w0).1.2,
     S (attempt E clock qid req n w0).2) /\
  query_results
    (execute_query E clock qid (query req) (params req) (db_name req)
       (cache_ttl req) (force_refresh req) n
       (with_query_results E <[qid := pending]> w0)).1.2 !! qid =
    Some (error e (clock (attempt E clock qid req n w0).2 - clock n)) /\
  run_query E clock qid req n w0 =
    (Ok {| resp_id := qid; resp_status := "error"; resp_result := None;
           resp_error := Some e; resp_cached := false;
           resp_execution_time :=
             Some (clock (attempt E clock qid req n w0).2 - clock n) |},
     with_query_results E
       <[qid := error e (clock (attempt E clock qid req n w0).2 - clock n)]>
       (attempt E clock qid req n w0).1.2,
     S (attempt E clock qid req n w0).2).
Proof.
  intros Hraise.
  destruct (attempt E clock qid req n w0) as [[r w1] n1] eqn:Htry.
  cbn [fst snd] in *. subst r. unfold attempt in Htry.
  set (w := with_query_results E <[qid := pending]> w0) in *.
  set (failed := with_query_results E <[qid := error e (clock n1 - clock n)]> w1).
  assert (execute_query E clock qid (query req) (params req) (db_name req)
            (cache_ttl req) (force_refresh req) n w = (Ok tt, failed, S n1)) as Hexec.
  { rewrite execute_query_run, Htry. reflexivity. }
  assert (query_results failed !! qid = Some (error e (clock n1 - clock n))) as Hres.
  { subst failed. cbn [query_results with_query_results]. apply lookup_insert_eq. }
  split; [exact Hexec|]. split; [rewrite Hexec; exact Hres|].
  rewrite run_query_run. fold w. rewrite Hexec, Hres. reflexivity.
Qed.

Lemma with_query_cache_id w : with_query_cache E (query_cache w) w = w.
Proof. by destruct w. Qed.

(** [get_db_connection] reads no clock and leaves the cache and the tasks
    as they are. *)
Lemma get_db_connection_frame db n w :
  (get_db_connection E db n w).2 = n /\
  query_cache (get_db_connection E db n w).1.2 = query_cache w /\
  query_results (get_db_connection E db n w).1.2 = query_results w.
Proof.
  unfold get_db_connection, bind, gets.
  destruct (db_connections w !! db) as [h|] eqn:Hdb.
  - cbn. rewrite Hdb. done.
  - unfold engine, modify. destruct (connect E db (store w)) as [[h|e'] st]; [|done].
    cbn. rewrite lookup_insert_eq. done.
Qed.

(** C6 (as amended). For every submission whose statement is not a read,
    that is executed (the refresh is forced, or the cache holds nothing
    under its key) and whose engine calls succeed: the change is committed,
    the cache is left exactly as it was, and the task is written as
    completed, not cached, with the single row [{"rows_affected": n}]. *)
Theorem write_bypasses_cache qid q p db ttl fr n w conn cur st1 st2 :
  is_select q = false ->
  fr = true \/ cache (query_cache w) !! Main.generate_cache_key q p db = None ->
  (get_db_connection E db (S n) w).1.1 = Ok conn ->
  execute E conn q (truthy p) (store (get_db_connection E db (S n) w).1.2)
    = (Ok cur, st1) ->
  commit E conn st1 = (Ok tt, st2) ->
  execute_query E clock qid q p db ttl fr n w =
    (Ok tt,
     {| query_cache := query_cache w;
        query_results :=
          <[qid := completed (Some [[("rows_affected", JInt (rowcount E cur))]])
                     false (clock (S n) - clock n)]> (query_results w);
        db_connections := db_connections (get_db_connection E db (S n) w).1.2;
        store := st2 |},
     S (S n)).
Proof.
  intros Hsel Hmiss Hconn Hexec Hcommit.
  assert (cache_lookup E clock qid (Main.generate_cache_key q p db) fr (S n) w
          = (Ok false, w, S n)) as Hlook.
  { rewrite cache_lookup_run. destruct Hmiss as [->|Hnone]; [reflexivity|].
    destruct fr; [reflexivity|]. rewrite Hnone. by rewrite with_query_cache_id. }
  destruct (get_db_connection_frame db (S n) w) as (Hn & Hc & Hr).
  destruct (get_db_connection E db (S n) w) as [[r wc] n1] eqn:Hget.
  cbn [fst snd] in *. subst r n1.
  rewrite execute_query_run, execute_query_try_split, Hlook.
  unfold run_statement. unfold bind at 1. rewrite Hget.
  unfold bind at 1. unfold engine at 1. rewrite Hexec.
  rewrite Hsel. unfold bind at 1. unfold engine at 1.
  cbn [store with_store]. rewrite Hcommit.
  unfold bind, time_time, set_task, modify.
  unfold with_query_results, with_store.
  cbn [query_cache query_results db_connections store].
  by rewrite Hc, Hr.
Qed.

End MainFacts.

(** * More of the program: facts *)

(** ** The cache under any sequence of calls *)

Section CacheMore.
Context {V : Type}.
Variable clock : nat -> Z.
Implicit Type c : QueryCache V.

Lemma hits_counted_without_key k c : hits_counted c -> hits_counted (without_key k c).
Proof.
  intros Hh x it. cbn [cache without_key with_cache with_lru_keys with_expiration_times].
  rewrite del_if_in_delete. intros Hx. apply lookup_delete_Some in Hx as [_ Hx]. eauto.
Qed.

Lemma hits_counted_fold keys : forall c,
  hits_counted c -> hits_counted (fold_left (fun c k => without_key k c) keys c).
Proof.
  induction keys as [|k keys IH]; intros c Hh; [done|].
  simpl. apply IH. by apply hits_counted_without_key.
Qed.

Lemma hits_counted_without_lru c : hits_counted c -> hits_counted (without_lru c).
Proof.
  intros Hh. rewrite without_lru_fields. destruct (lru_keys c) as [|h t]; [done|].
  intros x it. cbn [cache]. intros Hx. apply lookup_delete_Some in Hx as [_ Hx]. eauto.
Qed.

Lemma hits_counted_refreshed k it c :
  1 <= hits it -> hits_counted c -> hits_counted (refreshed k it c).
Proof.
  intros Hit Hh x it'. rewrite refreshed_fields. cbn [cache].
  intros Hx. apply lookup_insert_Some in Hx as [[_ <-]|[_ Hx]]; eauto.
Qed.

Lemma apply_op_hits o n c :
  hits_counted c -> hits_counted (apply_op clock o n c).1.2.
Proof.
  intros Hh. destruct o as [k|k v ttl| |]; simpl.
  - unfold bind. rewrite get_run. destruct (cache c !! k) as [it|] eqn:Hk; [|done].
    destruct (_ <? _); cbn [fst snd].
    + apply hits_counted_refreshed; [|done]. cbn [hits]. specialize (Hh k it Hk). lia.
    + by apply hits_counted_without_key.
  - rewrite set_run. cbn [fst snd]. unfold stored.
    apply hits_counted_refreshed; [cbn [hits]; lia|].
    assert (hits_counted (if is_full c then without_lru c else c)) as H0
      by (destruct (is_full c); [by apply hits_counted_without_lru | done]).
    intros x it'. cbn [cache with_expiration_times]. apply H0.
  - intros x it. cbn. by rewrite lookup_empty.
  - unfold bind. rewrite cleanup_expired_run. cbn [fst snd]. by apply hits_counted_fold.
Qed.

Lemma apply_op_ok o n c : (apply_op clock o n c).1.1 = Ok tt.
Proof.
  destruct o as [k|k v ttl| |]; simpl.
  - unfold bind. rewrite get_run. destruct (cache c !! k); [|done].
    by destruct (_ <? _).
  - by rewrite set_run.
  - done.
  - unfold bind. by rewrite cleanup_expired_run.
Qed.

Lemma run_ops_hits ops : forall n c,
  hits_counted c -> hits_counted (run_ops clock ops n c).1.2.
Proof.
  induction ops as [|o ops IH]; intros n c Hh; [done|].
  rewrite run_ops_cons.
  pose proof (apply_op_hits o n c Hh) as H1. pose proof (apply_op_ok o n c) as H2.
  destruct (apply_op clock o n c) as [[r c1] n1]. cbn [fst snd] in *. subst r.
  by apply IH.
Qed.

Lemma consistent_size c : consistent c -> size (cache c) = length (lru_keys c).
Proof.
  intros (Hnd & Hlru & _).
  rewrite <- size_dom. rewrite <- (size_list_to_set (C := gset string) (lru_keys c)) by done.
  f_equal. apply set_eq. intros k. rewrite elem_of_dom, elem_of_list_to_set. by rewrite Hlru.
Qed.

(** X1. Whatever sequence of [get], [set], [clear] and [cleanup_expired]
    calls a fresh [QueryCache] has served, its three structures describe
    the same entries: [lru_keys] holds no key twice, it holds exactly the
    keys of [cache], [expiration_times] has exactly the keys of [cache],
    [len(cache) = len(lru_keys)], and every entry has a [hits] count of at
    least 1. *)
Theorem cache_structures_agree settings (ops : list (cache_op V)) :
  NoDup (lru_keys (cache_after clock settings ops)) /\
  (forall k, k ∈ lru_keys (cache_after clock settings ops) <->
             is_Some (cache (cache_after clock settings ops) !! k)) /\
  (forall k, is_Some (expiration_times (cache_after clock settings ops) !! k) <->
             is_Some (cache (cache_after clock settings ops) !! k)) /\
  size (cache (cache_after clock settings ops)) =
    length (lru_keys (cache_after clock settings ops)) /\
  (forall k it, cache (cache_after clock settings ops) !! k = Some it -> 1 <= hits it).
Proof.
  assert (consistent (cache_after clock settings ops)) as Hc.
  { unfold cache_after.
    destruct (run_ops_inv clock _ ops 0%nat _ (cache_inv_init settings))
      as (c & n & -> & (Hc & _)). exact Hc. }
  pose proof (consistent_size _ Hc) as Hsz.
  destruct Hc as (Hnd & Hlru & Hexp).
  split; [exact Hnd|]. split; [exact Hlru|]. split; [exact Hexp|]. split; [exact Hsz|].
  apply run_ops_hits. intros k it. cbn. by rewrite lookup_empty.
Qed.



(** X4. [get(k)] touches the entry of [k] only: for every other key the
    entry, the expiry and the membership in [lru_keys] are as before, the
    capacity is unchanged, and a [get] of a key that has no entry changes
    nothing and reads no clock. *)
Theorem get_touches_only_its_key (k k' : string) n c :
  k' ≠ k -> NoDup (lru_keys c) ->
  cache (get clock k n c).1.2 !! k' = cache c !! k' /\
  expiration_times (get clock k n c).1.2 !! k' = expiration_times c !! k' /\
  (k' ∈ lru_keys (get clock k n c).1.2 <-> k' ∈ lru_keys c) /\
  max_cache_size (get clock k n c).1.2 = max_cache_size c /\
  (cache c !! k = None -> get clock k n c = (Ok (None, false), c, n)).
Proof.
  intros Hne Hnd. rewrite get_run. destruct (cache c !! k) as [it|] eqn:Hk.
  - destruct (_ <? _); cbn [fst snd].
    + rewrite refreshed_fields. cbn [cache expiration_times lru_keys max_cache_size].
      rewrite lookup_insert_ne by done. repeat split; try done.
      * rewrite elem_of_app, elem_of_remove_if_in, list_elem_of_singleton by done. tauto.
      * rewrite elem_of_app, elem_of_remove_if_in, list_elem_of_singleton by done. tauto.
    + cbn [cache expiration_times lru_keys max_cache_size without_key with_cache
           with_expiration_times with_lru_keys].
      rewrite !del_if_in_delete, !lookup_delete_ne by done. repeat split; try done.
      * rewrite elem_of_remove_if_in by done. tauto.
      * rewrite elem_of_remove_if_in by done. tauto.
  - cbn [fst snd]. repeat split; done.
Qed.

(** X5. [get(k)] on an entry whose expiry is not after the clock reading
    of the check (the boundary included) reports a miss and removes the
    entry from all three structures: the cache holds one entry less and its
    structures still agree. *)
Theorem get_drops_expired_entry (k : string) n c e :
  consistent c -> is_Some (cache c !! k) -> expiration_times c !! k = Some e ->
  e <= clock (S n) ->
  returned (get clock k n c) = Some (None, false) /\
  cache (get clock k n c).1.2 !! k = None /\
  expiration_times (get clock k n c).1.2 !! k = None /\
  (k ∉ lru_keys (get clock k n c).1.2) /\
  size (cache (get clock k n c).1.2) = pred (size (cache c)) /\
  consistent (get clock k n c).1.2.
Proof.
  intros Hc [it Hk] He Hexp. rewrite get_run, Hk, He. cbn [default from_option id].
  assert ((clock (S n) <? e) = false) as -> by (apply Z.ltb_ge; lia).
  cbn [returned fst snd]. split; [done|].
  cbn [cache expiration_times lru_keys without_key with_cache
       with_expiration_times with_lru_keys].
  rewrite !del_if_in_delete, !lookup_delete_eq. split; [done|]. split; [done|]. split.
  - destruct Hc as (Hnd & _). rewrite elem_of_remove_if_in by done. tauto.
  - split; [apply map_size_delete_Some; eauto|].
    pose proof (consistent_without_key k c Hc) as H. exact H.
Qed.

Lemma elem_of_drop_in {A} (x : A) i (l : list A) : x ∈ drop i l -> x ∈ l.
Proof. intros H. rewrite <- (take_drop i l). apply elem_of_app. by right. Qed.

Lemma is_full_max_cache_size c :
  max_cache_size (if is_full c then without_lru c else c) = max_cache_size c.
Proof.
  destruct (is_full c); [|done]. rewrite without_lru_fields. by destruct (lru_keys c).
Qed.

Lemma set_ops_fifo settings (entries : list (string * V * option Z)) :
  1 <= Config.MAX_CACHE_SIZE settings ->
  NoDup (map (fun e => e.1.1) entries) ->
  exists c n,
    run_ops clock (set_ops entries) 0%nat (init settings) = (Ok tt, c, n) /\
    consistent c /\
    max_cache_size c = Config.MAX_CACHE_SIZE settings /\
    lru_keys c =
      drop (length entries - Z.to_nat (Config.MAX_CACHE_SIZE settings))
           (map (fun e => e.1.1) entries).
Proof.
  intros HM. induction entries as [|[[k v] ttl] entries IH] using rev_ind; intros Hnd.
  - exists (init settings), 0%nat. unfold set_ops. cbn [map]. rewrite run_ops_nil. split; [done|].
    split; [apply consistent_init|]. split; done.
  - rewrite map_app in Hnd. cbn [map fst snd] in Hnd.
    apply NoDup_app in Hnd as (Hnd & Hk & _).
    destruct (IH Hnd) as (c & n & Hrun & Hc & Hmax & Hlru).
    assert (k ∉ map (fun e : string * V * option Z => e.1.1) entries) as Hk'.
    { intros Hin. apply (Hk k Hin). apply list_elem_of_singleton. done. }
    unfold set_ops in *. rewrite map_app. cbn [map fst snd].
    rewrite run_ops_app, Hrun. cbv beta iota.
    rewrite run_ops_cons, apply_op_set, set_run. cbv beta iota. rewrite run_ops_nil.
    eexists _, _. split; [reflexivity|].
    assert (consistent (if is_full c then without_lru c else c)) as Hc'.
    { destruct (is_full c); [by apply consistent_without_lru | done]. }
    split; [by apply consistent_stored|].
    rewrite stored_fields. cbn [max_cache_size lru_keys].
    split; [by rewrite is_full_max_cache_size|].
    pose proof (consistent_size c Hc) as Hsz.
    rewrite map_app, length_app. cbn [map length fst snd].
    assert (length (lru_keys c) =
            Nat.min (length entries) (Z.to_nat (Config.MAX_CACHE_SIZE settings))) as Hlen.
    { rewrite Hlru, length_drop, length_map. lia. }
    unfold is_full. rewrite Hmax, Hsz, Hlen.
    destruct (Z.geb_spec (Z.of_nat (Nat.min (length entries)
                 (Z.to_nat (Config.MAX_CACHE_SIZE settings))))
                (Config.MAX_CACHE_SIZE settings)) as [Hfull|Hfree].
    + assert (Z.to_nat (Config.MAX_CACHE_SIZE settings) <= length entries)%nat by lia.
      destruct (lru_keys c) as [|h t] eqn:Hl.
      { cbn in Hlen. lia. }
      rewrite (without_lru_cons c h t Hc Hl). cbn [lru_keys].
      assert (k ∉ t) as Hkt.
      { intros Hin. apply Hk'. 
        assert (k ∈ h :: t) as Hin' by (by apply list_elem_of_further).
        rewrite Hlru in Hin'. by apply elem_of_drop_in in Hin'. }
      rewrite remove_if_in_notin by done.
      replace (length entries + 1 - Z.to_nat (Config.MAX_CACHE_SIZE settings))%nat
        with (length entries - Z.to_nat (Config.MAX_CACHE_SIZE settings) + 1)%nat by lia.
      rewrite drop_app_le by (rewrite length_map; lia).
      f_equal. rewrite <- drop_drop, <- Hlru. done.
    + assert (length entries < Z.to_nat (Config.MAX_CACHE_SIZE settings))%nat by lia.
      rewrite remove_if_in_notin.
      2:{ rewrite Hlru. intros Hin. apply Hk'. by apply elem_of_drop_in in Hin. }
      rewrite Hlru.
      replace (length entries + 1 - Z.to_nat (Config.MAX_CACHE_SIZE settings))%nat
        with 0%nat by lia.
      replace (length entries - Z.to_nat (Config.MAX_CACHE_SIZE settings))%nat
        with 0%nat by lia.
      done.
Qed.

(** X6. [cleanup_expired] on a cache whose structures agree removes exactly
    the keys whose expiry is strictly before the clock reading it makes:
    their entries, expiries and places in [lru_keys] are gone, every other
    key keeps its entry, its expiry and its place, the number returned is
    the number of entries removed, and the structures still agree. *)
Theorem cleanup_expired_exact n c :
  consistent c ->
  returned (cleanup_expired clock n c) =
    Some (Z.of_nat (size (cache c)) -
          Z.of_nat (size (cache (cleanup_expired clock n c).1.2))) /\
  (forall k, cache (cleanup_expired clock n c).1.2 !! k =
             if expired_at (clock n) c k then None else cache c !! k) /\
  (forall k, expiration_times (cleanup_expired clock n c).1.2 !! k =
             if expired_at (clock n) c k then None else expiration_times c !! k) /\
  (forall k, k ∈ lru_keys (cleanup_expired clock n c).1.2 <->
             k ∈ lru_keys c /\ expired_at (clock n) c k = false) /\
  consistent (cleanup_expired clock n c).1.2.
Proof.
  intros Hc.
  assert (consistent (cleanup_expired clock n c).1.2) as Hc'.
  { rewrite cleanup_expired_run. by apply consistent_fold_without_key. }
  revert Hc'.
  destruct (cleanup_expired_effect clock n c Hc) as (c' & -> & H1 & H2 & H3).
  cbn [returned fst snd]. intros Hc'. split; [done|]. split; [exact H1|].
  split; [exact H2|]. split; [exact H3|exact Hc'].
Qed.

(** X7. With a capacity [MAX_CACHE_SIZE] of at least one, after [set] calls
    for pairwise distinct keys on a fresh cache and no [get] in between,
    the cache holds exactly the last [MAX_CACHE_SIZE] keys set, and
    [lru_keys] lists them in the order they were set: eviction is first in,
    first out. *)
Theorem sets_evict_first_in_first_out settings (entries : list (string * V * option Z)) :
  1 <= Config.MAX_CACHE_SIZE settings ->
  NoDup (map (fun e => e.1.1) entries) ->
  lru_keys (cache_after clock settings (set_ops entries)) =
    drop (length entries - Z.to_nat (Config.MAX_CACHE_SIZE settings))
         (map (fun e => e.1.1) entries) /\
  (forall k, is_Some (cache (cache_after clock settings (set_ops entries)) !! k) <->
             k ∈ drop (length entries - Z.to_nat (Config.MAX_CACHE_SIZE settings))
                      (map (fun e => e.1.1) entries)).
Proof.
  intros HM Hnd. unfold cache_after.
  destruct (set_ops_fifo settings entries HM Hnd) as (c & n & -> & Hc & _ & Hlru).
  cbn [fst snd]. split; [done|]. intros k. rewrite <- Hlru.
  destruct Hc as (_ & Hl & _). symmetry. apply Hl.
Qed.
End CacheMore.

(** ** The fingerprint: the order of the parameters, surrounding white space *)

Section FingerprintMore.

Lemma ascii_compare_lt_trans x y z :
  Ascii.compare x y = Lt -> Ascii.compare y z = Lt -> Ascii.compare x z = Lt.
Proof.
  unfold Ascii.compare. rewrite !N.compare_lt_iff. lia.
Qed.

Lemma string_compare_trans a : forall b c,
  String.compare a b <> Gt -> String.compare b c <> Gt -> String.compare a c <> Gt.
Proof.
  induction a as [|x a IH]; intros [|y b] [|z c]; cbn; try done.
  destruct (Ascii.compare x y) eqn:Hxy; [| |done].
  - apply Ascii.compare_eq_iff in Hxy as ->.
    destruct (Ascii.compare y z) eqn:Hyz; [apply IH|done|done].
  - destruct (Ascii.compare y z) eqn:Hyz; [| |done].
    + apply Ascii.compare_eq_iff in Hyz as ->. by rewrite Hxy.
    + by rewrite (ascii_compare_lt_trans x y z).
Qed.

Lemma leb_trans a b c :
  String.leb a b = true -> String.leb b c = true -> String.leb a c = true.
Proof.
  unfold String.leb. intros Hab Hbc.
  pose proof (string_compare_trans a b c) as H.
  destruct (String.compare a b), (String.compare b c), (String.compare a c);
    try done; exfalso; by apply H.
Qed.

Lemma key_le_trans a b c : key_le a b -> key_le b c -> key_le a c.
Proof. apply leb_trans. Qed.

Lemma insert_sorted_perm kv l : insert_sorted kv l ≡ₚ kv :: l.
Proof.
  induction l as [|kv' l IH]; [done|]. cbn.
  destruct (String.leb kv.1 kv'.1); [done|]. rewrite IH. apply Permutation_swap.
Qed.

Lemma sort_keys_perm l : sort_keys l ≡ₚ l.
Proof.
  induction l as [|kv l IH]; [done|]. cbn. by rewrite insert_sorted_perm, IH.
Qed.

Lemma insert_sorted_sorted kv l :
  StronglySorted key_le l -> StronglySorted key_le (insert_sorted kv l).
Proof.
  induction 1 as [|kv' l Hs IH Hall]; cbn; [by repeat constructor|].
  destruct (String.leb kv.1 kv'.1) eqn:Hle.
  - constructor; [by constructor|]. constructor; [exact Hle|].
    eapply Forall_impl; [exact Hall|]. intros x Hx. by eapply key_le_trans.
  - constructor; [exact IH|]. rewrite insert_sorted_perm. constructor; [|exact Hall].
    destruct (String.leb_total kv.1 kv'.1) as [H|H]; [congruence | exact H].
Qed.

Lemma sort_keys_sorted l : StronglySorted key_le (sort_keys l).
Proof.
  induction l as [|kv l IH]; [constructor|]. cbn. by apply insert_sorted_sorted.
Qed.

Lemma NoDup_fst_inj {A B} (l : list (A * B)) x y :
  NoDup (map fst l) -> x ∈ l -> y ∈ l -> x.1 = y.1 -> x = y.
Proof.
  induction l as [|z l IH]; cbn; intros Hnd Hx Hy Heq; [by apply elem_of_nil in Hx|].
  apply NoDup_cons in Hnd as (Hz & Hnd).
  apply elem_of_cons in Hx as [->|Hx]; apply elem_of_cons in Hy as [->|Hy].
  - done.
  - exfalso. apply Hz. rewrite Heq. apply list_elem_of_fmap. by exists y.
  - exfalso. apply Hz. rewrite <- Heq. apply list_elem_of_fmap. by exists x.
  - by apply IH.
Qed.

(** Members with distinct keys are sorted to the same list whatever order
    they came in. *)
Lemma sort_keys_order l l' :
  NoDup (map fst l) -> l ≡ₚ l' -> sort_keys l = sort_keys l'.
Proof.
  intros Hnd Hp. apply (StronglySorted_unique_strong key_le).
  - intros x y Hx Hy Hxy Hyx.
    rewrite sort_keys_perm in Hx. rewrite sort_keys_perm, <- Hp in Hy.
    apply (NoDup_fst_inj l); try done. by apply String.leb_antisym.
  - apply sort_keys_sorted.
  - apply sort_keys_sorted.
  - by rewrite !sort_keys_perm.
Qed.

Lemma dumps_dict m :
  dumps (JDict m) =
  "{" +:+ Py.join ", "
    (map (fun kv => quote kv.1 +:+ ": " +:+ kv.2)
       (sort_keys (map (fun kx => (kx.1, dumps kx.2)) m))) +:+ "}".
Proof.
  cbn [dumps]. do 5 f_equal.
  induction m as [|[k x] m IH]; [done|]. cbn [map fst snd]. by rewrite IH.
Qed.

Lemma dumps_dict_order m m' :
  NoDup (map fst m) -> m ≡ₚ m' -> dumps (JDict m) = dumps (JDict m').
Proof.
  intros Hnd Hp. rewrite !dumps_dict. do 4 f_equal.
  apply sort_keys_order.
  - rewrite map_map. cbn [fst]. exact Hnd.
  - by apply Permutation_map.
Qed.

Lemma split_from_lstrip s : Py.split_from EmptyString (Py.lstrip s) = Py.split_from EmptyString s.
Proof.
  induction s as [|c s IH]; [done|]. cbn [Py.lstrip].
  destruct (Py.isspace c) eqn:Hc; [|done]. cbn [Py.split_from]. by rewrite Hc.
Qed.

Lemma split_from_rstrip s : forall cur,
  Py.split_from cur (Py.rstrip s) = Py.split_from cur s.
Proof.
  induction s as [|c s IH]; intros cur; [done|]. cbn [Py.rstrip].
  destruct (Py.rstrip s) as [|c' r] eqn:Hr.
  - cbn [Py.split_from]. destruct (Py.isspace c) eqn:Hc.
    + rewrite <- IH. cbn [Py.split_from]. by destruct cur.
    + cbn [Py.split_from]. rewrite Hc. by rewrite <- IH.
  - cbn [Py.split_from]. destruct (Py.isspace c); by rewrite <- IH.
Qed.

Lemma split_strip s : Py.split (Py.strip s) = Py.split s.
Proof. unfold Py.split, Py.strip. by rewrite split_from_rstrip, split_from_lstrip. Qed.

Lemma split_from_blank_prefix a s :
  blank a = true -> Py.split_from EmptyString (a +:+ s) = Py.split_from EmptyString s.
Proof.
  induction a as [|c a IH]; [done|]. cbn [blank String.append Py.split_from].
  intros (Hc & Ha)%andb_prop. change (String c a +:+ s) with (String c (a +:+ s)).
  cbn [Py.split_from]. rewrite Hc. by apply IH.
Qed.

Lemma split_from_blank_suffix b s : blank b = true ->
  forall cur, Py.split_from cur (s +:+ b) = Py.split_from cur s.
Proof.
  intros Hb. induction s as [|c s IH]; intros cur.
  - change (EmptyString +:+ b) with b. clear -Hb. revert cur. induction b as [|c b IH]; intros cur; [done|].
    cbn [blank] in Hb. apply andb_prop in Hb as (Hc & Hb).
    cbn [Py.split_from]. rewrite Hc.
    rewrite (IH Hb EmptyString). by destruct cur.
  - change (String c s +:+ b) with (String c (s +:+ b)).
    cbn [Py.split_from]. destruct (Py.isspace c); by rewrite IH.
Qed.

(** X8. The fingerprint does not depend on the order in which the members
    of [params] were inserted: two dictionaries with the same members (the
    keys of a dictionary being pairwise distinct) give the same key, under
    either definition of [generate_cache_key], because [json.dumps] is
    called with [sort_keys=True]. *)
Theorem generate_cache_key_params_order (q db : string) (m m' : list (string * json)) :
  NoDup (map fst m) -> m ≡ₚ m' ->
  Main.generate_cache_key q (Some m) db = Main.generate_cache_key q (Some m') db /\
  CacheService.generate_cache_key q (Some m) db =
    CacheService.generate_cache_key q (Some m') db.
Proof.
  intros Hnd Hp.
  assert (Main.generate_cache_key q (Some m) db =
          Main.generate_cache_key q (Some m') db) as Hkey.
  { unfold Main.generate_cache_key. destruct m as [|kv m].
    - apply Permutation_nil_l in Hp as <-. done.
    - destruct m' as [|kv' m'].
      + by apply Permutation_nil_r in Hp.
      + by rewrite (dumps_dict_order _ _ Hnd Hp). }
  split; exact Hkey.
Qed.

Lemma lstrip_blank a : blank a = true -> Py.lstrip a = EmptyString.
Proof.
  induction a as [|c a IH]; [done|]. cbn [blank Py.lstrip].
  intros (Hc & Ha)%andb_prop. rewrite Hc. by apply IH.
Qed.

Lemma lstrip_blank_prefix a s : blank a = true -> Py.lstrip (a +:+ s) = Py.lstrip s.
Proof.
  induction a as [|c a IH]; [done|]. cbn [blank].
  intros (Hc & Ha)%andb_prop. change (String c a +:+ s) with (String c (a +:+ s)).
  cbn [Py.lstrip]. rewrite Hc. by apply IH.
Qed.

Lemma rstrip_blank b : blank b = true -> Py.rstrip b = EmptyString.
Proof.
  induction b as [|c b IH]; [done|]. cbn [blank Py.rstrip].
  intros (Hc & Hb)%andb_prop. by rewrite (IH Hb), Hc.
Qed.

Lemma rstrip_blank_suffix b s : blank b = true -> Py.rstrip (s +:+ b) = Py.rstrip s.
Proof.
  intros Hb. induction s as [|c s IH]; [by apply rstrip_blank|].
  change (String c s +:+ b) with (String c (s +:+ b)). cbn [Py.rstrip]. by rewrite IH.
Qed.

Lemma strip_blank_suffix b s : blank b = true -> Py.strip (s +:+ b) = Py.strip s.
Proof.
  intros Hb. unfold Py.strip. induction s as [|c s IH].
  - change (EmptyString +:+ b) with b. by rewrite (lstrip_blank b Hb).
  - change (String c s +:+ b) with (String c (s +:+ b)). cbn [Py.lstrip].
    destruct (Py.isspace c); [exact IH|]. by apply (rstrip_blank_suffix b (String c s)).
Qed.

Lemma strip_surrounded a b q :
  blank a = true -> blank b = true -> Py.strip (a +:+ q +:+ b) = Py.strip q.
Proof.
  intros Ha Hb. unfold Py.strip. rewrite lstrip_blank_prefix by done.
  by apply strip_blank_suffix.
Qed.

(** X9. White space before and after the query text changes neither the
    fingerprint nor the classification of the statement: the text
    surrounded by any white space, and the text stripped, have the
    fingerprint of the text itself, and the tests for a [SELECT] and for a
    metadata query give the same answers. *)
Theorem generate_cache_key_ignores_surrounding_space
    (q db a b : string) (p : Main.Params) :
  blank a = true -> blank b = true ->
  Main.generate_cache_key (a +:+ q +:+ b) p db = Main.generate_cache_key q p db /\
  Main.generate_cache_key (Py.strip q) p db = Main.generate_cache_key q p db /\
  Main.is_select (a +:+ q +:+ b) = Main.is_select q /\
  Main.is_metadata (a +:+ q +:+ b) = Main.is_metadata q.
Proof.
  intros Ha Hb. split; [|split; [|split]].
  - apply generate_cache_key_normal. unfold Py.split.
    by rewrite split_from_blank_prefix, split_from_blank_suffix.
  - apply generate_cache_key_normal. by rewrite split_strip.
  - unfold Main.is_select. by rewrite strip_surrounded.
  - unfold Main.is_metadata. by rewrite strip_surrounded.
Qed.

End FingerprintMore.

(** ** [execute_query] on its paths, and the life of a task *)

Section MainMore.
Variable E : Engine.
Variable clock : nat -> Z.
Implicit Type w : World E.

Lemma get_db_connection_run db n w :
  get_db_connection E db n w =
  match db_connections w !! db with
  | Some h => (Ok h, w, n)
  | None =>
      match connect E db (store w) with
      | (Ok h, st) => (Ok h, with_db_connections E <[db := h]> (with_store E st w), n)
      | (Raise e, st) => (Raise e, with_store E st w, n)
      end
  end.
Proof.
  unfold get_db_connection, bind, gets.
  destruct (db_connections w !! db) as [h|] eqn:Hdb.
  - cbn. by rewrite Hdb.
  - unfold engine, modify. destruct (connect E db (store w)) as [[h|e'] st]; [|done].
    cbn. by rewrite lookup_insert_eq.
Qed.

Lemma touches_only_refl qid db w : touches_only qid db w w.
Proof. by repeat split. Qed.

Lemma touches_only_trans qid db w1 w2 w3 :
  touches_only qid db w1 w2 -> touches_only qid db w2 w3 -> touches_only qid db w1 w3.
Proof.
  intros (A1 & B1 & C1) (A2 & B2 & C2). repeat split.
  - intros q' Hq. by rewrite A2, A1.
  - intros d' Hd. by rewrite B2, B1.
  - intros h Hh. by apply C2, C1.
Qed.

Lemma touches_only_task qid db t w :
  touches_only qid db w (with_query_results E <[qid := t]> w).
Proof.
  repeat split; try done. intros q' Hq. cbn. by rewrite lookup_insert_ne.
Qed.

Lemma touches_only_cache qid db c w : touches_only qid db w (with_query_cache E c w).
Proof. by repeat split. Qed.

Lemma touches_only_store qid db st w : touches_only qid db w (with_store E st w).
Proof. by repeat split. Qed.

Lemma get_db_connection_touches qid db n w :
  touches_only qid db w (get_db_connection E db n w).1.2.
Proof.
  rewrite get_db_connection_run. destruct (db_connections w !! db) as [h|] eqn:Hdb.
  - apply touches_only_refl.
  - destruct (connect E db (store w)) as [[h|e] st]; cbn [fst snd].
    + repeat split; try done.
      * intros d' Hd. cbn. by rewrite lookup_insert_ne.
      * intros h'. cbn. by rewrite Hdb.
    + apply touches_only_store.
Qed.

Lemma cache_lookup_touches qid db key fr n w :
  touches_only qid db w (cache_lookup E clock qid key fr n w).1.2.
Proof.
  rewrite cache_lookup_run. destruct fr; [apply touches_only_refl|].
  destruct (cache (query_cache w) !! key) as [it|].
  - destruct (_ <? _); cbn [fst snd].
    + eapply touches_only_trans; [apply touches_only_cache | apply touches_only_task].
    + apply touches_only_cache.
  - apply touches_only_cache.
Qed.

Lemma run_statement_touches start qid q p db ttl n w :
  touches_only qid db w (run_statement E clock start qid q p db ttl n w).1.2.
Proof.
  unfold run_statement. unfold bind at 1.
  pose proof (get_db_connection_touches qid db n w) as Hconn.
  destruct (get_db_connection E db n w) as [[[conn|e] w1] n1]; cbn [fst snd] in *; [|done].
  eapply touches_only_trans; [exact Hconn|]. clear Hconn.
  unfold bind at 1. unfold engine at 1.
  destruct (execute E conn q (truthy p) (store w1)) as [[cur|e] st1]; cbn [fst snd];
    [|apply touches_only_store].
  eapply touches_only_trans; [apply (touches_only_store qid db st1)|].
  destruct (is_select q).
  - unfold bind at 1. unfold engine at 1.
    destruct (fetchall E cur _) as [[rows|e] st2]; cbn [fst snd];
      [|apply touches_only_store].
    eapply touches_only_trans; [apply (touches_only_store qid db st2)|].
    unfold bind at 1. destruct (negb (is_metadata q)).
    + rewrite on_cache_run, set_run. cbn [fst snd].
      eapply touches_only_trans; [apply touches_only_cache | apply touches_only_task].
    + apply touches_only_task.
  - unfold bind at 1. unfold engine at 1.
    destruct (commit E conn _) as [[[]|e] st2]; cbn [fst snd];
      [|apply touches_only_store].
    eapply touches_only_trans; [apply (touches_only_store qid db st2)|].
    apply touches_only_task.
Qed.

Lemma execute_query_touches qid q p db ttl fr n w :
  touches_only qid db w (execute_query E clock qid q p db ttl fr n w).1.2.
Proof.
  rewrite execute_query_run, execute_query_try_split.
  pose proof (cache_lookup_touches qid db (generate_cache_key q p db) fr (S n) w) as Hl.
  destruct (cache_lookup E clock qid (generate_cache_key q p db) fr (S n) w)
    as [[[[]|e] w1] n1]; cbn [fst snd] in *; [done| |].
  - pose proof (run_statement_touches (clock n) qid q p db ttl n1 w1) as Hr.
    destruct (run_statement E clock (clock n) qid q p db ttl n1 w1)
      as [[[[]|e] w2] n2]; cbn [fst snd] in *.
    + eapply touches_only_trans; eauto.
    + eapply touches_only_trans; [exact Hl|].
      eapply touches_only_trans; [exact Hr | apply touches_only_task].
  - eapply touches_only_trans; [exact Hl | apply touches_only_task].
Qed.

Lemma execute_query_hit_run qid q p db ttl n w it e :
  cache (query_cache w) !! Main.generate_cache_key q p db = Some it ->
  expiration_times (query_cache w) !! Main.generate_cache_key q p db = Some e ->
  clock (S (S n)) < e ->
  execute_query E clock qid q p db ttl false n w =
    (Ok tt,
     {| query_cache :=
          refreshed (Main.generate_cache_key q p db)
            {| result := result it; timestamp := timestamp it;
               hits := hits it + 1; last_hit_time := clock (S (S (S n))) |}
            (query_cache w);
        query_results :=
          <[qid := completed (Some (result it)) true 0]> (query_results w);
        db_connections := db_connections w;
        store := store w |},
     S (S (S (S n)))).
Proof.
  intros Hit He Hlive. apply Z.ltb_lt in Hlive.
  rewrite execute_query_run, execute_query_try_split, cache_lookup_run, Hit, He.
  cbn [default from_option id]. rewrite Hlive. reflexivity.
Qed.

Lemma execute_query_select_run qid q p db ttl fr n w conn cur st1 rows st2 :
  is_select q = true -> is_metadata q = false ->
  fr = true \/ cache (query_cache w) !! Main.generate_cache_key q p db = None ->
  (get_db_connection E db (S n) w).1.1 = Ok conn ->
  execute E conn q (truthy p) (store (get_db_connection E db (S n) w).1.2)
    = (Ok cur, st1) ->
  fetchall E cur st1 = (Ok rows, st2) ->
  execute_query E clock qid q p db ttl fr n w =
    (Ok tt,
     {| query_cache :=
          stored (Main.generate_cache_key q p db)
            {| result := rows; timestamp := clock (S (S n)); hits := 1;
               last_hit_time := clock (S (S (S n))) |}
            (clock (S n) + default (default_ttl (query_cache w)) ttl)
            (if is_full (query_cache w) then without_lru (query_cache w)
             else query_cache w);
        query_results :=
          <[qid := completed (Some rows) false (clock (S (S (S (S n)))) - clock n)]>
            (query_results w);
        db_connections := db_connections (get_db_connection E db (S n) w).1.2;
        store := st2 |},
     S (S (S (S (S n))))).
Proof.
  intros Hsel Hmeta Hmiss Hconn Hexec Hfetch.
  assert (cache_lookup E clock qid (Main.generate_cache_key q p db) fr (S n) w
          = (Ok false, w, S n)) as Hlook.
  { rewrite cache_lookup_run. destruct Hmiss as [->|Hnone]; [reflexivity|].
    destruct fr; [reflexivity|]. rewrite Hnone. by rewrite with_query_cache_id. }
  destruct (get_db_connection_frame E db (S n) w) as (Hn & Hc & Hr).
  destruct (get_db_connection E db (S n) w) as [[r wc] n1] eqn:Hget.
  cbn [fst snd] in *. subst r n1.
  rewrite execute_query_run, execute_query_try_split, Hlook.
  unfold run_statement. unfold bind at 1. rewrite Hget.
  unfold bind at 1. unfold engine at 1. rewrite Hexec.
  rewrite Hsel. unfold bind at 1. unfold engine at 1.
  cbn [store with_store]. rewrite Hfetch. rewrite Hmeta. cbn [negb].
  unfold bind at 1. unfold bind at 1. rewrite on_cache_run, set_run.
  unfold bind, time_time, set_task, modify.
  unfold with_query_results, with_store, with_query_cache.
  cbn [query_cache query_results db_connections store].
  rewrite Hc, Hr. by destruct ttl.
Qed.

Lemma startswith_app s p p' :
  Py.startswith s (p +:+ p') = true -> Py.startswith s p = true.
Proof.
  revert s. induction p as [|a p IH]; intros s; [by destruct s|].
  change (String a p +:+ p') with (String a (p +:+ p')).
  destruct s as [|b s]; cbn; [done|]. destruct (Ascii.eqb a b); [apply IH | done].
Qed.

Lemma is_metadata_is_select q : is_metadata q = true -> is_select q = true.
Proof. unfold is_metadata, is_select. apply (startswith_app _ "SELECT" " SQLITE_"). Qed.

Lemma cleanup_run qid n w :
  cleanup E qid n w = (Ok tt, with_query_results E (delete qid) w, n).
Proof.
  unfold cleanup, modify, with_query_results. by rewrite del_if_in_delete.
Qed.

Lemma run_query_world qid req n w :
  (run_query E clock qid req n w).1.2 =
  (execute_query E clock qid (query req) (params req) (db_name req)
     (cache_ttl req) (force_refresh req) n
     (with_query_results E <[qid := pending]> w)).1.2.
Proof.
  rewrite run_query_run.
  destruct (execute_query E clock qid _ _ _ _ _ n _) as [[[[]|e] w'] n']; [|done].
  by destruct (query_results w' !! qid).
Qed.

(** X10. [execute_query] without [force_refresh], when the cache holds an
    entry under the fingerprint of the submission whose expiry is after the
    clock reading of the check: the task is written as completed with the
    cached rows, [cached = True] and an execution time of 0; the entry is
    counted as hit once more and becomes the most recently used; no
    connection is opened and the engine is not called, so the store and
    [db_connections] are as before. This holds for every statement, read
    or write. *)
Theorem execute_query_cache_hit qid q p db ttl n w it e :
  cache (query_cache w) !! Main.generate_cache_key q p db = Some it ->
  expiration_times (query_cache w) !! Main.generate_cache_key q p db = Some e ->
  clock (S (S n)) < e ->
  execute_query E clock qid q p db ttl false n w =
    (Ok tt,
     {| query_cache :=
          refreshed (Main.generate_cache_key q p db)
            {| result := result it; timestamp := timestamp it;
               hits := hits it + 1; last_hit_time := clock (S (S (S n))) |}
            (query_cache w);
        query_results :=
          <[qid := completed (Some (result it)) true 0]> (query_results w);
        db_connections := db_connections w;
        store := store w |},
     S (S (S (S n)))).
Proof. apply execute_query_hit_run. Qed.


(** X12. A metadata query, one whose stripped upper-case text starts with
    [SELECT SQLITE_], is executed like any other [SELECT] but its rows are
    not stored: the cache is exactly as before, the task is completed with
    the rows fetched and [cached = False]. *)
Theorem execute_query_metadata_not_cached qid q p db ttl fr n w conn cur st1 rows st2 :
  is_metadata q = true ->
  fr = true \/ cache (query_cache w) !! Main.generate_cache_key q p db = None ->
  (get_db_connection E db (S n) w).1.1 = Ok conn ->
  execute E conn q (truthy p) (store (get_db_connection E db (S n) w).1.2)
    = (Ok cur, st1) ->
  fetchall E cur st1 = (Ok rows, st2) ->
  execute_query E clock qid q p db ttl fr n w =
    (Ok tt,
     {| query_cache := query_cache w;
        query_results :=
          <[qid := completed (Some rows) false (clock (S n) - clock n)]>
            (query_results w);
        db_connections := db_connections (get_db_connection E db (S n) w).1.2;
        store := st2 |},
     S (S n)).
Proof.
  intros Hmeta Hmiss Hconn Hexec Hfetch.
  pose proof (is_metadata_is_select q Hmeta) as Hsel.
  assert (cache_lookup E clock qid (Main.generate_cache_key q p db) fr (S n) w
          = (Ok false, w, S n)) as Hlook.
  { rewrite cache_lookup_run. destruct Hmiss as [->|Hnone]; [reflexivity|].
    destruct fr; [reflexivity|]. rewrite Hnone. by rewrite with_query_cache_id. }
  destruct (get_db_connection_frame E db (S n) w) as (Hn & Hc & Hr).
  destruct (get_db_connection E db (S n) w) as [[r wc] n1] eqn:Hget.
  cbn [fst snd] in *. subst r n1.
  rewrite execute_query_run, execute_query_try_split, Hlook.
  unfold run_statement. unfold bind at 1. rewrite Hget.
  unfold bind at 1. unfold engine at 1. rewrite Hexec.
  rewrite Hsel. unfold bind at 1. unfold engine at 1.
  cbn [store with_store]. rewrite Hfetch. rewrite Hmeta. cbn [negb].
  unfold bind, ret, time_time, set_task, modify.
  unfold with_query_results, with_store.
  cbn [query_cache query_results db_connections store].
  by rewrite Hc, Hr.
Qed.

(** X13. A [SELECT] that was executed and cached is served from the cache
    to the next submission with the same fingerprint that arrives before
    the expiry and does not force a refresh: the second task is completed
    with the rows of the first and [cached = True], the engine is not called
    again (the store is as the first execution left it), the entry has
    [hits = 2], and its expiry is still the one of the first execution. *)
Theorem repeated_select_served_from_cache
    qid qid' q q' p p' db db' ttl ttl' fr n w conn cur st1 rows st2 :
  is_select q = true -> is_metadata q = false ->
  fr = true \/ cache (query_cache w) !! Main.generate_cache_key q p db = None ->
  (get_db_connection E db (S n) w).1.1 = Ok conn ->
  execute E conn q (truthy p) (store (get_db_connection E db (S n) w).1.2)
    = (Ok cur, st1) ->
  fetchall E cur st1 = (Ok rows, st2) ->
  Main.generate_cache_key q' p' db' = Main.generate_cache_key q p db ->
  clock (S (S (S (S (S (S (S n))))))) <
    clock (S n) + default (default_ttl (query_cache w)) ttl ->
  query_results
    (execute_query E clock qid' q' p' db' ttl' false (S (S (S (S (S n)))))
       (execute_query E clock qid q p db ttl fr n w).1.2).1.2 !! qid' =
    Some (completed (Some rows) true 0) /\
  store
    (execute_query E clock qid' q' p' db' ttl' false (S (S (S (S (S n)))))
       (execute_query E clock qid q p db ttl fr n w).1.2).1.2 = st2 /\
  hits <$> cache (query_cache
    (execute_query E clock qid' q' p' db' ttl' false (S (S (S (S (S n)))))
       (execute_query E clock qid q p db ttl fr n w).1.2).1.2)
    !! Main.generate_cache_key q p db = Some 2 /\
  expiration_times (query_cache
    (execute_query E clock qid' q' p' db' ttl' false (S (S (S (S (S n)))))
       (execute_query E clock qid q p db ttl fr n w).1.2).1.2)
    !! Main.generate_cache_key q p db =
    Some (clock (S n) + default (default_ttl (query_cache w)) ttl).
Proof.
  intros Hsel Hmeta Hmiss Hconn Hexec Hfetch Hkey Hlive.
  rewrite (execute_query_select_run qid q p db ttl fr n w conn cur st1 rows st2)
    by assumption.
  cbn [fst snd].
  rewrite (execute_query_hit_run qid' q' p' db' ttl' _ _
             {| result := rows; timestamp := clock (S (S n)); hits := 1;
                last_hit_time := clock (S (S (S n))) |}
             (clock (S n) + default (default_ttl (query_cache w)) ttl)).
  - cbn [fst snd query_results store query_cache]. rewrite lookup_insert_eq.
    split; [reflexivity|]. split; [reflexivity|].
    rewrite Hkey, refreshed_fields. cbn [cache expiration_times].
    rewrite lookup_insert_eq, stored_fields. cbn [expiration_times hits].
    rewrite lookup_insert_eq. split; reflexivity.
  - cbn [query_cache]. rewrite Hkey, stored_fields. cbn [cache].
    apply lookup_insert_eq.
  - cbn [query_cache]. rewrite Hkey, stored_fields. cbn [expiration_times].
    apply lookup_insert_eq.
  - exact Hlive.
Qed.

(** X14. [execute_query] for the submission [query_id] on the database
    [db_name], whatever the engine does and whether it succeeds or fails,
    writes the task of [query_id] only, registers no connection under
    another name, and never replaces a connection that is registered. *)
Theorem execute_query_footprint qid q p db ttl fr n w :
  (forall qid', qid' <> qid ->
     query_results (execute_query E clock qid q p db ttl fr n w).1.2 !! qid' =
     query_results w !! qid') /\
  (forall db', db' <> db ->
     db_connections (execute_query E clock qid q p db ttl fr n w).1.2 !! db' =
     db_connections w !! db') /\
  (forall h, db_connections w !! db = Some h ->
     db_connections (execute_query E clock qid q p db ttl fr n w).1.2 !! db = Some h).
Proof. apply execute_query_touches. Qed.


(** X15. The [cleanup] task that [run_query] schedules removes the task of
    its submission and nothing else: after [run_query] and then [cleanup],
    [query_results] is what it was before the submission without the entry
    of [query_id], a [get_query_status] for it raises [Query not found], and
    the cache and the store are as [run_query] left them. *)
Theorem cleanup_forgets_submission qid req n w :
  (cleanup E qid (run_query E clock qid req n w).2
     (run_query E clock qid req n w).1.2).1.1 = Ok tt /\
  query_results
    (cleanup E qid (run_query E clock qid req n w).2
       (run_query E clock qid req n w).1.2).1.2 = delete qid (query_results w) /\
  (get_query_status E qid (run_query E clock qid req n w).2
     (cleanup E qid (run_query E clock qid req n w).2
        (run_query E clock qid req n w).1.2).1.2).1.1 = Raise "Query not found" /\
  query_cache
    (cleanup E qid (run_query E clock qid req n w).2
       (run_query E clock qid req n w).1.2).1.2 =
    query_cache (run_query E clock qid req n w).1.2 /\
  store
    (cleanup E qid (run_query E clock qid req n w).2
       (run_query E clock qid req n w).1.2).1.2 =
    store (run_query E clock qid req n w).1.2.
Proof.
  rewrite cleanup_run. cbn [fst snd query_results with_query_results query_cache store].
  split; [done|].
  assert (delete qid (query_results (run_query E clock qid req n w).1.2) =
          delete qid (query_results w)) as Hdel.
  { apply map_eq. intros k. destruct (decide (k = qid)) as [->|Hne].
    - by rewrite !lookup_delete_eq.
    - rewrite !lookup_delete_ne by done. rewrite run_query_world.
      destruct (execute_query_touches qid (query req) (params req) (db_name req)
                  (cache_ttl req) (force_refresh req) n
                  (with_query_results E <[qid := pending]> w)) as (Hq & _).
      rewrite Hq by done. cbn. by rewrite lookup_insert_ne. }
  split; [exact Hdel|]. split; [|done].
  rewrite get_query_status_run. cbn [query_results with_query_results].
  by rewrite lookup_delete_eq.
Qed.

End MainMore.

(** ** Connections, extensions and databases *)

Section RegistryFacts.
Import Registry.
Variable E : Sqlean.
Variable H : Host.
Variable dirs : Dirs.
Implicit Type w : World E.

Lemma bind_run {St A B} (m : M St A) (k : A -> M St B) n s a s' n' :
  m n s = (Ok a, s', n') -> bind m k n s = k a n' s'.
Proof. intros Hm. unfold bind. by rewrite Hm. Qed.

Lemma get_db_connection_with_registered load db le n w h :
  db_connections w !! db = Some h ->
  get_db_connection_with E H dirs load db le n w = (Ok h, w, n).
Proof.
  intros Hdb. unfold get_db_connection_with, bind, gets. rewrite Hdb. cbn. by rewrite Hdb.
Qed.

(** The creation of a connection, call by call. *)
Lemma get_db_connection_with_creates load db le n w :
  db_connections w !! db = None ->
  get_db_connection_with E H dirs load db le n w =
  match enable_all E (store w) with
  | (Raise e, s1) => (Raise e, with_store E s1 w, n)
  | (Ok _, s1) =>
    match connect E (path_join (DB_DIR dirs) (db +:+ ".db")) s1 with
    | (Raise e, s2) => (Raise e, with_store E s2 w, n)
    | (Ok conn, s2) =>
      match enable_load_extension E conn true s2 with
      | (Raise e, s3) => (Raise e, with_store E s3 w, n)
      | (Ok _, s3) =>
        match (if le then load db else ret tt) n (with_store E s3 w) with
        | (Raise e, w4, n4) => (Raise e, w4, n4)
        | (Ok _, w4, n4) =>
          match execute E conn "PRAGMA journal_mode=WAL" (store w4) with
          | (Raise e, s5) => (Raise e, with_store E s5 w4, n4)
          | (Ok _, s5) =>
              (Ok conn,
               {| db_connections := <[db := conn]> (db_connections w4);
                  db_extensions := <[db := listed_extensions H dirs]> (db_extensions w4);
                  store := s5 |},
               n4)
          end
        end
      end
    end
  end.
Proof.
  intros Hdb. unfold get_db_connection_with. unfold bind at 1. unfold gets at 1.
  cbv beta iota. rewrite Hdb. unfold bind at 1. unfold bind at 1. unfold engine at 1.
  destruct (enable_all E (store w)) as [[[]|e] s1]; [|reflexivity].
  unfold bind at 1. unfold engine at 1. cbn [store with_store].
  destruct (connect E _ s1) as [[conn|e] s2]; [|reflexivity].
  unfold bind at 1. unfold engine at 1. cbn [store with_store].
  destruct (enable_load_extension E conn true s2) as [[[]|e] s3]; [|reflexivity].
  unfold bind at 1.
  change (with_store E s3 (with_store E s2 (with_store E s1 w))) with (with_store E s3 w).
  destruct ((if le then load db else ret tt) n (with_store E s3 w))
    as [[[[]|e] w4] n4]; [|reflexivity].
  unfold bind at 1. unfold engine at 1.
  destruct (execute E conn _ (store w4)) as [[[]|e] s5]; [|reflexivity].
  unfold bind, modify, gets. cbn [db_connections with_db_connections with_db_extensions
    with_store]. rewrite lookup_insert_eq. reflexivity.
Qed.


Lemma with_db_extensions_note db name w :
  with_db_extensions E (note_loaded db name) w =
  (if Py.contains name (default [] (db_extensions w !! db)) then w
   else with_db_extensions E
          (<[db := (default [] (db_extensions w !! db) ++ [name])%list]>) w).
Proof.
  unfold note_loaded, with_db_extensions.
  destruct (Py.contains name (default [] (db_extensions w !! db))); [by destruct w | done].
Qed.

(** [load_extension] on a database whose connection is registered. *)
Lemma load_extension_registered db name entry n w h :
  db_connections w !! db = Some h ->
  load_extension E H dirs db name entry n w =
  match conn_load_extension E h (path_join (EXTENSIONS_DIR dirs) name) (truthy entry)
          (store w) with
  | (Ok _, s) =>
      (Ok true, with_db_extensions E (note_loaded db name) (with_store E s w), n)
  | (Raise e, s) =>
      (Raise ("Error loading extension '" +:+ name +:+ "': " +:+ e), with_store E s w, n)
  end.
Proof.
  intros Hdb. unfold load_extension. unfold bind at 1.
  rewrite (get_db_connection_with_registered _ db false n w h Hdb).
  unfold try_except. unfold bind at 1. unfold engine at 1.
  destruct (conn_load_extension E h _ (truthy entry) (store w)) as [[[]|e] s];
    [|reflexivity].
  rewrite with_db_extensions_note. cbn [db_extensions with_store].
  unfold bind at 1. unfold gets at 1. cbv beta iota. cbn [db_extensions with_store].
  destruct (Py.contains name (default [] (db_extensions w !! db))) eqn:Hin;
    cbn [negb]; [reflexivity|].
  unfold bind, ret, modify. destruct (db_extensions w !! db) as [l|] eqn:Hl.
  - unfold with_db_extensions. cbn [db_extensions with_store]. by rewrite Hl.
  - unfold with_db_extensions. cbn [db_extensions with_store default from_option id].
    by rewrite lookup_insert_eq, insert_insert_eq.
Qed.

Lemma load_extension_registered_default db name n w h :
  db_connections w !! db = Some h ->
  load_extension E H dirs db name None n w =
  match conn_load_extension E h (path_join (EXTENSIONS_DIR dirs) name) None (store w) with
  | (Ok _, s) => (Ok true, load_step E dirs db h w name, n)
  | (Raise e, s) =>
      (Raise ("Error loading extension '" +:+ name +:+ "': " +:+ e),
       load_step E dirs db h w name, n)
  end.
Proof.
  intros Hdb. rewrite (load_extension_registered db name None n w h Hdb).
  unfold load_step. cbn [truthy].
  by destruct (conn_load_extension E h _ None (store w)) as [[[]|e] s].
Qed.

Lemma load_step_db_connections db h w name :
  db_connections (load_step E dirs db h w name) = db_connections w.
Proof.
  unfold load_step. by destruct (conn_load_extension E h _ None (store w)) as [[[]|e] s].
Qed.

Lemma load_step_store db h w name :
  store (load_step E dirs db h w name) =
  (conn_load_extension E h (path_join (EXTENSIONS_DIR dirs) name) None (store w)).2.
Proof.
  unfold load_step. by destruct (conn_load_extension E h _ None (store w)) as [[[]|e] s].
Qed.

Lemma note_loaded_elsewhere db name exts db' :
  db' <> db -> note_loaded db name exts !! db' = exts !! db'.
Proof.
  intros Hne. unfold note_loaded. destruct (Py.contains _ _); [done|].
  by rewrite lookup_insert_ne.
Qed.

Lemma load_step_db_extensions db h w name db' :
  db' <> db ->
  db_extensions (load_step E dirs db h w name) !! db' = db_extensions w !! db'.
Proof.
  intros Hne. unfold load_step.
  destruct (conn_load_extension E h _ None (store w)) as [[[]|e] s]; [|done].
  cbn [db_extensions with_db_extensions with_store]. by apply note_loaded_elsewhere.
Qed.

Lemma fold_load_step_db_connections db h names : forall w,
  db_connections (fold_left (load_step E dirs db h) names w) = db_connections w.
Proof.
  induction names as [|x names IH]; intros w; [done|].
  cbn [fold_left]. by rewrite IH, load_step_db_connections.
Qed.

Lemma fold_load_step_db_extensions db h names db' : forall w,
  db' <> db ->
  db_extensions (fold_left (load_step E dirs db h) names w) !! db' =
  db_extensions w !! db'.
Proof.
  induction names as [|x names IH]; intros w Hne; [done|].
  cbn [fold_left]. by rewrite IH, load_step_db_extensions.
Qed.

Lemma fold_load_step_store db h names : forall w,
  store (fold_left (load_step E dirs db h) names w) = loads E dirs h names (store w).
Proof.
  unfold loads. induction names as [|x names IH]; intros w; [done|].
  cbn [fold_left]. by rewrite IH, load_step_store.
Qed.

(** The loop of [load_all_extensions] from a state in which the connection
    of the database is registered. *)
Lemma load_loop_registered db h exts : forall n w,
  db_connections w !! db = Some h ->
  for_each exts
    (fun ext =>
       try_except
         (load_extension E H dirs db (splitext_root (name ext)) None >> ret tt)
         (fun e => ret tt)) n w =
  (Ok tt,
   fold_left (load_step E dirs db h)
     (map (fun ext => splitext_root (name ext)) exts) w,
   n).
Proof.
  induction exts as [|ext exts IH]; intros n w Hdb; [reflexivity|].
  cbn [for_each map fold_left]. unfold bind at 1. unfold try_except at 1.
  unfold bind at 1.
  rewrite (load_extension_registered_default db _ n w h Hdb).
  destruct (conn_load_extension E h _ None (store w)) as [[[]|e] s] eqn:Hload;
    cbv beta iota; unfold ret at 1; cbv beta iota;
    apply IH; by rewrite load_step_db_connections.
Qed.

Lemma load_all_extensions_registered db h n w :
  db_connections w !! db = Some h ->
  load_all_extensions E H dirs db n w =
  (Ok tt, fold_left (load_step E dirs db h) (extension_roots H dirs) w, n).
Proof. intros Hdb. unfold load_all_extensions. by apply load_loop_registered. Qed.


Lemma same_elsewhere_refl db w : same_elsewhere db w w.
Proof. by intros db' Hne. Qed.

Lemma same_elsewhere_trans db w1 w2 w3 :
  same_elsewhere db w1 w2 -> same_elsewhere db w2 w3 -> same_elsewhere db w1 w3.
Proof.
  intros H12 H23 db' Hne. destruct (H12 db' Hne) as [A1 B1].
  destruct (H23 db' Hne) as [A2 B2]. split; congruence.
Qed.

Lemma same_elsewhere_store db s w : same_elsewhere db w (with_store E s w).
Proof. by intros db' Hne. Qed.

Lemma same_elsewhere_load_step db h w name :
  same_elsewhere db w (load_step E dirs db h w name).
Proof.
  intros db' Hne. by rewrite load_step_db_connections, load_step_db_extensions.
Qed.

Lemma get_db_connection_with_elsewhere load db le n w :
  (forall n w, same_elsewhere db w (load db n w).1.2) ->
  same_elsewhere db w (get_db_connection_with E H dirs load db le n w).1.2.
Proof.
  intros Hload. destruct (db_connections w !! db) as [h|] eqn:Hdb.
  - rewrite (get_db_connection_with_registered load db le n w h Hdb).
    apply same_elsewhere_refl.
  - rewrite (get_db_connection_with_creates load db le n w Hdb).
    destruct (enable_all E (store w)) as [[[]|e] s1]; [|apply same_elsewhere_store].
    destruct (connect E _ s1) as [[conn|e] s2]; [|apply same_elsewhere_store].
    destruct (enable_load_extension E conn true s2) as [[[]|e] s3];
      [|apply same_elsewhere_store].
    assert (forall w4, same_elsewhere db w w4 ->
              same_elsewhere db w
                (match execute E conn "PRAGMA journal_mode=WAL" (store w4) with
                 | (Ok _, s5) =>
                     (Ok conn,
                      {| db_connections := <[db := conn]> (db_connections w4);
                         db_extensions :=
                           <[db := listed_extensions H dirs]> (db_extensions w4);
                         store := s5 |},
                      n)
                 | (Raise e, s5) => (Raise e, with_store E s5 w4, n)
                 end).1.2) as Hlast.
    { intros w4 Hstep.
      destruct (execute E conn _ (store w4)) as [[[]|e] s5]; cbn [fst snd].
      - intros db' Hne. destruct (Hstep db' Hne) as [A B].
        cbn [db_connections db_extensions]. by rewrite !lookup_insert_ne.
      - eapply same_elsewhere_trans; [exact Hstep | apply same_elsewhere_store]. }
    destruct le.
    + pose proof (Hload n (with_store E s3 w)) as Hstep.
      destruct (load db n (with_store E s3 w)) as [[[[]|e] w4] n4];
        cbn [fst snd] in Hstep.
      * destruct (execute E conn _ (store w4)) as [[[]|e] s5]; cbn [fst snd].
        -- intros db' Hne. destruct (Hstep db' Hne) as [A B].
           cbn [db_connections db_extensions]. by rewrite !lookup_insert_ne.
        -- eapply same_elsewhere_trans; [exact Hstep | apply same_elsewhere_store].
      * exact Hstep.
    + unfold ret at 1. cbv beta iota. apply Hlast. apply same_elsewhere_store.
Qed.

Lemma load_extension_elsewhere db name entry n w :
  same_elsewhere db w (load_extension E H dirs db name entry n w).1.2.
Proof.
  unfold load_extension. unfold bind at 1.
  pose proof (get_db_connection_with_elsewhere (fun _ => ret tt) db false n w
                (fun n w => same_elsewhere_refl db w)) as Hconn.
  destruct (get_db_connection_with E H dirs (fun _ => ret tt) db false n w)
    as [[[conn|e] w1] n1]; cbn [fst snd] in Hconn; [|exact Hconn].
  eapply same_elsewhere_trans; [exact Hconn|]. clear Hconn.
  unfold try_except. unfold bind at 1. unfold engine at 1.
  destruct (conn_load_extension E conn _ (truthy entry) (store w1)) as [[[]|e] s];
    cbn [fst snd]; [|apply same_elsewhere_store].
  eapply same_elsewhere_trans; [apply (same_elsewhere_store db s)|].
  unfold bind at 1. unfold gets at 1. cbv beta iota.
  destruct (negb _); [|apply same_elsewhere_refl].
  unfold bind, ret, modify.
  destruct (db_extensions (with_store E s w1) !! db); cbn [fst snd];
    intros db' Hne; cbn [db_connections db_extensions with_db_extensions with_store];
    by rewrite ?lookup_insert_ne.
Qed.

Lemma load_iteration_returns db extension_name n w :
  exists w1 n1,
    try_except (load_extension E H dirs db extension_name None >> ret tt)
      (fun e => ret tt) n w = (Ok tt, w1, n1) /\
    same_elsewhere db w w1.
Proof.
  pose proof (load_extension_elsewhere db extension_name None n w) as Hone.
  unfold try_except, bind.
  destruct (load_extension E H dirs db extension_name None n w) as [[[b|e] w1] n1];
    cbn [fst snd] in Hone; by eexists _, _.
Qed.

Lemma load_loop_returns db exts : forall n w,
  (for_each exts
     (fun ext =>
        try_except
          (load_extension E H dirs db (splitext_root (name ext)) None >> ret tt)
          (fun e => ret tt)) n w).1.1 = Ok tt /\
  same_elsewhere db w
    (for_each exts
       (fun ext =>
          try_except
            (load_extension E H dirs db (splitext_root (name ext)) None >> ret tt)
            (fun e => ret tt)) n w).1.2.
Proof.
  induction exts as [|ext exts IH]; intros n w.
  - split; [reflexivity | apply same_elsewhere_refl].
  - destruct (load_iteration_returns db (splitext_root (name ext)) n w)
      as (w1 & n1 & Hiter & Hone).
    assert (forall body : Extension -> M (World E) unit,
              body ext n w = (Ok tt, w1, n1) ->
              for_each (ext :: exts) body n w = for_each exts body n1 w1) as Hcons.
    { intros body Hb. cbn [for_each]. unfold bind at 1. by rewrite Hb. }
    rewrite (Hcons _ Hiter).
    split; [apply IH|]. eapply same_elsewhere_trans; [exact Hone | apply IH].
Qed.

Lemma load_all_extensions_elsewhere db n w :
  same_elsewhere db w (load_all_extensions E H dirs db n w).1.2.
Proof. apply load_loop_returns. Qed.

(** X16. [load_all_extensions(db_name)] returns normally whatever the
    engine does: every exception of [load_extension] is caught. It leaves
    the connections and the extension lists of all other databases as they
    are. When the connection of [db_name] is registered, it registers no
    other, and the engine is asked to load each discovered extension, named
    without its suffix, into that connection, a failure not stopping the
    calls that follow. *)
Theorem load_all_extensions_never_raises db n w :
  (load_all_extensions E H dirs db n w).1.1 = Ok tt /\
  (forall db', db' <> db ->
     db_connections (load_all_extensions E H dirs db n w).1.2 !! db' =
       db_connections w !! db' /\
     db_extensions (load_all_extensions E H dirs db n w).1.2 !! db' =
       db_extensions w !! db') /\
  (forall h, db_connections w !! db = Some h ->
     db_connections (load_all_extensions E H dirs db n w).1.2 = db_connections w /\
     store (load_all_extensions E H dirs db n w).1.2 =
       loads E dirs h (extension_roots H dirs) (store w)).
Proof.
  split; [apply load_loop_returns|]. split; [apply load_all_extensions_elsewhere|].
  intros h Hdb. rewrite (load_all_extensions_registered db h n w Hdb). cbn [fst snd].
  by rewrite fold_load_step_db_connections, fold_load_step_store.
Qed.

(** X17. When [get_db_connection(db_name, load_extensions)] returns a
    connection, that connection is the one registered for [db_name]
    afterwards, and every later call, with either flag, returns it again
    without calling the engine or changing anything. A call for a database
    whose connection is registered changes nothing; a call that creates the
    connection sets the list of [db_name] in [db_extensions] to the names
    of the extensions directory that end with the text of the pattern. The
    connections and lists of all other databases are left as they are. *)
Theorem get_db_connection_registers db le n w h :
  (get_db_connection E H dirs db le n w).1.1 = Ok h ->
  db_connections (get_db_connection E H dirs db le n w).1.2 !! db = Some h /\
  (forall le' n',
     get_db_connection E H dirs db le' n' (get_db_connection E H dirs db le n w).1.2 =
     (Ok h, (get_db_connection E H dirs db le n w).1.2, n')) /\
  (forall db', db' <> db ->
     db_connections (get_db_connection E H dirs db le n w).1.2 !! db' =
       db_connections w !! db' /\
     db_extensions (get_db_connection E H dirs db le n w).1.2 !! db' =
       db_extensions w !! db') /\
  (db_connections w !! db = None ->
     db_extensions (get_db_connection E H dirs db le n w).1.2 !! db =
       Some (listed_extensions H dirs)) /\
  (is_Some (db_connections w !! db) ->
     get_db_connection E H dirs db le n w = (Ok h, w, n)).
Proof.
  intros Hok.
  assert (db_connections (get_db_connection E H dirs db le n w).1.2 !! db = Some h /\
          (db_connections w !! db = None ->
           db_extensions (get_db_connection E H dirs db le n w).1.2 !! db =
             Some (listed_extensions H dirs)) /\
          (is_Some (db_connections w !! db) ->
           get_db_connection E H dirs db le n w = (Ok h, w, n))) as (Hreg & Hlist & Hsame).
  { revert Hok. unfold get_db_connection.
    destruct (db_connections w !! db) as [h0|] eqn:Hdb.
    - rewrite (get_db_connection_with_registered _ db le n w h0 Hdb). cbn [fst snd].
      intros [= ->]. split; [exact Hdb|]. split; [done|]. done.
    - rewrite (get_db_connection_with_creates _ db le n w Hdb).
      destruct (enable_all E (store w)) as [[[]|e] s1]; [|intros [=]].
      destruct (connect E _ s1) as [[conn|e] s2]; [|intros [=]].
      destruct (enable_load_extension E conn true s2) as [[[]|e] s3]; [|intros [=]].
      destruct ((if le then load_all_extensions E H dirs db else ret tt) n
                  (with_store E s3 w)) as [[[[]|e] w4] n4]; [|intros [=]].
      destruct (execute E conn _ (store w4)) as [[[]|e] s5]; [|intros [=]].
      cbn [fst snd db_connections db_extensions]. intros [= ->].
      rewrite !lookup_insert_eq. split; [done|]. split; [done|].
      intros [x Hx]. discriminate Hx. }
  split; [exact Hreg|]. split.
  - intros le' n'. by apply get_db_connection_with_registered.
  - split; [|split; [exact Hlist | exact Hsame]].
    apply get_db_connection_with_elsewhere. intros n0 w0.
    apply load_all_extensions_elsewhere.
Qed.


(** [load_extension] on a database without a connection creates one, and
    goes on as from the state with that connection registered. *)
Lemma load_extension_creates db extension_name entry n w s4 h2 s5 s6 s7 :
  db_connections w !! db = None ->
  enable_all E (store w) = (Ok tt, s4) ->
  connect E (path_join (DB_DIR dirs) (db +:+ ".db")) s4 = (Ok h2, s5) ->
  enable_load_extension E h2 true s5 = (Ok tt, s6) ->
  execute E h2 "PRAGMA journal_mode=WAL" s6 = (Ok tt, s7) ->
  load_extension E H dirs db extension_name entry n w =
  load_extension E H dirs db extension_name entry n
    {| db_connections := <[db := h2]> (db_connections w);
       db_extensions := <[db := listed_extensions H dirs]> (db_extensions w);
       store := s7 |}.
Proof.
  intros Hdb H4 H5 H6 H7.
  set (wn := {| db_connections := <[db := h2]> (db_connections w);
                db_extensions := <[db := listed_extensions H dirs]> (db_extensions w);
                store := s7 |}).
  assert (get_db_connection_with E H dirs (fun _ => ret tt) db false n w =
          (Ok h2, wn, n)) as A.
  { rewrite (get_db_connection_with_creates _ db false n w Hdb), H4, H5, H6.
    unfold ret at 1. cbv beta iota. cbn [store with_store]. by rewrite H7. }
  assert (get_db_connection_with E H dirs (fun _ => ret tt) db false n wn =
          (Ok h2, wn, n)) as B.
  { apply get_db_connection_with_registered. cbn [db_connections wn].
    apply lookup_insert_eq. }
  unfold load_extension.
  rewrite (bind_run _ _ n w h2 wn n A), (bind_run _ _ n wn h2 wn n B). reflexivity.
Qed.

Lemma load_all_extensions_creates db n w s4 h2 s5 s6 s7 :
  db_connections w !! db = None ->
  discover_extensions H dirs <> [] ->
  enable_all E (store w) = (Ok tt, s4) ->
  connect E (path_join (DB_DIR dirs) (db +:+ ".db")) s4 = (Ok h2, s5) ->
  enable_load_extension E h2 true s5 = (Ok tt, s6) ->
  execute E h2 "PRAGMA journal_mode=WAL" s6 = (Ok tt, s7) ->
  load_all_extensions E H dirs db n w =
  (Ok tt,
   fold_left (load_step E dirs db h2) (extension_roots H dirs)
     {| db_connections := <[db := h2]> (db_connections w);
        db_extensions := <[db := listed_extensions H dirs]> (db_extensions w);
        store := s7 |},
   n).
Proof.
  intros Hdb Hne H4 H5 H6 H7.
  rewrite <- (load_all_extensions_registered db h2 n)
    by (cbn [db_connections]; apply lookup_insert_eq).
  unfold load_all_extensions. destruct (discover_extensions H dirs) as [|ext exts]; [done|].
  cbn [for_each]. unfold bind at 1 4. unfold try_except at 1 3. unfold bind at 1 3.
  by rewrite (load_extension_creates db _ None n w s4 h2 s5 s6 s7).
Qed.

(** X18. The creation of a connection with [load_extensions=True], when
    an extension is discovered and the engine calls succeed. The
    [load_extension] of the first extension finds no connection registered
    for [db_name], since the one being created is registered only after the
    extensions are loaded, and creates and registers a second one, [h2];
    every discovered extension is loaded into [h2]. Then the first
    connection [h1], into which nothing was loaded, is switched to WAL mode,
    registered in the place of [h2] and returned, and the list of [db_name]
    in [db_extensions] is set to the listing of the directory, the names
    noted by [load_extension] being dropped. *)
Theorem get_db_connection_loads_into_replaced_connection
    db n w s1 h1 s2 s3 s4 h2 s5 s6 s7 s8 :
  db_connections w !! db = None ->
  discover_extensions H dirs <> [] ->
  enable_all E (store w) = (Ok tt, s1) ->
  connect E (path_join (DB_DIR dirs) (db +:+ ".db")) s1 = (Ok h1, s2) ->
  enable_load_extension E h1 true s2 = (Ok tt, s3) ->
  enable_all E s3 = (Ok tt, s4) ->
  connect E (path_join (DB_DIR dirs) (db +:+ ".db")) s4 = (Ok h2, s5) ->
  enable_load_extension E h2 true s5 = (Ok tt, s6) ->
  execute E h2 "PRAGMA journal_mode=WAL" s6 = (Ok tt, s7) ->
  execute E h1 "PRAGMA journal_mode=WAL"
    (loads E dirs h2 (extension_roots H dirs) s7) = (Ok tt, s8) ->
  get_db_connection E H dirs db true n w =
    (Ok h1,
     {| db_connections := <[db := h1]> (db_connections w);
        db_extensions := <[db := listed_extensions H dirs]> (db_extensions w);
        store := s8 |},
     n).
Proof.
  intros Hdb Hne H1 H2 H3 H4 H5 H6 H7 H8. unfold get_db_connection.
  rewrite (get_db_connection_with_creates _ db true n w Hdb), H1, H2, H3.
  rewrite (load_all_extensions_creates db n (with_store E s3 w) s4 h2 s5 s6 s7)
    by assumption.
  rewrite fold_load_step_store. cbn [store db_connections db_extensions with_store].
  rewrite H8. rewrite fold_load_step_db_connections.
  cbn [db_connections]. rewrite insert_insert_eq. do 2 f_equal. f_equal.
  apply map_eq. intros db'. destruct (decide (db' = db)) as [->|Hdb'].
  - by rewrite !lookup_insert_eq.
  - rewrite !lookup_insert_ne by done.
    rewrite fold_load_step_db_extensions by done.
    cbn [db_extensions]. by rewrite lookup_insert_ne.
Qed.

Lemma note_loaded_lookup db extension_name exts :
  note_loaded db extension_name exts !! db =
  Some (if Py.contains extension_name (default [] (exts !! db))
        then default [] (exts !! db)
        else (default [] (exts !! db) ++ [extension_name])%list).
Proof.
  unfold note_loaded.
  destruct (Py.contains extension_name (default [] (exts !! db))) eqn:Hin.
  - destruct (exts !! db) as [l|]; [done|]. cbn in Hin. discriminate Hin.
  - by rewrite lookup_insert_eq.
Qed.

Lemma contains_app_r x l : Py.contains x (l ++ [x]) = true.
Proof. apply contains_elem_of. apply elem_of_app. right. by apply list_elem_of_singleton. Qed.

Lemma note_loaded_idem db extension_name exts :
  note_loaded db extension_name (note_loaded db extension_name exts) =
  note_loaded db extension_name exts.
Proof.
  unfold note_loaded at 1. rewrite note_loaded_lookup. cbn [default from_option id].
  destruct (Py.contains extension_name (default [] (exts !! db))) eqn:Hin.
  - by rewrite Hin.
  - by rewrite contains_app_r.
Qed.

(** X19. [load_extension] for a database whose connection is registered,
    when the engine loads the extension: the call returns [True] and the
    name is in the list of the database afterwards, appended if it was not
    there; a second call loads the extension again and returns [True], and
    leaves [db_extensions] as the first left it, so that no name is listed
    twice. [get_db_extensions] then answers with that list. *)
Theorem load_extension_notes_once db extension_name entry n w h s1 s2 :
  db_connections w !! db = Some h ->
  conn_load_extension E h (path_join (EXTENSIONS_DIR dirs) extension_name)
    (truthy entry) (store w) = (Ok tt, s1) ->
  conn_load_extension E h (path_join (EXTENSIONS_DIR dirs) extension_name)
    (truthy entry) s1 = (Ok tt, s2) ->
  returned (load_extension E H dirs db extension_name entry n w) = Some true /\
  db_extensions (load_extension E H dirs db extension_name entry n w).1.2 !! db =
    Some (if Py.contains extension_name (default [] (db_extensions w !! db))
          then default [] (db_extensions w !! db)
          else (default [] (db_extensions w !! db) ++ [extension_name])%list) /\
  returned
    (load_extension E H dirs db extension_name entry n
       (load_extension E H dirs db extension_name entry n w).1.2) = Some true /\
  db_extensions
    (load_extension E H dirs db extension_name entry n
       (load_extension E H dirs db extension_name entry n w).1.2).1.2 =
  db_extensions (load_extension E H dirs db extension_name entry n w).1.2 /\
  get_db_extensions E db n
    (load_extension E H dirs db extension_name entry n w).1.2 =
    (Ok (db,
         if Py.contains extension_name (default [] (db_extensions w !! db))
         then default [] (db_extensions w !! db)
         else (default [] (db_extensions w !! db) ++ [extension_name])%list),
     (load_extension E H dirs db extension_name entry n w).1.2, n).
Proof.
  intros Hdb Hl1 Hl2.
  rewrite (load_extension_registered db extension_name entry n w h Hdb), Hl1.
  cbn [returned fst snd]. split; [done|].
  rewrite (load_extension_registered db extension_name entry n _ h)
    by (cbn [db_connections with_db_extensions with_store]; exact Hdb).
  cbn [store with_db_extensions with_store]. rewrite Hl2.
  cbn [returned fst snd db_extensions with_db_extensions with_store].
  rewrite note_loaded_idem. split; [apply note_loaded_lookup|]. split; [done|].
  split; [done|]. unfold get_db_extensions, bind, gets.
  cbn [db_extensions with_db_extensions with_store]. by rewrite note_loaded_lookup.
Qed.

Lemma all_alnum_no_sep s : all_alnum s = true -> has_sep s = false.
Proof.
  induction s as [|c s IH]; [done|]. cbn [all_alnum has_sep].
  intros (Hc & Hs)%andb_prop. rewrite (IH Hs), orb_false_r.
  destruct c as [[] [] [] [] [] [] [] []]; try reflexivity; discriminate Hc.
Qed.

Lemma has_sep_app s t : has_sep (s +:+ t) = has_sep s || has_sep t.
Proof.
  induction s as [|c s IH]; [done|].
  change (String c s +:+ t) with (String c (s +:+ t)). cbn [has_sep].
  by rewrite IH, orb_assoc.
Qed.

Lemma basename_no_sep f : has_sep f = false -> basename f = f.
Proof. destruct f as [|c f]; [done|]. unfold basename. by intros ->. Qed.

Lemma basename_after_sep d f : has_sep f = false -> basename (d +:+ "/" +:+ f) = f.
Proof.
  intros Hf. induction d as [|c d IH].
  - change (EmptyString +:+ "/" +:+ f) with (String "/" f). cbn [basename has_sep].
    change (Ascii.eqb "/" "/") with true. cbn [orb]. by apply basename_no_sep.
  - change (String c d +:+ "/" +:+ f) with (String c (d +:+ "/" +:+ f)).
    cbn [basename]. replace (has_sep (String c (d +:+ "/" +:+ f))) with true; [exact IH|].
    cbn [has_sep]. rewrite !has_sep_app. cbn [has_sep].
    change (Ascii.eqb "/" "/") with true. by rewrite !orb_true_r.
Qed.

Lemma endswith_sep d : endswith d "/" = true -> exists d', d = d' +:+ "/".
Proof.
  induction d as [|c d IH]; [done|]. cbn [endswith].
  intros [Heq|Hend]%orb_prop.
  - apply String.eqb_eq in Heq. exists EmptyString. by rewrite Heq.
  - destruct (IH Hend) as [d' ->]. by exists (String c d').
Qed.

Lemma startswith_sep f : has_sep f = false -> Py.startswith f "/" = false.
Proof.
  destruct f as [|c f]; [done|]. cbn [has_sep Py.startswith].
  intros (Hc & _)%orb_false_elim. rewrite Ascii.eqb_sym. by rewrite Hc.
Qed.

(** A file name without a separator joined to a directory names a file of
    that directory. *)
Lemma basename_path_join d f : has_sep f = false -> basename (path_join d f) = f.
Proof.
  intros Hf. unfold path_join. rewrite (startswith_sep f Hf).
  destruct (String.eqb d EmptyString) eqn:Hd.
  - apply String.eqb_eq in Hd as ->. by apply basename_no_sep.
  - cbn [orb]. destruct (endswith d "/") eqn:Hend.
    + destruct (endswith_sep d Hend) as [d' ->].
      replace ((d' +:+ "/") +:+ f) with (d' +:+ "/" +:+ f).
      * by apply basename_after_sep.
      * clear. induction d' as [|c d' IH]; [done|].
        change (String c d' +:+ "/" +:+ f) with (String c (d' +:+ "/" +:+ f)).
        change ((String c d' +:+ "/") +:+ f) with (String c ((d' +:+ "/") +:+ f)).
        by rewrite IH.
    + by apply basename_after_sep.
Qed.

Lemma keeps_registry_engine {A} (f : Store E -> outcome A * Store E) :
  keeps_registry (engine E f).
Proof. intros n w. unfold engine. by destruct (f (store w)) as [r s]. Qed.

Lemma keeps_registry_bind {A B} (m : M (World E) A) (k : A -> M (World E) B) :
  keeps_registry m -> (forall a, keeps_registry (k a)) -> keeps_registry (bind m k).
Proof.
  intros Hm Hk n w. unfold bind. destruct (Hm n w) as [A1 A2].
  destruct (m n w) as [[[a|e] w1] n1]; cbn [fst snd] in *; [|done].
  destruct (Hk a n1 w1) as [B1 B2]. split; congruence.
Qed.

Lemma init_db_registry db : keeps_registry (init_db E dirs db).
Proof.
  unfold init_db.
  repeat (apply keeps_registry_bind; [apply keeps_registry_engine | intros ?]).
  apply keeps_registry_engine.
Qed.

(** X20. [create_database] either rejects the name, raising before it
    touches the engine and leaving the state as it is, or the name is not
    empty and made of letters and digits only, so that it holds no path
    separator and the file [init_db] connects to, [<name>.db] joined to
    [DB_DIR], is a file of that directory; the response is then the message
    of success, or the failure of [init_db] raised again with the prefix
    [Error creating database: ]. In neither case is a connection registered
    or a list of extensions changed. *)
Theorem create_database_guards_the_path db n w :
  (create_database E dirs db n w =
     (Raise "Database name must contain only letters and numbers", w, n) \/
   (db <> EmptyString /\ all_alnum db = true /\ has_sep db = false /\
    basename (path_join (DB_DIR dirs) (db +:+ ".db")) = db +:+ ".db" /\
    create_database E dirs db n w =
      match init_db E dirs db n w with
      | (Ok _, w', n') => (Ok ("Database '" +:+ db +:+ "' created successfully"), w', n')
      | (Raise e, w', n') => (Raise ("Error creating database: " +:+ e), w', n')
      end)) /\
  db_connections (create_database E dirs db n w).1.2 = db_connections w /\
  db_extensions (create_database E dirs db n w).1.2 = db_extensions w.
Proof.
  unfold create_database. destruct (isalnum db) eqn:Hname; cbn [negb].
  - split.
    + right. destruct db as [|c db]; [discriminate Hname|]. cbn [isalnum] in Hname.
      pose proof (all_alnum_no_sep _ Hname) as Hsep.
      split; [done|]. split; [exact Hname|]. split; [exact Hsep|].
      split.
      * apply basename_path_join. rewrite has_sep_app, Hsep. reflexivity.
      * unfold try_except, bind.
        by destruct (init_db E dirs (String c db) n w) as [[[[]|e] w'] n'].
    + pose proof (init_db_registry db n w) as Hreg. cbn beta in Hreg.
      unfold try_except, bind.
      by destruct (init_db E dirs db n w) as [[[[]|e] w'] n'].
  - split; [by left | done].
Qed.

End RegistryFacts.

(** ** An expired entry, the form of the fingerprint, the extensions listed *)

Section MainExpired.
Variable E : Engine.
Variable clock : nat -> Z.
Implicit Type w : World E.


End MainExpired.

Section DigestFacts.

Lemma hex_digit_is_hex x : 0 <= x < 16 -> is_hex_char (MD5.hex_digit x) = true.
Proof.
  intros Hx.
  assert (x = 0 \/ x = 1 \/ x = 2 \/ x = 3 \/ x = 4 \/ x = 5 \/ x = 6 \/ x = 7 \/
          x = 8 \/ x = 9 \/ x = 10 \/ x = 11 \/ x = 12 \/ x = 13 \/ x = 14 \/ x = 15)
    as Hcases by lia.
  repeat (destruct Hcases as [->|Hcases]; [reflexivity|]). by subst x.
Qed.

Lemma hex_bytes bs :
  Forall (fun b => 0 <= b < 256) bs ->
  String.length (MD5.hex bs) = (2 * length bs)%nat /\ all_hex (MD5.hex bs) = true.
Proof.
  induction 1 as [|b bs Hb _ [IHl IHh]]; [done|].
  cbn [MD5.hex String.length all_hex length]. split; [lia|].
  rewrite !hex_digit_is_hex, IHh; [done| |].
  - split; [apply Z.mod_pos_bound; lia | apply Z.mod_pos_bound; lia].
  - split; [apply Z.div_pos; lia | apply Z.div_lt_upper_bound; lia].
Qed.

Lemma le_bytes_range n x : Forall (fun b => 0 <= b < 256) (MD5.le_bytes n x).
Proof.
  unfold MD5.le_bytes. apply Forall_forall. intros b Hb.
  apply list_elem_of_fmap in Hb as (i & -> & _). apply Z.mod_pos_bound. lia.
Qed.

Lemma le_bytes_length n x : length (MD5.le_bytes n x) = n.
Proof. unfold MD5.le_bytes. by rewrite length_map, length_seq. Qed.

Lemma digest_bytes msg :
  length (MD5.digest msg) = 16%nat /\ Forall (fun b => 0 <= b < 256) (MD5.digest msg).
Proof.
  unfold MD5.digest.
  destruct (fold_left MD5.process _ MD5.init) as [[[a b] c] d].
  split.
  - by rewrite !length_app, !le_bytes_length.
  - repeat (apply Forall_app; split); apply le_bytes_range.
Qed.

(** X22. Whatever the query text, the parameters and the database name,
    the fingerprint is a text of 32 characters, each a digit or a letter
    from [a] to [f]; and the two definitions of [generate_cache_key], of
    [main.py] and of the cache service, give the same one. *)
Theorem generate_cache_key_is_a_digest (q db : string) (p : Main.Params) :
  String.length (Main.generate_cache_key q p db) = 32%nat /\
  all_hex (Main.generate_cache_key q p db) = true /\
  CacheService.generate_cache_key q p db = Main.generate_cache_key q p db.
Proof.
  unfold Main.generate_cache_key, MD5.hexdigest.
  destruct (digest_bytes (MD5.encode (db +:+ ":" +:+
              Py.lower (Py.join " " (Py.split q)) +:+ ":" +:+
              match p with
              | Some (kv :: m) => dumps (JDict (kv :: m))
              | _ => EmptyString
              end))) as [Hlen Hrange].
  destruct (hex_bytes _ Hrange) as [Hl Hh].
  split; [by rewrite Hl, Hlen|]. split; [exact Hh | reflexivity].
Qed.

End DigestFacts.

Section ListingFacts.
Import Registry.
Variable H : Host.
Variable dirs : Dirs.

Lemma endswith_has_char s c p : endswith s (String c p) = true -> has_char c s = true.
Proof.
  induction s as [|x s IH]; cbn [endswith has_char].
  - intros [Heq|Hf]%orb_prop; [|done]. by apply String.eqb_eq in Heq.
  - intros [Heq|Hend]%orb_prop.
    + apply String.eqb_eq in Heq. injection Heq as -> _.
      by rewrite Ascii.eqb_refl.
    + rewrite (IH Hend). apply orb_true_r.
Qed.

Lemma get_extension_file_pattern_star :
  exists p, get_extension_file_pattern H = String "*" p.
Proof.
  unfold get_extension_file_pattern.
  destruct (String.eqb _ "linux"); [by eexists|].
  destruct (String.eqb _ "darwin"); [by eexists|].
  destruct (String.eqb _ "windows"); by eexists.
Qed.

(** X23. The list [get_db_connection] stores in [db_extensions] for a
    connection it creates holds names of the extensions directory only, and
    only names that end with the text of the pattern of the platform,
    [*.so], [*.dylib], [*.dll] or [*]: every name listed contains an
    asterisk. *)
Theorem listed_extensions_hold_the_pattern ext :
  ext ∈ listed_extensions H dirs ->
  ext ∈ listdir H (EXTENSIONS_DIR dirs) /\
  endswith ext (get_extension_file_pattern H) = true /\
  has_char "*" ext = true.
Proof.
  unfold listed_extensions. intros [Hend Hin]%list_elem_of_filter.
  split; [exact Hin|]. split; [exact Hend|].
  destruct get_extension_file_pattern_star as [p Hp]. rewrite Hp in Hend.
  by apply (endswith_has_char ext "*" p).
Qed.

End ListingFacts.

(** ** Failures, writes and the cache *)

Section MainComposed.
Variable E : Engine.
Variable clock : nat -> Z.
Implicit Type w : World E.

(** A statement that raises has stored nothing: the cache is as the lookup
    left it. *)
Lemma run_statement_raise_cache start qid q p db ttl n w r w' n' e :
  run_statement E clock start qid q p db ttl n w = (r, w', n') ->
  r = Raise e -> query_cache w' = query_cache w.
Proof.
  unfold run_statement. unfold bind at 1.
  destruct (get_db_connection_frame E db n w) as (_ & Hc & _).
  destruct (get_db_connection E db n w) as [[[conn|e0] w1] n1]; cbn [fst snd] in Hc;
    [|by intros [= <- <- <-]].
  unfold bind at 1. unfold engine at 1.
  destruct (execute E conn q (truthy p) (store w1)) as [[cur|e0] st1];
    [|by intros [= <- <- <-]].
  destruct (is_select q).
  - unfold bind at 1. unfold engine at 1.
    destruct (fetchall E cur _) as [[rows|e0] st2]; [|by intros [= <- <- <-]].
    unfold bind at 1. destruct (negb (is_metadata q)).
    + rewrite on_cache_run, set_run. by intros [= <- <- <-].
    + by intros [= <- <- <-].
  - unfold bind at 1. unfold engine at 1.
    destruct (commit E conn _) as [[[]|e0] st2]; by intros [= <- <- <-].
Qed.


(** A write that is executed and succeeds: the change is committed and the
    cache is left as it was. *)
Lemma execute_query_write_run qid q p db ttl fr n w conn cur st1 st2 :
  is_select q = false ->
  fr = true \/ cache (query_cache w) !! Main.generate_cache_key q p db = None ->
  (get_db_connection E db (S n) w).1.1 = Ok conn ->
  execute E conn q (truthy p) (store (get_db_connection E db (S n) w).1.2)
    = (Ok cur, st1) ->
  commit E conn st1 = (Ok tt, st2) ->
  execute_query E clock qid q p db ttl fr n w =
    (Ok tt,
     {| query_cache := query_cache w;
        query_results :=
          <[qid := completed (Some [[("rows_affected", JInt (rowcount E cur))]])
                     false (clock (S n) - clock n)]> (query_results w);
        db_connections := db_connections (get_db_connection E db (S n) w).1.2;
        store := st2 |},
     S (S n)).
Proof.
  intros Hsel Hmiss Hconn Hexec Hcommit.
  assert (cache_lookup E clock qid (Main.generate_cache_key q p db) fr (S n) w
          = (Ok false, w, S n)) as Hlook.
  { rewrite cache_lookup_run. destruct Hmiss as [->|Hnone]; [reflexivity|].
    destruct fr; [reflexivity|]. rewrite Hnone. by rewrite with_query_cache_id. }
  destruct (get_db_connection_frame E db (S n) w) as (Hn & Hc & Hr).
  destruct (get_db_connection E db (S n) w) as [[r wc] n1] eqn:Hget.
  cbn [fst snd] in *. subst r n1.
  rewrite execute_query_run, execute_query_try_split, Hlook.
  unfold run_statement. unfold bind at 1. rewrite Hget.
  unfold bind at 1. unfold engine at 1. rewrite Hexec.
  rewrite Hsel. unfold bind at 1. unfold engine at 1.
  cbn [store with_store]. rewrite Hcommit.
  unfold bind, time_time, set_task, modify.
  unfold with_query_results, with_store.
  cbn [query_cache query_results db_connections store].
  by rewrite Hc, Hr.
Qed.

(** X25. A write does not invalidate what is cached: after a statement
    that is not a [SELECT] was executed and committed on a database, a
    submission whose fingerprint has a live entry in the cache is still
    answered from the cache, with the rows stored before the write and
    [cached = True]; the engine is not asked again, its store being as the
    commit left it. *)
Theorem write_does_not_invalidate_cache
    qid qid' qw pw qs ps db ttl ttl' fr n w conn cur st1 st2 it e :
  is_select qw = false ->
  fr = true \/ cache (query_cache w) !! Main.generate_cache_key qw pw db = None ->
  (get_db_connection E db (S n) w).1.1 = Ok conn ->
  execute E conn qw (truthy pw) (store (get_db_connection E db (S n) w).1.2)
    = (Ok cur, st1) ->
  commit E conn st1 = (Ok tt, st2) ->
  cache (query_cache w) !! Main.generate_cache_key qs ps db = Some it ->
  expiration_times (query_cache w) !! Main.generate_cache_key qs ps db = Some e ->
  clock (S (S (S (S n)))) < e ->
  store (execute_query E clock qid qw pw db ttl fr n w).1.2 = st2 /\
  query_results
    (execute_query E clock qid' qs ps db ttl' false (S (S n))
       (execute_query E clock qid qw pw db ttl fr n w).1.2).1.2 !! qid' =
    Some (completed (Some (result it)) true 0) /\
  store
    (execute_query E clock qid' qs ps db ttl' false (S (S n))
       (execute_query E clock qid qw pw db ttl fr n w).1.2).1.2 = st2.
Proof.
  intros Hsel Hmiss Hconn Hexec Hcommit Hit He Hlive.
  rewrite (execute_query_write_run qid qw pw db ttl fr n w conn cur st1 st2)
    by assumption.
  cbn [fst snd store]. split; [reflexivity|].
  rewrite (execute_query_hit_run E clock qid' qs ps db ttl' (S (S n)) _ it e)
    by assumption.
  cbn [fst snd query_results store]. split; [apply lookup_insert_eq | reflexivity].
Qed.

(** X26. [run_query] for a submission that does not force a refresh and
    whose fingerprint has a live entry in the cache answers with the status
    [completed], the cached rows, [cached = True], an execution time of 0
    and no error; it opens no connection and does not call the engine, and
    it reads the clock four times. *)
Theorem run_query_answers_from_cache qid req n w it e :
  force_refresh req = false ->
  cache (query_cache w)
    !! Main.generate_cache_key (query req) (params req) (db_name req) = Some it ->
  expiration_times (query_cache w)
    !! Main.generate_cache_key (query req) (params req) (db_name req) = Some e ->
  clock (S (S n)) < e ->
  returned (run_query E clock qid req n w) =
    Some {| resp_id := qid; resp_status := "completed";
            resp_result := Some (result it); resp_error := None;
            resp_cached := true; resp_execution_time := Some 0 |} /\
  store (run_query E clock qid req n w).1.2 = store w /\
  db_connections (run_query E clock qid req n w).1.2 = db_connections w /\
  (run_query E clock qid req n w).2 = S (S (S (S n))).
Proof.
  intros Hfr Hit He Hlive. rewrite run_query_run, Hfr.
  rewrite (execute_query_hit_run E clock qid (query req) (params req) (db_name req)
             (cache_ttl req) n _ it e) by assumption.
  cbn [query_results with_query_results]. rewrite lookup_insert_eq.
  cbn [returned fst snd store db_connections with_query_results]. done.
Qed.

End MainComposed.

(** ** The LRU order and the time of last use *)

Section RecencyFacts.
Context {V : Type}.
Variable clock : nat -> Z.
Hypothesis clock_monotone : monotone clock.
Implicit Type c : QueryCache V.

Lemma StronglySorted_on {A} (R R' : A -> A -> Prop) l :
  (forall x y, x ∈ l -> y ∈ l -> R x y -> R' x y) ->
  StronglySorted R l -> StronglySorted R' l.
Proof.
  intros Himp Hs. induction Hs as [|x l Hs IH Hall]; [constructor|].
  constructor.
  - apply IH. intros a b Ha Hb. apply Himp; by apply list_elem_of_further.
  - apply Forall_forall. intros y Hy. apply Himp.
    + apply list_elem_of_here.
    + by apply list_elem_of_further.
    + rewrite Forall_forall in Hall. by apply Hall.
Qed.

Lemma StronglySorted_remove_if_in (R : string -> string -> Prop) k l :
  StronglySorted R l -> StronglySorted R (remove_if_in k l).
Proof.
  intros Hs. unfold remove_if_in. destruct (Py.contains k l); [|done].
  induction Hs as [|x l Hs IH Hall]; [constructor|].
  cbn [Py.remove]. destruct (String.eqb k x); [done|].
  constructor; [exact IH|].
  apply Forall_forall. intros y Hy. rewrite Forall_forall in Hall. apply Hall.
  clear -Hy. induction l as [|z l IHl]; [done|]. cbn [Py.remove] in Hy.
  destruct (String.eqb k z).
  - by apply list_elem_of_further.
  - apply elem_of_cons in Hy as [->|Hy]; [apply list_elem_of_here|].
    apply list_elem_of_further. by apply IHl.
Qed.


Lemma used_by_mono now now' c : now <= now' -> used_by now c -> used_by now' c.
Proof. intros Hle Hu k it Hk. specialize (Hu k it Hk). lia. Qed.

Lemma used_by_without_key now k c : used_by now c -> used_by now (without_key k c).
Proof.
  intros Hu x it. cbn [cache without_key with_cache with_lru_keys with_expiration_times].
  rewrite del_if_in_delete. intros Hx. apply lookup_delete_Some in Hx as [_ Hx]. eauto.
Qed.

Lemma used_by_without_lru now c : used_by now c -> used_by now (without_lru c).
Proof.
  intros Hu. rewrite without_lru_fields. destruct (lru_keys c) as [|h t]; [done|].
  intros x it. cbn [cache]. intros Hx. apply lookup_delete_Some in Hx as [_ Hx]. eauto.
Qed.

Lemma used_by_fold now keys : forall c,
  used_by now c -> used_by now (fold_left (fun c k => without_key k c) keys c).
Proof.
  induction keys as [|k keys IH]; intros c Hu; [done|].
  simpl. apply IH. by apply used_by_without_key.
Qed.

Lemma used_by_refreshed now k it c :
  last_hit_time it <= now -> used_by now c -> used_by now (refreshed k it c).
Proof.
  intros Hit Hu x it'. rewrite refreshed_fields. cbn [cache].
  intros Hx. apply lookup_insert_Some in Hx as [[_ <-]|[_ Hx]]; eauto.
Qed.

Lemma recency_ordered_without_key k c :
  NoDup (lru_keys c) -> recency_ordered c -> recency_ordered (without_key k c).
Proof.
  intros Hnd Hs. unfold recency_ordered.
  cbn [lru_keys without_key with_cache with_lru_keys with_expiration_times].
  apply (StronglySorted_on (used_before c)).
  - intros x y Hx Hy Hxy it1 it2.
    cbn [cache without_key with_cache with_lru_keys with_expiration_times].
    rewrite del_if_in_delete. intros H1 H2.
    apply lookup_delete_Some in H1 as [_ H1]. apply lookup_delete_Some in H2 as [_ H2].
    by apply Hxy.
  - by apply StronglySorted_remove_if_in.
Qed.

Lemma recency_ordered_without_lru c :
  consistent c -> recency_ordered c -> recency_ordered (without_lru c).
Proof.
  intros Hc Hs. destruct (lru_keys c) as [|h t] eqn:Hl.
  - unfold without_lru. by rewrite Hl.
  - rewrite (without_lru_cons c h t Hc Hl). unfold recency_ordered in *.
    cbn [lru_keys]. rewrite Hl in Hs. apply StronglySorted_inv in Hs as [Hs _].
    apply (StronglySorted_on (used_before c)); [|exact Hs].
    intros x y Hx Hy Hxy it1 it2. cbn [cache]. intros H1 H2.
    apply lookup_delete_Some in H1 as [_ H1]. apply lookup_delete_Some in H2 as [_ H2].
    by apply Hxy.
Qed.

Lemma recency_ordered_fold keys : forall c,
  NoDup (lru_keys c) -> recency_ordered c ->
  recency_ordered (fold_left (fun c k => without_key k c) keys c).
Proof.
  induction keys as [|k keys IH]; intros c Hnd Hs; [done|].
  simpl. apply IH.
  - cbn [lru_keys without_key with_cache with_lru_keys with_expiration_times].
    by apply NoDup_remove_if_in.
  - by apply recency_ordered_without_key.
Qed.

Lemma recency_ordered_refreshed k it c :
  NoDup (lru_keys c) -> used_by (last_hit_time it) c -> recency_ordered c ->
  recency_ordered (refreshed k it c).
Proof.
  intros Hnd Hu Hs. unfold recency_ordered. rewrite refreshed_fields. cbn [lru_keys].
  apply StronglySorted_app_2.
  - intros x y Hx Hy%list_elem_of_singleton it1 it2. subst y. cbn [cache].
    apply elem_of_remove_if_in in Hx as [Hx Hxk]; [|done].
    rewrite lookup_insert_ne by done. rewrite lookup_insert_eq.
    intros H1 [= <-]. by apply (Hu x).
  - apply (StronglySorted_on (used_before c)).
    + intros x y Hx Hy Hxy it1 it2. cbn [cache]. intros H1 H2.
      apply elem_of_remove_if_in in Hx as [Hx Hxk]; [|done].
      apply elem_of_remove_if_in in Hy as [Hy Hyk]; [|done].
      rewrite lookup_insert_ne in H1 by done. rewrite lookup_insert_ne in H2 by done.
      by apply Hxy.
    + by apply StronglySorted_remove_if_in.
  - repeat constructor.
Qed.

(** The state an operation leaves is ordered by last use, and no entry was
    used after the clock reading that comes next. *)
Lemma apply_op_recency o n c :
  consistent c -> recency_ordered c -> used_by (clock n) c ->
  recency_ordered (apply_op clock o n c).1.2 /\
  used_by (clock (apply_op clock o n c).2) (apply_op clock o n c).1.2 /\
  (n <= (apply_op clock o n c).2)%nat.
Proof.
  intros Hc Hs Hu. destruct o as [k|k v ttl| |]; simpl.
  - unfold bind, ret. rewrite get_run. destruct (cache c !! k) as [it|] eqn:Hk.
    + destruct (_ <? _); cbn [fst snd].
      * assert (used_by (clock (S (S n))) c) as Hu2
          by (apply (used_by_mono (clock n)); [apply clock_monotone; lia | done]).
        split; [|split; [|lia]].
        -- apply recency_ordered_refreshed; [apply Hc | exact Hu2 | exact Hs].
        -- apply (used_by_mono (clock (S (S n)))); [apply clock_monotone; lia|].
           apply used_by_refreshed; [cbn; lia | exact Hu2].
      * split; [|split; [|lia]].
        -- apply recency_ordered_without_key; [apply Hc | exact Hs].
        -- apply (used_by_mono (clock n)); [apply clock_monotone; lia|].
           by apply used_by_without_key.
    + cbn [fst snd]. split; [done|]. split; [done|lia].
  - rewrite set_run. cbn [fst snd]. unfold stored.
    set (c0 := if is_full c then without_lru c else c).
    assert (consistent c0 /\ recency_ordered c0 /\ used_by (clock n) c0)
      as (Hc0 & Hs0 & Hu0).
    { subst c0. destruct (is_full c); [|done].
      split; [by apply consistent_without_lru|].
      split; [by apply recency_ordered_without_lru | by apply used_by_without_lru]. }
    assert (used_by (clock (S (S n))) c0) as Hu2
      by (apply (used_by_mono (clock n)); [apply clock_monotone; lia | done]).
    split; [|split; [|lia]].
    + apply recency_ordered_refreshed.
      * apply Hc0.
      * intros x it'. cbn [cache with_expiration_times last_hit_time]. apply Hu2.
      * exact Hs0.
    + apply (used_by_mono (clock (S (S n)))); [apply clock_monotone; lia|].
      apply used_by_refreshed; [cbn; lia|].
      intros x it'. cbn [cache with_expiration_times]. apply Hu2.
  - split; [constructor|]. split; [|lia]. intros x it. cbn. by rewrite lookup_empty.
  - unfold bind, ret. rewrite cleanup_expired_run. cbn [fst snd].
    split; [apply recency_ordered_fold; [apply Hc | exact Hs]|]. split; [|lia].
    apply (used_by_mono (clock n)); [apply clock_monotone; lia|]. by apply used_by_fold.
Qed.

Lemma run_ops_recency m ops : forall n c,
  cache_inv m c -> recency_ordered c -> used_by (clock n) c ->
  recency_ordered (run_ops clock ops n c).1.2.
Proof.
  induction ops as [|o ops IH]; intros n c Hc Hs Hu.
  - by rewrite run_ops_nil.
  - rewrite run_ops_cons.
    destruct (apply_op_recency o n c (proj1 Hc) Hs Hu) as (Hs1 & Hu1 & _).
    destruct (apply_op_inv clock m o n c Hc) as (c1 & n1 & Hrun & Hc1).
    rewrite Hrun in *. cbn [fst snd] in *. by apply IH.
Qed.

(** X27. With a clock that does not run backwards, whatever sequence of
    [get], [set], [clear] and [cleanup_expired] calls a fresh [QueryCache]
    has served, [lru_keys] lists the keys from the least to the most
    recently used, by the [last_hit_time] of their entries; so the key at
    its head, the one a [set] on a full cache evicts, belongs to an entry
    whose last use is the oldest of all. *)
Theorem lru_keys_ordered_by_last_use settings (ops : list (cache_op V)) :
  recency_ordered (cache_after clock settings ops) /\
  (forall h t k ith it,
     lru_keys (cache_after clock settings ops) = h :: t ->
     cache (cache_after clock settings ops) !! h = Some ith ->
     cache (cache_after clock settings ops) !! k = Some it ->
     last_hit_time ith <= last_hit_time it).
Proof.
  assert (recency_ordered (cache_after clock settings ops)) as Hs.
  { unfold cache_after. apply (run_ops_recency (Config.MAX_CACHE_SIZE settings)).
    - apply cache_inv_init.
    - constructor.
    - intros k it. cbn. by rewrite lookup_empty. }
  split; [exact Hs|]. intros h t k ith it Hl Hh Hk.
  unfold recency_ordered in Hs. rewrite Hl in Hs.
  apply StronglySorted_inv in Hs as [_ Hall].
  destruct (decide (k = h)) as [->|Hne]; [rewrite Hh in Hk; injection Hk as ->; lia|].
  assert (k ∈ h :: t) as Hin.
  { rewrite <- Hl.
    destruct (consistent_after clock settings ops) as (_ & Hlru & _).
    apply Hlru. eauto. }
  apply elem_of_cons in Hin as [->|Hin]; [done|].
  rewrite Forall_forall in Hall. by apply (Hall k Hin).
Qed.

End RecencyFacts.

(** * The program on the instances *)

(** The fingerprint of the query of the specification, as [hashlib] gives it. *)
Example fingerprint_value :
  Main.generate_cache_key "SELECT  *  FROM t" None "default" =
  "87610ca8f0c74b60fbf2566991f4ce83".
Proof. vm_compute. reflexivity. Qed.





(** C3, the claim as stated fails: with [MAX_CACHE_SIZE] set to 0 the cache
    holds one entry after a [set]. *)
Lemma capacity_zero_example :
  max_cache_size zero_capacity_cache = 0 /\
  size (cache zero_capacity_cache) = 1%nat /\
  ~ (Z.of_nat (size (cache zero_capacity_cache)) <= max_cache_size zero_capacity_cache).
Proof.
  split; [vm_compute; reflexivity|]. split; [vm_compute; reflexivity|].
  vm_compute. intros H. apply H. reflexivity.
Qed.

Lemma capacity_bound_witness :
  1 <= Config.MAX_CACHE_SIZE (settings_of_capacity 2) /\
  Z.of_nat (size (cache (cache_after seconds (settings_of_capacity 2)
                           [OpSet "a" 1 None; OpSet "b" 2 None; OpSet "c" 3 None])))
  <= Config.MAX_CACHE_SIZE (settings_of_capacity 2).
Proof.
  assert (1 <= Config.MAX_CACHE_SIZE (settings_of_capacity 2)) as Hpos
    by (vm_compute; discriminate).
  split; [exact Hpos|].
  exact (capacity_bound seconds (settings_of_capacity 2)
           [OpSet "a" 1 None; OpSet "b" 2 None; OpSet "c" 3 None] Hpos).
Defined.

Lemma lru_order_witness :
  Config.MAX_CACHE_SIZE (settings_of_capacity 2) = 2 /\
  "a" ≠ "b" /\ "a" ≠ "c" /\ "b" ≠ "c" /\
  seconds 7 < seconds 0 + default (Config.CACHE_EXPIRY (settings_of_capacity 2)) None /\
  lru_keys (cache_after seconds (settings_of_capacity 2)
              [OpSet "a" 1 None; OpSet "b" 2 None; OpSet "c" 3 None]) = ["b"; "c"] /\
  lru_keys (cache_after seconds (settings_of_capacity 2)
              [OpSet "a" 1 None; OpSet "b" 2 None; OpGet "a"; OpSet "c" 3 None])
    = ["a"; "c"].
Proof.
  assert (seconds 7 < seconds 0 +
            default (Config.CACHE_EXPIRY (settings_of_capacity 2)) None) as Hlive
    by (vm_compute; reflexivity).
  assert ("a" ≠ "b") as Hab by discriminate.
  assert ("a" ≠ "c") as Hac by discriminate.
  assert ("b" ≠ "c") as Hbc by discriminate.
  destruct (lru_order seconds (settings_of_capacity 2) "a" "b" "c" 1 2 3
              None None None eq_refl Hab Hac Hbc Hlive)
    as ((_ & _ & _ & H1) & (_ & _ & _ & H2) & _).
  repeat split; assumption.
Defined.

(** C5, the program at the boundary: the entry of ["a"] expires at 150 and
    the clock reads 150; [cleanup_expired] returns 0 and the entry is still
    there, while [get] at the same reading finds the entry expired and
    removes it. *)
Theorem cleanup_keeps_entry_expiring_now :
  expiration_times boundary_cache !! "a" = Some 150 /\
  boundary_clock 3 = 150 /\
  returned (cleanup_expired boundary_clock 3%nat boundary_cache) = Some 0 /\
  result <$> cache (cleanup_expired boundary_clock 3%nat boundary_cache).1.2 !! "a"
    = Some 7 /\
  returned (get boundary_clock "a" 3%nat boundary_cache) = Some (None, false) /\
  cache (get boundary_clock "a" 3%nat boundary_cache).1.2 !! "a" = None.
Proof. repeat split; vm_compute; reflexivity. Qed.

(** C6, the claim as stated fails: the fingerprint of the write is that of
    the query answered before, so the write is answered from the cache, with
    the row of the query and the entry counted as hit once more; the engine
    is not called. And a write that the engine rejects leaves its task in
    error. *)
Lemma write_hits_colliding_entry :
  is_select (query colliding_delete) = false /\
  Main.generate_cache_key "delete from t" None "x:select 1 --" =
    Main.generate_cache_key "select 1 --:delete from t" None "x" /\
  query_results
    (execute_query journal_engine seconds "q2" (query colliding_delete)
       (params colliding_delete) (db_name colliding_delete)
       (cache_ttl colliding_delete) (force_refresh colliding_delete)
       world_after_select.2 world_after_select.1).1.2 !! "q2" =
    Some (completed (Some [[("1", JInt 1)]]) true 0) /\
  store
    (execute_query journal_engine seconds "q2" (query colliding_delete)
       (params colliding_delete) (db_name colliding_delete)
       (cache_ttl colliding_delete) (force_refresh colliding_delete)
       world_after_select.2 world_after_select.1).1.2 =
    ["x: select 1 --:delete from t"; "connect x"] /\
  store world_after_select.1 = ["x: select 1 --:delete from t"; "connect x"] /\
  hits <$> cache (query_cache world_after_select.1)
             !! Main.generate_cache_key "delete from t" None "x:select 1 --" = Some 1 /\
  hits <$> cache (query_cache
             (execute_query journal_engine seconds "q2" (query colliding_delete)
                (params colliding_delete) (db_name colliding_delete)
                (cache_ttl colliding_delete) (force_refresh colliding_delete)
                world_after_select.2 world_after_select.1).1.2)
             !! Main.generate_cache_key "delete from t" None "x:select 1 --" = Some 2 /\
  ~ spec_write_bypass journal_engine seconds "q2" colliding_delete
      world_after_select.2 world_after_select.1 /\
  is_select "DELETE FROM missing" = false /\
  query_results
    (execute_query journal_engine seconds "q3" "DELETE FROM missing" None "default"
       None false 0%nat (fresh_world Config.defaults)).1.2 !! "q3" =
    Some (error "no such table: missing" 1).
Proof.
  assert (query_results
    (execute_query journal_engine seconds "q2" (query colliding_delete)
       (params colliding_delete) (db_name colliding_delete)
       (cache_ttl colliding_delete) (force_refresh colliding_delete)
       world_after_select.2 world_after_select.1).1.2 !! "q2" =
    Some (completed (Some [[("1", JInt 1)]]) true 0)) as Htask
    by (vm_compute; reflexivity).
  assert (is_select (query colliding_delete) = false) as Hwrite
    by (vm_compute; reflexivity).
  split; [exact Hwrite|]. split; [vm_compute; reflexivity|].
  split; [exact Htask|].
  split; [vm_compute; reflexivity|]. split; [vm_compute; reflexivity|].
  split; [vm_compute; reflexivity|]. split; [vm_compute; reflexivity|].
  split; [|split; [vm_compute; reflexivity | vm_compute; reflexivity]].
  intros Hspec. destruct (Hspec Hwrite) as (w' & n' & k & t & Hrun & _ & Hres).
  rewrite Hrun in Htask. cbn [fst snd] in Htask.
  rewrite Htask in Hres. discriminate Hres.
Qed.

Lemma write_bypasses_cache_witness :
  is_select "DELETE FROM t" = false /\
  cache (query_cache (fresh_world Config.defaults))
    !! Main.generate_cache_key "DELETE FROM t" None "default" = None /\
  (get_db_connection journal_engine "default" 1%nat
     (fresh_world Config.defaults)).1.1 = Ok "default" /\
  execute journal_engine "default" "DELETE FROM t" (truthy None)
    (store (get_db_connection journal_engine "default" 1%nat
              (fresh_world Config.defaults)).1.2)
    = (Ok "DELETE FROM t", ["default: DELETE FROM t"; "connect default"]) /\
  commit journal_engine "default" ["default: DELETE FROM t"; "connect default"]
    = (Ok tt, ["default: COMMIT"; "default: DELETE FROM t"; "connect default"]) /\
  query_cache
    (execute_query journal_engine seconds "q1" "DELETE FROM t" None "default" None
       false 0%nat (fresh_world Config.defaults)).1.2
    = query_cache (fresh_world Config.defaults) /\
  query_results
    (execute_query journal_engine seconds "q1" "DELETE FROM t" None "default" None
       false 0%nat (fresh_world Config.defaults)).1.2 !! "q1"
    = Some (completed
              (Some [[("rows_affected",
                       JInt (rowcount journal_engine "DELETE FROM t"))]])
              false (seconds 1 - seconds 0)).
Proof.
  assert (is_select "DELETE FROM t" = false) as Hwrite by (vm_compute; reflexivity).
  assert (cache (query_cache (fresh_world Config.defaults))
            !! Main.generate_cache_key "DELETE FROM t" None "default" = None) as Hmiss
    by (vm_compute; reflexivity).
  assert ((get_db_connection journal_engine "default" 1%nat
             (fresh_world Config.defaults)).1.1 = Ok "default") as Hconn
    by (vm_compute; reflexivity).
  assert (execute journal_engine "default" "DELETE FROM t" (truthy None)
            (store (get_db_connection journal_engine "default" 1%nat
                      (fresh_world Config.defaults)).1.2)
          = (Ok "DELETE FROM t", ["default: DELETE FROM t"; "connect default"]))
    as Hexec by (vm_compute; reflexivity).
  assert (commit journal_engine "default" ["default: DELETE FROM t"; "connect default"]
          = (Ok tt, ["default: COMMIT"; "default: DELETE FROM t"; "connect default"]))
    as Hcommit by (vm_compute; reflexivity).
  pose proof (write_bypasses_cache journal_engine seconds "q1" "DELETE FROM t" None
                "default" None false 0%nat (fresh_world Config.defaults)
                "default" "DELETE FROM t"
                ["default: DELETE FROM t"; "connect default"]
                ["default: COMMIT"; "default: DELETE FROM t"; "connect default"]
                Hwrite (or_intror Hmiss) Hconn Hexec Hcommit) as Hrun.
  split; [exact Hwrite|]. split; [exact Hmiss|]. split; [exact Hconn|].
  split; [exact Hexec|]. split; [exact Hcommit|].
  rewrite Hrun. cbn [fst snd query_cache query_results].
  split; [reflexivity | apply lookup_insert_eq].
Defined.

Lemma execute_query_records_failure_witness :
  (attempt journal_engine seconds "q1" (request "default" "SELECT * FROM missing")
     0%nat (fresh_world Config.defaults)).1.1 = Raise "no such table: missing" /\
  resp_status <$>
    returned (run_query journal_engine seconds "q1"
                (request "default" "SELECT * FROM missing") 0%nat
                (fresh_world Config.defaults)) = Some "error" /\
  resp_error <$>
    returned (run_query journal_engine seconds "q1"
                (request "default" "SELECT * FROM missing") 0%nat
                (fresh_world Config.defaults)) = Some (Some "no such table: missing").
Proof.
  assert ((attempt journal_engine seconds "q1"
             (request "default" "SELECT * FROM missing") 0%nat
             (fresh_world Config.defaults)).1.1 = Raise "no such table: missing")
    as Hraise by (vm_compute; reflexivity).
  split; [exact Hraise|].
  rewrite (proj2 (proj2 (execute_query_records_failure journal_engine seconds "q1"
                           (request "default" "SELECT * FROM missing") 0%nat
                           (fresh_world Config.defaults) _ Hraise))).
  split; reflexivity.
Defined.

(** The response to the failed submission, as the program computes it. *)
Example failed_submission_response :
  returned (run_query journal_engine seconds "q1"
              (request "default" "SELECT * FROM missing") 0%nat
              (fresh_world Config.defaults)) =
  Some {| resp_id := "q1"; resp_status := "error"; resp_result := None;
          resp_error := Some "no such table: missing"; resp_cached := false;
          resp_execution_time := Some 1 |}.
Proof. vm_compute. reflexivity. Qed.

(** * More of the program on the instances *)



Lemma get_touches_only_its_key_witness :
  "b" <> "a" /\ NoDup (lru_keys full_cache) /\
  cache (get seconds "a" 6%nat full_cache).1.2 !! "b" = cache full_cache !! "b".
Proof.
  assert ("b" <> "a") as Hne by discriminate.
  assert (NoDup (lru_keys full_cache)) as Hnd
    by exact (proj1 (consistent_after seconds (settings_of_capacity 2)
                       [OpSet "a" 1 None; OpSet "b" 2 None])).
  split; [exact Hne|]. split; [exact Hnd|].
  exact (proj1 (get_touches_only_its_key seconds "a" "b" 6%nat full_cache Hne Hnd)).
Defined.

Lemma get_drops_expired_entry_witness :
  consistent boundary_cache /\
  is_Some (cache boundary_cache !! "a") /\
  expiration_times boundary_cache !! "a" = Some 150 /\
  150 <= boundary_clock 4 /\
  returned (get boundary_clock "a" 3%nat boundary_cache) = Some (None, false).
Proof.
  assert (consistent boundary_cache) as Hc
    by exact (consistent_after boundary_clock (settings_of_capacity 2)
                [OpSet "a" 7 (Some 50)]).
  assert (is_Some (cache boundary_cache !! "a")) as Hin
    by (eexists; vm_compute; reflexivity).
  assert (expiration_times boundary_cache !! "a" = Some 150) as He
    by (vm_compute; reflexivity).
  assert (150 <= boundary_clock 4) as Hexp by (vm_compute; discriminate).
  split; [exact Hc|]. split; [exact Hin|]. split; [exact He|]. split; [exact Hexp|].
  exact (proj1 (get_drops_expired_entry boundary_clock "a" 3%nat boundary_cache 150
                  Hc Hin He Hexp)).
Defined.

Lemma cleanup_expired_exact_witness :
  consistent aging_cache /\
  returned (cleanup_expired seconds 6%nat aging_cache) =
    Some (Z.of_nat (size (cache aging_cache)) -
          Z.of_nat (size (cache (cleanup_expired seconds 6%nat aging_cache).1.2))).
Proof.
  assert (consistent aging_cache) as Hc
    by exact (consistent_after seconds (settings_of_capacity 2)
                [OpSet "a" 1 (Some 1); OpSet "b" 2 None]).
  split; [exact Hc|].
  exact (proj1 (cleanup_expired_exact seconds 6%nat aging_cache Hc)).
Defined.

Lemma sets_evict_first_in_first_out_witness :
  1 <= Config.MAX_CACHE_SIZE (settings_of_capacity 2) /\
  NoDup (map (fun e : string * Z * option Z => e.1.1)
           [("a", 1, None); ("b", 2, None); ("c", 3, None)]) /\
  lru_keys (cache_after seconds (settings_of_capacity 2)
              (set_ops [("a", 1, None); ("b", 2, None); ("c", 3, None)])) =
    drop (length [("a", 1, None : option Z); ("b", 2, None); ("c", 3, None)] -
          Z.to_nat (Config.MAX_CACHE_SIZE (settings_of_capacity 2)))
      (map (fun e : string * Z * option Z => e.1.1)
         [("a", 1, None); ("b", 2, None); ("c", 3, None)]).
Proof.
  assert (1 <= Config.MAX_CACHE_SIZE (settings_of_capacity 2)) as Hpos
    by (vm_compute; discriminate).
  assert (NoDup (map (fun e : string * Z * option Z => e.1.1)
                   [("a", 1, None); ("b", 2, None); ("c", 3, None)])) as Hnd
    by (cbn [map fst snd]; compute_done).
  split; [exact Hpos|]. split; [exact Hnd|].
  exact (proj1 (sets_evict_first_in_first_out seconds (settings_of_capacity 2)
                  [("a", 1, None); ("b", 2, None); ("c", 3, None)] Hpos Hnd)).
Defined.

Lemma generate_cache_key_params_order_witness :
  NoDup (map fst [("a", JInt 1); ("b", JInt 2)]) /\
  [("a", JInt 1); ("b", JInt 2)] ≡ₚ [("b", JInt 2); ("a", JInt 1)] /\
  Main.generate_cache_key "SELECT :a + :b" (Some [("a", JInt 1); ("b", JInt 2)])
    "default" =
  Main.generate_cache_key "SELECT :a + :b" (Some [("b", JInt 2); ("a", JInt 1)])
    "default".
Proof.
  assert (NoDup (map fst [("a", JInt 1); ("b", JInt 2)])) as Hnd
    by (cbn [map fst snd]; compute_done).
  assert ([("a", JInt 1); ("b", JInt 2)] ≡ₚ [("b", JInt 2); ("a", JInt 1)]) as Hp
    by apply Permutation_swap.
  split; [exact Hnd|]. split; [exact Hp|].
  exact (proj1 (generate_cache_key_params_order "SELECT :a + :b" "default"
                  [("a", JInt 1); ("b", JInt 2)] [("b", JInt 2); ("a", JInt 1)]
                  Hnd Hp)).
Defined.

Lemma generate_cache_key_ignores_surrounding_space_witness :
  blank "  " = true /\ blank (String "010"%char EmptyString) = true /\
  Main.generate_cache_key ("  " +:+ "SELECT 1" +:+ String "010"%char EmptyString) None "default"
    = Main.generate_cache_key "SELECT 1" None "default".
Proof.
  assert (blank "  " = true) as Ha by reflexivity.
  assert (blank (String "010"%char EmptyString) = true) as Hb by reflexivity.
  split; [exact Ha|]. split; [exact Hb|].
  exact (proj1 (generate_cache_key_ignores_surrounding_space "SELECT 1" "default"
                  "  " (String "010"%char EmptyString) None Ha Hb)).
Defined.

Lemma execute_query_cache_hit_witness :
  cache (query_cache world_after_query)
    !! Main.generate_cache_key "SELECT 1" None "default" =
    Some {| result := [[("1", JInt 1)]]; timestamp := 1002; hits := 1;
            last_hit_time := 1003 |} /\
  expiration_times (query_cache world_after_query)
    !! Main.generate_cache_key "SELECT 1" None "default" = Some 1301 /\
  seconds 7 < 1301 /\
  query_results
    (execute_query journal_engine seconds "q2" "SELECT 1" None "default" None false
       5%nat world_after_query).1.2 !! "q2" =
    Some (completed (Some [[("1", JInt 1)]]) true 0) /\
  store
    (execute_query journal_engine seconds "q2" "SELECT 1" None "default" None false
       5%nat world_after_query).1.2 = store world_after_query.
Proof.
  assert (cache (query_cache world_after_query)
            !! Main.generate_cache_key "SELECT 1" None "default" =
          Some {| result := [[("1", JInt 1)]]; timestamp := 1002; hits := 1;
                  last_hit_time := 1003 |}) as Hit by (vm_compute; reflexivity).
  assert (expiration_times (query_cache world_after_query)
            !! Main.generate_cache_key "SELECT 1" None "default" = Some 1301) as He
    by (vm_compute; reflexivity).
  assert (seconds 7 < 1301) as Hlive by (vm_compute; reflexivity).
  split; [exact Hit|]. split; [exact He|]. split; [exact Hlive|].
  rewrite (execute_query_cache_hit journal_engine seconds "q2" "SELECT 1" None "default"
             None 5%nat world_after_query _ 1301 Hit He Hlive).
  cbn [fst snd query_results store result]. split; [apply lookup_insert_eq | reflexivity].
Defined.


Lemma execute_query_metadata_not_cached_witness :
  is_metadata "select sqlite_version()" = true /\
  cache (query_cache (fresh_world Config.defaults))
    !! Main.generate_cache_key "select sqlite_version()" None "default" = None /\
  query_cache
    (execute_query journal_engine seconds "q1" "select sqlite_version()" None "default"
       None false 0%nat (fresh_world Config.defaults)).1.2 =
    query_cache (fresh_world Config.defaults) /\
  query_results
    (execute_query journal_engine seconds "q1" "select sqlite_version()" None "default"
       None false 0%nat (fresh_world Config.defaults)).1.2 !! "q1" =
    Some (completed (Some [[("1", JInt 1)]]) false (seconds 1 - seconds 0)).
Proof.
  assert (is_metadata "select sqlite_version()" = true) as Hmeta
    by (vm_compute; reflexivity).
  assert (cache (query_cache (fresh_world Config.defaults))
            !! Main.generate_cache_key "select sqlite_version()" None "default" = None)
    as Hmiss by (vm_compute; reflexivity).
  assert ((get_db_connection journal_engine "default" 1%nat
             (fresh_world Config.defaults)).1.1 = Ok "default") as Hconn
    by (vm_compute; reflexivity).
  assert (execute journal_engine "default" "select sqlite_version()" (truthy None)
            (store (get_db_connection journal_engine "default" 1%nat
                      (fresh_world Config.defaults)).1.2)
          = (Ok "select sqlite_version()",
             ["default: select sqlite_version()"; "connect default"])) as Hexec
    by (vm_compute; reflexivity).
  assert (fetchall journal_engine "select sqlite_version()"
            ["default: select sqlite_version()"; "connect default"]
          = (Ok [[("1", JInt 1)]],
             ["default: select sqlite_version()"; "connect default"])) as Hfetch
    by reflexivity.
  split; [exact Hmeta|]. split; [exact Hmiss|].
  rewrite (execute_query_metadata_not_cached journal_engine seconds "q1"
             "select sqlite_version()" None "default" None false 0%nat
             (fresh_world Config.defaults) "default" "select sqlite_version()" _ _ _
             Hmeta (or_intror Hmiss) Hconn Hexec Hfetch).
  cbn [fst snd query_results query_cache]. split; [reflexivity | apply lookup_insert_eq].
Defined.

Lemma repeated_select_served_from_cache_witness :
  is_select "SELECT 1" = true /\ is_metadata "SELECT 1" = false /\
  Main.generate_cache_key "select   1" None "default" =
    Main.generate_cache_key "SELECT 1" None "default" /\
  seconds 7 <
    seconds 1 + default (default_ttl (query_cache (fresh_world Config.defaults))) None /\
  query_results
    (execute_query journal_engine seconds "q2" "select   1" None "default" None false
       5%nat
       (execute_query journal_engine seconds "q1" "SELECT 1" None "default" None true
          0%nat (fresh_world Config.defaults)).1.2).1.2 !! "q2" =
    Some (completed (Some [[("1", JInt 1)]]) true 0).
Proof.
  assert (is_select "SELECT 1" = true) as Hsel by (vm_compute; reflexivity).
  assert (is_metadata "SELECT 1" = false) as Hmeta by (vm_compute; reflexivity).
  assert ((get_db_connection journal_engine "default" 1%nat
             (fresh_world Config.defaults)).1.1 = Ok "default") as Hconn
    by (vm_compute; reflexivity).
  assert (execute journal_engine "default" "SELECT 1" (truthy None)
            (store (get_db_connection journal_engine "default" 1%nat
                      (fresh_world Config.defaults)).1.2)
          = (Ok "SELECT 1", ["default: SELECT 1"; "connect default"])) as Hexec
    by (vm_compute; reflexivity).
  assert (fetchall journal_engine "SELECT 1" ["default: SELECT 1"; "connect default"]
          = (Ok [[("1", JInt 1)]], ["default: SELECT 1"; "connect default"])) as Hfetch
    by reflexivity.
  assert (Main.generate_cache_key "select   1" None "default" =
          Main.generate_cache_key "SELECT 1" None "default") as Hkey
    by (vm_compute; reflexivity).
  assert (seconds 7 <
          seconds 1 +
          default (default_ttl (query_cache (fresh_world Config.defaults))) None)
    as Hlive by (vm_compute; reflexivity).
  split; [exact Hsel|]. split; [exact Hmeta|]. split; [exact Hkey|].
  split; [exact Hlive|].
  exact (proj1 (repeated_select_served_from_cache journal_engine seconds "q1" "q2"
                  "SELECT 1" "select   1" None None "default" "default" None None true
                  0%nat (fresh_world Config.defaults) "default" "SELECT 1" _ _ _
                  Hsel Hmeta (or_introl eq_refl) Hconn Hexec Hfetch Hkey Hlive)).
Defined.

(** The functions of [os.path] and of [str] on the values Python gives. *)
Example posix_path_values :
  Registry.splitext_root "stats.so" = "stats" /\
  Registry.splitext_root ".so" = ".so" /\
  Registry.splitext_root "a.b.so" = "a.b" /\
  Registry.splitext_root "..so" = "..so" /\
  Registry.splitext_root "dir/x.so" = "dir/x" /\
  Registry.splitext_root "a/.b" = "a/.b" /\
  Registry.splitext_root "a..so" = "a." /\
  Registry.basename "dir/x.so" = "x.so" /\
  Registry.path_join "extensions" "*.so" = "extensions/*.so" /\
  Registry.path_join "a/" "b" = "a/b" /\
  Registry.path_join EmptyString "b" = "b" /\
  Registry.path_join "a" "/b" = "/b" /\
  Registry.endswith "x.so" "*.so" = false /\
  Registry.endswith "x*.so" "*.so" = true /\
  Registry.isalnum EmptyString = false /\
  Registry.isalnum "db1" = true /\
  Registry.isalnum "../db" = false.
Proof. repeat split; vm_compute; reflexivity. Qed.

Lemma get_db_connection_registers_witness :
  (Registry.get_db_connection journal_sqlean linux_host Registry.default_dirs "default"
     true 0%nat fresh_registry).1.1 = Ok 1%nat /\
  Registry.db_connections
    (Registry.get_db_connection journal_sqlean linux_host Registry.default_dirs
       "default" true 0%nat fresh_registry).1.2 !! "default" = Some 1%nat.
Proof.
  assert ((Registry.get_db_connection journal_sqlean linux_host Registry.default_dirs
             "default" true 0%nat fresh_registry).1.1 = Ok 1%nat) as Hok
    by (vm_compute; reflexivity).
  split; [exact Hok|].
  exact (proj1 (get_db_connection_registers journal_sqlean linux_host
                  Registry.default_dirs "default" true 0%nat fresh_registry 1%nat Hok)).
Defined.

Lemma get_db_connection_loads_into_replaced_connection_witness :
  Registry.db_connections fresh_registry !! "default" = None /\
  extension_roots linux_host Registry.default_dirs = ["stats"; "text"] /\
  Registry.listed_extensions linux_host Registry.default_dirs = [] /\
  returned
    (Registry.get_db_connection journal_sqlean linux_host Registry.default_dirs
       "default" true 0%nat fresh_registry) = Some 1%nat /\
  Registry.store
    (Registry.get_db_connection journal_sqlean linux_host Registry.default_dirs
       "default" true 0%nat fresh_registry).1.2 =
    [CallExecute 1 "PRAGMA journal_mode=WAL";
     CallLoadExtension 4 "extensions/text" None;
     CallLoadExtension 4 "extensions/stats" None;
     CallExecute 4 "PRAGMA journal_mode=WAL";
     CallEnableLoadExtension 4 true;
     CallConnect "databases/default.db";
     CallEnableAll;
     CallEnableLoadExtension 1 true;
     CallConnect "databases/default.db";
     CallEnableAll] /\
  Registry.db_extensions
    (Registry.get_db_connection journal_sqlean linux_host Registry.default_dirs
       "default" true 0%nat fresh_registry).1.2 !! "default" = Some [].
Proof.
  assert (Registry.db_connections fresh_registry !! "default" = None) as Hdb
    by reflexivity.
  assert (extension_roots linux_host Registry.default_dirs = ["stats"; "text"])
    as Hroots by (vm_compute; reflexivity).
  assert (Registry.listed_extensions linux_host Registry.default_dirs = []) as Hlisted
    by (vm_compute; reflexivity).
  assert (Registry.discover_extensions linux_host Registry.default_dirs <> []) as Hne
    by (vm_compute; discriminate).
  split; [exact Hdb|]. split; [exact Hroots|]. split; [exact Hlisted|].
  rewrite (get_db_connection_loads_into_replaced_connection journal_sqlean linux_host
             Registry.default_dirs "default" 0%nat fresh_registry
             [CallEnableAll]
             1%nat
             [CallConnect "databases/default.db"; CallEnableAll]
             [CallEnableLoadExtension 1 true; CallConnect "databases/default.db";
              CallEnableAll]
             [CallEnableAll; CallEnableLoadExtension 1 true;
              CallConnect "databases/default.db"; CallEnableAll]
             4%nat
             [CallConnect "databases/default.db"; CallEnableAll;
              CallEnableLoadExtension 1 true; CallConnect "databases/default.db";
              CallEnableAll]
             [CallEnableLoadExtension 4 true; CallConnect "databases/default.db";
              CallEnableAll; CallEnableLoadExtension 1 true;
              CallConnect "databases/default.db"; CallEnableAll]
             [CallExecute 4 "PRAGMA journal_mode=WAL"; CallEnableLoadExtension 4 true;
              CallConnect "databases/default.db"; CallEnableAll;
              CallEnableLoadExtension 1 true; CallConnect "databases/default.db";
              CallEnableAll]
             [CallExecute 1 "PRAGMA journal_mode=WAL";
              CallLoadExtension 4 "extensions/text" None;
              CallLoadExtension 4 "extensions/stats" None;
              CallExecute 4 "PRAGMA journal_mode=WAL";
              CallEnableLoadExtension 4 true;
              CallConnect "databases/default.db";
              CallEnableAll;
              CallEnableLoadExtension 1 true;
              CallConnect "databases/default.db";
              CallEnableAll]
             Hdb Hne eq_refl ltac:(vm_compute; reflexivity) eq_refl eq_refl
             ltac:(vm_compute; reflexivity) eq_refl eq_refl
             ltac:(vm_compute; reflexivity)).
  cbn [returned fst snd Registry.store Registry.db_extensions].
  split; [reflexivity|]. split; [reflexivity|].
  rewrite lookup_insert_eq. by rewrite Hlisted.
Defined.

Lemma load_extension_notes_once_witness :
  Registry.db_connections registry_with_default !! "default" = Some 1%nat /\
  Registry.db_extensions registry_with_default !! "default" = Some [] /\
  returned
    (Registry.load_extension journal_sqlean linux_host Registry.default_dirs "default"
       "stats" None 0%nat registry_with_default) = Some true /\
  Registry.db_extensions
    (Registry.load_extension journal_sqlean linux_host Registry.default_dirs "default"
       "stats" None 0%nat registry_with_default).1.2 !! "default" = Some ["stats"] /\
  Registry.db_extensions
    (Registry.load_extension journal_sqlean linux_host Registry.default_dirs "default"
       "stats" None 0%nat
       (Registry.load_extension journal_sqlean linux_host Registry.default_dirs
          "default" "stats" None 0%nat registry_with_default).1.2).1.2 =
  Registry.db_extensions
    (Registry.load_extension journal_sqlean linux_host Registry.default_dirs "default"
       "stats" None 0%nat registry_with_default).1.2.
Proof.
  assert (Registry.db_connections registry_with_default !! "default" = Some 1%nat)
    as Hdb by (vm_compute; reflexivity).
  assert (Registry.db_extensions registry_with_default !! "default" = Some [])
    as Hexts by (vm_compute; reflexivity).
  assert (Registry.conn_load_extension journal_sqlean 1%nat
            (Registry.path_join (Registry.EXTENSIONS_DIR Registry.default_dirs) "stats")
            (Registry.truthy None) (Registry.store registry_with_default) =
          (Ok tt,
           [CallLoadExtension 1 "extensions/stats" None;
            CallExecute 1 "PRAGMA journal_mode=WAL";
            CallEnableLoadExtension 1 true;
            CallConnect "databases/default.db";
            CallEnableAll])) as Hl1 by (vm_compute; reflexivity).
  assert (Registry.conn_load_extension journal_sqlean 1%nat
            (Registry.path_join (Registry.EXTENSIONS_DIR Registry.default_dirs) "stats")
            (Registry.truthy None)
            [CallLoadExtension 1 "extensions/stats" None;
             CallExecute 1 "PRAGMA journal_mode=WAL";
             CallEnableLoadExtension 1 true;
             CallConnect "databases/default.db";
             CallEnableAll] =
          (Ok tt,
           [CallLoadExtension 1 "extensions/stats" None;
            CallLoadExtension 1 "extensions/stats" None;
            CallExecute 1 "PRAGMA journal_mode=WAL";
            CallEnableLoadExtension 1 true;
            CallConnect "databases/default.db";
            CallEnableAll])) as Hl2 by (vm_compute; reflexivity).
  destruct (load_extension_notes_once journal_sqlean linux_host Registry.default_dirs
              "default" "stats" None 0%nat registry_with_default 1%nat _ _
              Hdb Hl1 Hl2) as (Hret & Hlist & _ & Hsame & _).
  split; [exact Hdb|]. split; [exact Hexts|]. split; [exact Hret|].
  split; [|exact Hsame].
  rewrite Hlist, Hexts. reflexivity.
Defined.


Lemma listed_extensions_hold_the_pattern_witness :
  "odd*.so" ∈ Registry.listed_extensions star_host Registry.default_dirs /\
  has_char "*" "odd*.so" = true.
Proof.
  assert ("odd*.so" ∈ Registry.listed_extensions star_host Registry.default_dirs)
    as Hin.
  { replace (Registry.listed_extensions star_host Registry.default_dirs)
      with ["odd*.so"] by (vm_compute; reflexivity).
    apply list_elem_of_here. }
  split; [exact Hin|].
  exact (proj2 (proj2 (listed_extensions_hold_the_pattern star_host
                         Registry.default_dirs "odd*.so" Hin))).
Defined.


Lemma write_does_not_invalidate_cache_witness :
  is_select "DELETE FROM t" = false /\
  cache (query_cache world_after_query)
    !! Main.generate_cache_key "DELETE FROM t" None "default" = None /\
  cache (query_cache world_after_query)
    !! Main.generate_cache_key "SELECT 1" None "default" =
    Some {| result := [[("1", JInt 1)]]; timestamp := 1002; hits := 1;
            last_hit_time := 1003 |} /\
  seconds 9 < 1301 /\
  query_results
    (execute_query journal_engine seconds "q3" "SELECT 1" None "default" None false
       7%nat
       (execute_query journal_engine seconds "q2" "DELETE FROM t" None "default" None
          false 5%nat world_after_query).1.2).1.2 !! "q3" =
    Some (completed (Some [[("1", JInt 1)]]) true 0) /\
  store
    (execute_query journal_engine seconds "q3" "SELECT 1" None "default" None false
       7%nat
       (execute_query journal_engine seconds "q2" "DELETE FROM t" None "default" None
          false 5%nat world_after_query).1.2).1.2 =
    ["default: COMMIT"; "default: DELETE FROM t"; "default: SELECT 1";
     "connect default"].
Proof.
  assert (is_select "DELETE FROM t" = false) as Hwrite by (vm_compute; reflexivity).
  assert (cache (query_cache world_after_query)
            !! Main.generate_cache_key "DELETE FROM t" None "default" = None) as Hmiss
    by (vm_compute; reflexivity).
  assert ((get_db_connection journal_engine "default" 6%nat world_after_query).1.1
          = Ok "default") as Hconn by (vm_compute; reflexivity).
  assert (execute journal_engine "default" "DELETE FROM t" (truthy None)
            (store (get_db_connection journal_engine "default" 6%nat
                      world_after_query).1.2)
          = (Ok "DELETE FROM t",
             ["default: DELETE FROM t"; "default: SELECT 1"; "connect default"]))
    as Hexec by (vm_compute; reflexivity).
  assert (commit journal_engine "default"
            ["default: DELETE FROM t"; "default: SELECT 1"; "connect default"]
          = (Ok tt,
             ["default: COMMIT"; "default: DELETE FROM t"; "default: SELECT 1";
              "connect default"])) as Hcommit by (vm_compute; reflexivity).
  assert (cache (query_cache world_after_query)
            !! Main.generate_cache_key "SELECT 1" None "default" =
          Some {| result := [[("1", JInt 1)]]; timestamp := 1002; hits := 1;
                  last_hit_time := 1003 |}) as Hit by (vm_compute; reflexivity).
  assert (expiration_times (query_cache world_after_query)
            !! Main.generate_cache_key "SELECT 1" None "default" = Some 1301) as He
    by (vm_compute; reflexivity).
  assert (seconds 9 < 1301) as Hlive by (vm_compute; reflexivity).
  split; [exact Hwrite|]. split; [exact Hmiss|]. split; [exact Hit|].
  split; [exact Hlive|].
  exact (proj2 (write_does_not_invalidate_cache journal_engine seconds "q2" "q3"
                  "DELETE FROM t" None "SELECT 1" None "default" None None false
                  5%nat world_after_query "default" "DELETE FROM t" _ _ _ 1301
                  Hwrite (or_intror Hmiss) Hconn Hexec Hcommit Hit He Hlive)).
Defined.

Lemma run_query_answers_from_cache_witness :
  force_refresh (request "default" "SELECT 1") = false /\
  seconds 7 < 1301 /\
  returned (run_query journal_engine seconds "q2" (request "default" "SELECT 1")
              5%nat world_after_query) =
    Some {| resp_id := "q2"; resp_status := "completed";
            resp_result := Some [[("1", JInt 1)]]; resp_error := None;
            resp_cached := true; resp_execution_time := Some 0 |}.
Proof.
  assert (force_refresh (request "default" "SELECT 1") = false) as Hfr by reflexivity.
  assert (cache (query_cache world_after_query)
            !! Main.generate_cache_key (query (request "default" "SELECT 1"))
                 (params (request "default" "SELECT 1"))
                 (db_name (request "default" "SELECT 1")) =
          Some {| result := [[("1", JInt 1)]]; timestamp := 1002; hits := 1;
                  last_hit_time := 1003 |}) as Hit by (vm_compute; reflexivity).
  assert (expiration_times (query_cache world_after_query)
            !! Main.generate_cache_key (query (request "default" "SELECT 1"))
                 (params (request "default" "SELECT 1"))
                 (db_name (request "default" "SELECT 1")) = Some 1301) as He
    by (vm_compute; reflexivity).
  assert (seconds 7 < 1301) as Hlive by (vm_compute; reflexivity).
  split; [exact Hfr|]. split; [exact Hlive|].
  exact (proj1 (run_query_answers_from_cache journal_engine seconds "q2"
                  (request "default" "SELECT 1") 5%nat world_after_query _ 1301
                  Hfr Hit He Hlive)).
Defined.

Lemma lru_keys_ordered_by_last_use_witness :
  monotone seconds /\ recency_ordered full_cache.
Proof.
  assert (monotone seconds) as Hm by (intros i j Hij; unfold seconds; lia).
  split; [exact Hm|].
  exact (proj1 (lru_keys_ordered_by_last_use seconds Hm (settings_of_capacity 2)
                  [OpSet "a" 1 None; OpSet "b" 2 None])).
Defined.
